(** * AI-Interviewer MVP: session orchestration, flow planner, transcript ledger

    A shallow embedding of [src/ai_interviewer] (controller.py,
    interview_flow.py, transcript.py, llm.py, audio.py, meet.py,
    settings.py, cv_parser.py) and of the form of [src/app/main.py], with
    the properties of the design document that concern them and further
    properties read off the code.

    Conventions.
    - A Python [str] is a [string]; each character is read as one code point
      below 256.
    - Code that can raise returns a [Res]; code that mutates objects or talks
      to a collaborator runs in the monad [M], which threads the objects'
      state and keeps it when an exception is raised, as Python does.
    - External collaborators (document extraction, the LLM providers,
      sounddevice, pyttsx3, Playwright, faster-whisper), the standard
      library's JSON decoder and the observer thread that may call [stop()]
      are described by a [World]; every call to a collaborator and every
      notification is recorded in the [trace] of the state.
    - The JSON decoder, given a text, returns a value or raises
      [JSONDecodeError]; what else it can raise (on an integer literal of
      more digits than the interpreter converts, on nesting deeper than its
      stack) is not described.
    - The file system accepts what the program asks of it ([mkdir],
      [write_text]); the three notification sinks return. *)

From Stdlib Require Import String Ascii List Arith ZArith Bool Lia DecimalString.
Import ListNotations.
Local Open Scope string_scope.
Local Open Scope list_scope.
Local Open Scope nat_scope.

Set Implicit Arguments.
Local Set Warnings "-register-all".

(* ===================================================================== *)
(** * Python string primitives *)
(* ===================================================================== *)

Module PyStr.

(** [str.isspace] on one code point below 256: TAB..CR, FS..US, SPACE,
    NEL (0x85) and NBSP (0xA0). *)
Definition is_space (c : ascii) : bool :=
  let n := nat_of_ascii c in
  ((9 <=? n) && (n <=? 13)) || ((28 <=? n) && (n <=? 32))
  || (n =? 133) || (n =? 160).

Definition is_empty (s : string) : bool :=
  match s with EmptyString => true | String _ _ => false end.

Fixpoint lstrip (s : string) : string :=
  match s with
  | EmptyString => EmptyString
  | String c r => if is_space c then lstrip r else s
  end.

Fixpoint rstrip (s : string) : string :=
  match s with
  | EmptyString => EmptyString
  | String c r =>
      let r' := rstrip r in
      if is_space c && is_empty r' then EmptyString else String c r'
  end.

(** [s.strip()] *)
Definition strip (s : string) : string := lstrip (rstrip s).

(** [s.startswith(p)] *)
Fixpoint startswith (s p : string) {struct p} : bool :=
  match p, s with
  | EmptyString, _ => true
  | String _ _, EmptyString => false
  | String a p', String b s' => Ascii.eqb a b && startswith s' p'
  end.

Fixpoint rev_acc (s acc : string) : string :=
  match s with
  | EmptyString => acc
  | String c r => rev_acc r (String c acc)
  end.

Definition rev (s : string) : string := rev_acc s EmptyString.

(** [s.endswith(p)] *)
Definition endswith (s p : string) : bool := startswith (rev s) (rev p).

(** [p in s] *)
Fixpoint contains (p s : string) : bool :=
  startswith s p ||
  match s with
  | EmptyString => false
  | String _ r => contains p r
  end.

(** [s.split(sep)] for a non-empty [sep]: cut at the occurrences of [sep],
    scanning from the left, occurrences not overlapping. [skip] counts the
    characters of a separator just matched that are still to be passed;
    [cur] is the current piece, reversed. *)
Fixpoint split_go (sep : string) (skip : nat) (cur : string) (s : string)
  : list string :=
  match s with
  | EmptyString => [rev cur]
  | String c r =>
      match skip with
      | S k => split_go sep k cur r
      | O =>
          if startswith s sep
          then rev cur :: split_go sep (String.length sep - 1) EmptyString r
          else split_go sep 0 (String c cur) r
      end
  end.

Definition split (s sep : string) : list string :=
  split_go sep 0 EmptyString s.

(** [sep.join(l)] *)
Fixpoint join (sep : string) (l : list string) : string :=
  match l with
  | [] => EmptyString
  | [x] => x
  | x :: rest => x ++ sep ++ join sep rest
  end.

Definition is_upper (n : nat) : bool :=
  ((65 <=? n) && (n <=? 90))
  || ((192 <=? n) && (n <=? 222) && negb (n =? 215)).

Definition lower_char (c : ascii) : ascii :=
  let n := nat_of_ascii c in
  if is_upper n then ascii_of_nat (n + 32) else c.

(** [s.lower()], on code points below 256. *)
Fixpoint lower (s : string) : string :=
  match s with
  | EmptyString => EmptyString
  | String c r => String (lower_char c) (lower r)
  end.

(** Truth value of a string: non-empty. *)
Definition truthy (s : string) : bool := negb (is_empty s).

(** [str(n)] for a natural number. *)
Definition of_nat (n : nat) : string :=
  NilZero.string_of_uint (Nat.to_uint n).

(** The characters of a string, each as a one-character string. *)
Fixpoint chars (s : string) : list string :=
  match s with
  | EmptyString => []
  | String c r => String c EmptyString :: chars r
  end.

(** The back quote, of which a fence is made. *)
Definition tick : ascii := "`".

(** Every character of [s] is white space. *)
Fixpoint all_space (s : string) : bool :=
  match s with
  | EmptyString => true
  | String c r => is_space c && all_space r
  end.

(** The character [c] does not occur in [s]. *)
Fixpoint free_of (c : ascii) (s : string) : bool :=
  match s with
  | EmptyString => true
  | String x r => negb (Ascii.eqb x c) && free_of c r
  end.

Definition LF : string := String (ascii_of_nat 10) EmptyString.
Definition DQ : string := String (ascii_of_nat 34) EmptyString.

End PyStr.

(* ===================================================================== *)
(** * Python values, exceptions, results *)
(* ===================================================================== *)

(** The objects [json.loads] builds: [None], [bool], numbers, [str], [list]
    and [dict]. A number keeps the text of its token. A [dict] is kept as the
    pairs of the JSON object in source order; a later pair with the same key
    overrides an earlier one (see [Py.dict_get]). *)
Inductive pyobj : Type :=
| PNone
| PBool (b : bool)
| PNum (token : string)
| PStr (s : string)
| PList (items : list pyobj)
| PDict (pairs : list (string * pyobj)).

(** Exceptions; all of them are subclasses of [Exception]. *)
Inductive exn_class : Type :=
| LLMClientError      (* llm.py, subclass of RuntimeError *)
| RuntimeError
| JSONDecodeError
| AttributeError
| TypeError
| ExternalError.      (* any other Exception raised by a collaborator *)

Record exn : Type := Exn { exn_class_of : exn_class; exn_msg : string }.

(** [str(exc)] *)
Definition exn_str (e : exn) : string := exn_msg e.

Inductive Res (A : Type) : Type :=
| Ok (a : A)
| Raise (e : exn).
Arguments Ok {A} a.
Arguments Raise {A} e.

Definition res_bind {A B} (r : Res A) (f : A -> Res B) : Res B :=
  match r with
  | Ok a => f a
  | Raise e => Raise e
  end.

Module Py.

(** A number token denotes a [float] when it has a fraction or an exponent
    or is one of [NaN], [Infinity], [-Infinity]; an [int] otherwise. *)
Fixpoint is_float_token (tok : string) : bool :=
  match tok with
  | EmptyString => false
  | String c r =>
      Ascii.eqb c "." || Ascii.eqb c "e" || Ascii.eqb c "E"
      || Ascii.eqb c "N" || Ascii.eqb c "I" || is_float_token r
  end.

Definition type_name (v : pyobj) : string :=
  match v with
  | PNone => "NoneType"
  | PBool _ => "bool"
  | PNum tok => if is_float_token tok then "float" else "int"
  | PStr _ => "str"
  | PList _ => "list"
  | PDict _ => "dict"
  end.

Definition no_attribute (v : pyobj) (attr : string) : exn :=
  Exn AttributeError
    ("'" ++ type_name v ++ "' object has no attribute '" ++ attr ++ "'").

Definition not_iterable (v : pyobj) : exn :=
  Exn TypeError ("'" ++ type_name v ++ "' object is not iterable").

(** Last binding of [key], as in the [dict] built from the pairs. *)
Fixpoint dict_get (pairs : list (string * pyobj)) (key : string)
  : option pyobj :=
  match pairs with
  | [] => None
  | (k, v) :: rest =>
      match dict_get rest key with
      | Some v' => Some v'
      | None => if String.eqb k key then Some v else None
      end
  end.

Fixpoint mem (k : string) (l : list string) : bool :=
  match l with
  | [] => false
  | x :: r => String.eqb x k || mem k r
  end.

(** Keys of the [dict], each once, in order of first insertion. *)
Fixpoint dict_keys_from (seen : list string) (pairs : list (string * pyobj))
  : list string :=
  match pairs with
  | [] => []
  | (k, _) :: rest =>
      if mem k seen then dict_keys_from seen rest
      else k :: dict_keys_from (k :: seen) rest
  end.

Definition dict_keys (pairs : list (string * pyobj)) : list string :=
  dict_keys_from [] pairs.

(** [item.get(key, default)]: only a [dict] has the method. *)
Definition get (item : pyobj) (key : string) (default : pyobj) : Res pyobj :=
  match item with
  | PDict pairs =>
      match dict_get pairs key with
      | Some v => Ok v
      | None => Ok default
      end
  | _ => Raise (no_attribute item "get")
  end.

Definition is_digit (c : ascii) : bool :=
  let n := nat_of_ascii c in (48 <=? n) && (n <=? 57).

(** Whether every digit of the mantissa of a number token is [0]. *)
Fixpoint mantissa_zero (tok : string) : bool :=
  match tok with
  | EmptyString => true
  | String c r =>
      if Ascii.eqb c "e" || Ascii.eqb c "E" then true
      else if is_digit c then Ascii.eqb c "0" && mantissa_zero r
      else if Ascii.eqb c "N" || Ascii.eqb c "I" then false
      else mantissa_zero r
  end.

Definition digit_value (c : ascii) : Z := Z.of_nat (nat_of_ascii c - 48).

(** The digits of a text read as one number, after [acc]; a sign is
    skipped. *)
Fixpoint digits_value (acc : Z) (s : string) : Z :=
  match s with
  | EmptyString => acc
  | String c r =>
      digits_value
        (if is_digit c then (10 * acc + digit_value c)%Z else acc) r
  end.

(** The exponent of a number token, from the text after its [e] or [E]. *)
Definition exponent_value (s : string) : Z :=
  match s with
  | EmptyString => 0%Z
  | String c r =>
      if Ascii.eqb c "-" then (- digits_value 0 r)%Z else digits_value 0 s
  end.

(** The digits [m] of the mantissa read as an integer, the number [f] of
    those after the point, and the exponent [x]: up to its sign the token
    denotes [m * 10^(x - f)]. [None] for [NaN] and the infinities. *)
Fixpoint scan_number (m f : Z) (frac : bool) (tok : string)
  : option (Z * Z * Z) :=
  match tok with
  | EmptyString => Some (m, f, 0%Z)
  | String c r =>
      if Ascii.eqb c "e" || Ascii.eqb c "E" then Some (m, f, exponent_value r)
      else if Ascii.eqb c "N" || Ascii.eqb c "I" then None
      else if Ascii.eqb c "." then scan_number m f true r
      else if is_digit c then
        scan_number (10 * m + digit_value c)%Z
          (if frac then (f + 1)%Z else f) frac r
      else scan_number m f frac r
  end.

(** Whether a [float] token denotes a number that binary64 rounds to zero:
    one of at most [2^-1075], half the least subnormal (at the half the tie
    goes to zero, the even neighbour). *)
Definition underflows (tok : string) : bool :=
  is_float_token tok &&
  match scan_number 0%Z 0%Z false tok with
  | Some (m, f, x) =>
      let k := (x - f)%Z in
      (k <? 0)%Z && (m * 2 ^ 1075 <=? 10 ^ (- k))%Z
  | None => false
  end.

(** Truth value, as [or] and [if] test it. An [int] is zero when its digits
    are; a [float] also when its value underflows to [0.0]. *)
Definition truthy (v : pyobj) : bool :=
  match v with
  | PNone => false
  | PBool b => b
  | PNum tok => negb (mantissa_zero tok || underflows tok)
  | PStr s => PyStr.truthy s
  | PList l => match l with [] => false | _ => true end
  | PDict l => match l with [] => false | _ => true end
  end.

(** [a or b] *)
Definition or_ (a b : pyobj) : pyobj := if truthy a then a else b.

(** The items a [for] loop (or [enumerate]) draws from a value. *)
Definition iter (v : pyobj) : Res (list pyobj) :=
  match v with
  | PList l => Ok l
  | PStr s => Ok (map PStr (PyStr.chars s))
  | PDict pairs => Ok (map PStr (dict_keys pairs))
  | _ => Raise (not_iterable v)
  end.

(** The [str] a method such as [strip] needs as receiver. *)
Definition as_str (v : pyobj) (attr : string) : Res string :=
  match v with
  | PStr s => Ok s
  | _ => Raise (no_attribute v attr)
  end.

End Py.

(* ===================================================================== *)
(** * The standard library's JSON decoder *)
(* ===================================================================== *)

(** A reference model of [json.loads] (CPython's [json.decoder] and
    [json.scanner]), used to run the planner on concrete responses. The
    planner itself is stated over any decoder (see [Flow]). *)
Module Json.

Inductive scan (A : Type) : Type :=
| Scanned (v : A) (rest : string)
| Invalid        (* JSONDecodeError *)
| Unmodelled.    (* a code point above 255, or the recursion bound *)
Arguments Scanned {A} v rest.
Arguments Invalid {A}.
Arguments Unmodelled {A}.

Definition is_ws (c : ascii) : bool :=
  Ascii.eqb c " " || (nat_of_ascii c =? 9) || (nat_of_ascii c =? 10)
  || (nat_of_ascii c =? 13).

Fixpoint skip_ws (s : string) : string :=
  match s with
  | EmptyString => EmptyString
  | String c r => if is_ws c then skip_ws r else s
  end.

Definition hex_digit (c : ascii) : option nat :=
  let n := nat_of_ascii c in
  if (48 <=? n) && (n <=? 57) then Some (n - 48)
  else if (65 <=? n) && (n <=? 70) then Some (n - 55)
  else if (97 <=? n) && (n <=? 102) then Some (n - 87)
  else None.

Definition hex4 (a b c d : ascii) : option nat :=
  match hex_digit a, hex_digit b, hex_digit c, hex_digit d with
  | Some x, Some y, Some z, Some w => Some (((x * 16 + y) * 16 + z) * 16 + w)
  | _, _, _, _ => None
  end.

Definition push (c : ascii) (r : scan string) : scan string :=
  match r with
  | Scanned v rest => Scanned (String c v) rest
  | Invalid => Invalid
  | Unmodelled => Unmodelled
  end.

(** [py_scanstring] in strict mode, from just after the opening quote. *)
Fixpoint scan_string (s : string) : scan string :=
  match s with
  | EmptyString => Invalid
  | String c r =>
      if nat_of_ascii c =? 34 then Scanned EmptyString r
      else if nat_of_ascii c =? 92 then
        match r with
        | EmptyString => Invalid
        | String e r' =>
            let n := nat_of_ascii e in
            if n =? 34 then push e (scan_string r')
            else if n =? 92 then push e (scan_string r')
            else if Ascii.eqb e "/" then push e (scan_string r')
            else if Ascii.eqb e "b" then push (ascii_of_nat 8) (scan_string r')
            else if Ascii.eqb e "f" then push (ascii_of_nat 12) (scan_string r')
            else if Ascii.eqb e "n" then push (ascii_of_nat 10) (scan_string r')
            else if Ascii.eqb e "r" then push (ascii_of_nat 13) (scan_string r')
            else if Ascii.eqb e "t" then push (ascii_of_nat 9) (scan_string r')
            else if Ascii.eqb e "u" then
              match r' with
              | String h1 (String h2 (String h3 (String h4 r''))) =>
                  match hex4 h1 h2 h3 h4 with
                  | Some u =>
                      if u <? 256 then push (ascii_of_nat u) (scan_string r'')
                      else Unmodelled
                  | None => Invalid
                  end
              | _ => Invalid
              end
            else Invalid
        end
      else if nat_of_ascii c <? 32 then Invalid
      else push c (scan_string r)
  end.

Fixpoint take_digits (s : string) : string * string :=
  match s with
  | EmptyString => (EmptyString, EmptyString)
  | String c r =>
      if Py.is_digit c
      then let '(d, rest) := take_digits r in (String c d, rest)
      else (EmptyString, s)
  end.

(** The integer part of [NUMBER_RE]: a lone [0], or a non-zero digit and
    the digits after it. *)
Definition scan_int (s : string) : option (string * string) :=
  match s with
  | String c r =>
      if Ascii.eqb c "0" then Some ("0", r)
      else if Py.is_digit c then Some (take_digits s)
      else None
  | EmptyString => None
  end.

(** The optional fraction: a dot and at least one digit. *)
Definition scan_frac (s : string) : string * string :=
  match s with
  | String c r =>
      if Ascii.eqb c "." then
        match take_digits r with
        | (EmptyString, _) => (EmptyString, s)
        | (d, rest) => (String c d, rest)
        end
      else (EmptyString, s)
  | EmptyString => (EmptyString, s)
  end.

(** The optional exponent: [e] or [E], an optional sign, at least one
    digit. *)
Definition scan_exp (s : string) : string * string :=
  match s with
  | String c r =>
      if Ascii.eqb c "e" || Ascii.eqb c "E" then
        match r with
        | String sg r' =>
            if Ascii.eqb sg "-" || Ascii.eqb sg "+" then
              match take_digits r' with
              | (EmptyString, _) => (EmptyString, s)
              | (d, rest) => (String c (String sg d), rest)
              end
            else
              match take_digits r with
              | (EmptyString, _) => (EmptyString, s)
              | (d, rest) => (String c d, rest)
              end
        | EmptyString => (EmptyString, s)
        end
      else (EmptyString, s)
  | EmptyString => (EmptyString, s)
  end.

(** [NUMBER_RE.match]: the token and what follows it. *)
Definition scan_number (s : string) : option (string * string) :=
  let '(sign, s1) :=
    match s with
    | String c r => if Ascii.eqb c "-" then ("-", r) else (EmptyString, s)
    | EmptyString => (EmptyString, s)
    end in
  match scan_int s1 with
  | None => None
  | Some (i, s2) =>
      let '(f, s3) := scan_frac s2 in
      let '(e, s4) := scan_exp s3 in
      Some ((sign ++ i ++ f ++ e)%string, s4)
  end.

(** [s[idx:idx+len(w)] == w], giving what follows. *)
Fixpoint literal (w s : string) : option string :=
  match w, s with
  | EmptyString, _ => Some s
  | String a w', String b s' =>
      if Ascii.eqb a b then literal w' s' else None
  | String _ _, EmptyString => None
  end.

Definition scan_constant (s : string) : scan pyobj :=
  match literal "null" s with
  | Some r => Scanned PNone r
  | None =>
  match literal "true" s with
  | Some r => Scanned (PBool true) r
  | None =>
  match literal "false" s with
  | Some r => Scanned (PBool false) r
  | None =>
  match scan_number s with
  | Some (tok, r) => Scanned (PNum tok) r
  | None =>
  match literal "NaN" s with
  | Some r => Scanned (PNum "NaN") r
  | None =>
  match literal "Infinity" s with
  | Some r => Scanned (PNum "Infinity") r
  | None =>
  match literal "-Infinity" s with
  | Some r => Scanned (PNum "-Infinity") r
  | None => Invalid
  end end end end end end end.

(** [scan_once], [JSONArray] and [JSONObject]; [n] bounds the depth of the
    calls, of which any two in a row consume at least one character (so
    twice the length of the text is enough). [scan_array] is
    entered at the start of an item, [scan_object] just after the opening
    quote of a key; both carry the items read so far, reversed. *)
Fixpoint scan_once (n : nat) (s : string) : scan pyobj :=
  match n with
  | O => Unmodelled
  | S n =>
      match s with
      | EmptyString => Invalid
      | String c r =>
          if nat_of_ascii c =? 34 then
            match scan_string r with
            | Scanned v rest => Scanned (PStr v) rest
            | Invalid => Invalid
            | Unmodelled => Unmodelled
            end
          else if Ascii.eqb c "{" then
            match skip_ws r with
            | String d r' =>
                if Ascii.eqb d "}" then Scanned (PDict []) r'
                else if nat_of_ascii d =? 34 then scan_object n r' []
                else Invalid
            | EmptyString => Invalid
            end
          else if Ascii.eqb c "[" then
            match skip_ws r with
            | String d r' =>
                if Ascii.eqb d "]" then Scanned (PList []) r'
                else scan_array n (String d r') []
            | EmptyString => Invalid
            end
          else scan_constant s
      end
  end
with scan_array (n : nat) (s : string) (acc : list pyobj) : scan pyobj :=
  match n with
  | O => Unmodelled
  | S n =>
      match scan_once n s with
      | Scanned v rest =>
          match skip_ws rest with
          | String d r' =>
              if Ascii.eqb d "]" then Scanned (PList (List.rev (v :: acc))) r'
              else if Ascii.eqb d "," then scan_array n (skip_ws r') (v :: acc)
              else Invalid
          | EmptyString => Invalid
          end
      | Invalid => Invalid
      | Unmodelled => Unmodelled
      end
  end
with scan_object (n : nat) (s : string) (acc : list (string * pyobj))
  : scan pyobj :=
  match n with
  | O => Unmodelled
  | S n =>
      match scan_string s with
      | Scanned key rest =>
          match skip_ws rest with
          | String d r1 =>
              if Ascii.eqb d ":" then
                match scan_once n (skip_ws r1) with
                | Scanned v rest2 =>
                    match skip_ws rest2 with
                    | String d2 r2 =>
                        if Ascii.eqb d2 "}"
                        then Scanned (PDict (List.rev ((key, v) :: acc))) r2
                        else if Ascii.eqb d2 "," then
                          match skip_ws r2 with
                          | String q r3 =>
                              if nat_of_ascii q =? 34
                              then scan_object n r3 ((key, v) :: acc)
                              else Invalid
                          | EmptyString => Invalid
                          end
                        else Invalid
                    | EmptyString => Invalid
                    end
                | Invalid => Invalid
                | Unmodelled => Unmodelled
                end
              else Invalid
          | EmptyString => Invalid
          end
      | Invalid => Invalid
      | Unmodelled => Unmodelled
      end
  end.

(** [JSONDecoder.decode]: one value, white space around it, nothing else. *)
Definition decode (s : string) : scan pyobj :=
  match scan_once (S (2 * String.length s)) (skip_ws s) with
  | Scanned v rest =>
      match skip_ws rest with
      | EmptyString => Scanned v EmptyString
      | String _ _ => Invalid
      end
  | Invalid => Invalid
  | Unmodelled => Unmodelled
  end.

(** [json.loads(s)]; [None] stands for [JSONDecodeError]. *)
Definition loads (s : string) : option pyobj :=
  match decode s with
  | Scanned v _ => Some v
  | _ => None
  end.

(** Test data is written with ['] where the JSON text has a double quote. *)
Fixpoint dq (s : string) : string :=
  match s with
  | EmptyString => EmptyString
  | String c r => String (if Ascii.eqb c "'" then ascii_of_nat 34 else c) (dq r)
  end.

End Json.

(* ===================================================================== *)
(** * Objects of the program *)
(* ===================================================================== *)

(** settings.py *)
Record LLMProviderConfig : Type := {
  provider : string;
  model : string;
  api_key : option string;
  extra : list (string * string)
}.

Record InterviewSettings : Type := {
  meeting_url : string;
  candidate_name : string;
  interviewer_name : string;
  cv_path : string;
  llm : LLMProviderConfig;
  transcript_path : string;
  audio_output_path : string;
  video_output_path : string;
  question_voice : string;
  capture_loopback_device : option string;
  virtual_microphone_device : option string;
  interview_outline : option string;
  warmup_prompt : option string
}.

(** interview_flow.py. The dataclass does not check its fields: a step holds
    whatever the decoded item held. *)
Record InterviewStep : Type := {
  title : pyobj;
  question : pyobj;
  followups : pyobj
}.

Record InterviewFlow : Type := {
  flow_llm : LLMProviderConfig;
  flow_cv_text : string;
  flow_outline : string;
  flow_warmup_prompt : string;
  flow_steps : list InterviewStep;       (* _steps *)
  flow_current_index : nat               (* _current_index *)
}.

(** transcript.py. [tm_file] is the text last written to [transcript_path]
    ([None]: nothing written yet); [tm_whisper] tells whether the model was
    loaded. *)
Record TranscriptManager : Type := {
  tm_entries : list string;              (* _entries *)
  tm_file : option string;
  tm_whisper : bool                      (* _whisper is not None *)
}.

(** audio.py. A field that is [None] or an object is kept as a [bool].
    ([_writer] and [_queue] belong to the writer thread once it runs and are
    not kept.) *)
Record SystemAudioRecorder : Type := {
  rec_running : bool;                    (* _running.is_set() *)
  rec_stream : bool;                     (* _stream is not None *)
  rec_thread : bool                      (* _thread is not None *)
}.

(* ===================================================================== *)
(** * The world outside, the state, the monad *)
(* ===================================================================== *)

Inductive Provider : Type := OpenAI | Anthropic | Google.

(** Calls that leave the program. *)
Inductive Call : Type :=
| ExtractText (path : string)
| Generate (p : Provider) (model key prompt : string) (max_tokens : nat)
| WhisperLoad (model_size : string)
| WhisperTranscribe (audio_path : string)
| SoundFileOpen (path : string)
| InputStreamOpen (device : option string)
| StreamStart
| StreamStop
| StreamClose
| WriterStart
| WriterJoin
| TtsInit (voice : string)
| TtsSpeak (text : string)
| BrowserLaunch
| PageGoto (url : string)
| Prejoin (display_name : string)
| ContextClose
| BrowserClose
| PageWait (ms : nat)
| ChatSend (text : string)
| LeaveKeys
| Sleep (seconds : nat).

Inductive Event : Type :=
| Called (c : Call)               (* the call was made; it may have raised *)
| Status (message : string)       (* on_status *)
| TranscriptText (content : string)   (* on_transcript *)
| SummaryText (content : string).     (* on_summary *)

(** What the program does not decide. The [nat] is the logical time of a
    call: the number of events before it. *)
Record World : Type := {
  json_loads : string -> option pyobj;   (* [None]: JSONDecodeError *)
  str_other : pyobj -> string;           (* [str(v)] for [v] not a [str] *)
  fault : nat -> Call -> option exn;     (* the call raises *)
  reply : nat -> Call -> string;         (* the text it returns otherwise *)
  segments : nat -> list string;         (* segment texts of a transcription *)
  writer_alive : nat -> bool;            (* [_thread.is_alive()] of the recorder *)
  stop_requested : nat -> bool           (* an observer calls [stop()] in the
                                            interval that ends at the check
                                            before step [i] *)
}.

Record State : Type := {
  trace : list Event;
  stop_event : bool;                     (* controller._stop_event *)
  worker_alive : bool;                   (* controller._thread alive *)
  flow : InterviewFlow;
  transcript : TranscriptManager;
  recorder : SystemAudioRecorder;
  meet_page : bool                       (* meet._page is not None *)
}.

Definition M (A : Type) : Type := State -> Res A * State.

Definition ret {A} (a : A) : M A := fun st => (Ok a, st).

Definition bind {A B} (m : M A) (f : A -> M B) : M B :=
  fun st =>
    match m st with
    | (Ok a, st') => f a st'
    | (Raise e, st') => (Raise e, st')
    end.

Definition raise {A} (e : exn) : M A := fun st => (Raise e, st).

Definition lift {A} (r : Res A) : M A := fun st => (r, st).

Definition gets {A} (f : State -> A) : M A := fun st => (Ok (f st), st).

Definition modify (f : State -> State) : M unit := fun st => (Ok tt, f st).

Declare Scope m_scope.
Delimit Scope m_scope with M.
Notation "x <- m ;; k" := (bind m (fun x => k))
  (at level 100, m at next level, right associativity) : m_scope.
Notation "m ;; k" := (bind m (fun _ => k))
  (at level 100, right associativity) : m_scope.
Local Open Scope m_scope.

(** [try: body finally: fin]. An exception of [fin] replaces that of [body]. *)
Definition try_finally {A} (body : M A) (fin : M unit) : M A :=
  fun st =>
    let '(r, st1) := body st in
    match fin st1 with
    | (Ok _, st2) => (r, st2)
    | (Raise e, st2) => (Raise e, st2)
    end.

(** [try: body except Exception as exc: handler(exc)] *)
Definition try_except {A} (body : M A) (handler : exn -> M A) : M A :=
  fun st =>
    match body st with
    | (Ok a, st1) => (Ok a, st1)
    | (Raise e, st1) => handler e st1
    end.

Definition set_trace (t : list Event) (st : State) : State :=
  {| trace := t; stop_event := stop_event st; worker_alive := worker_alive st;
     flow := flow st; transcript := transcript st; recorder := recorder st;
     meet_page := meet_page st |}.

Definition set_stop_event (b : bool) (st : State) : State :=
  {| trace := trace st; stop_event := b; worker_alive := worker_alive st;
     flow := flow st; transcript := transcript st; recorder := recorder st;
     meet_page := meet_page st |}.

Definition set_worker_alive (b : bool) (st : State) : State :=
  {| trace := trace st; stop_event := stop_event st; worker_alive := b;
     flow := flow st; transcript := transcript st; recorder := recorder st;
     meet_page := meet_page st |}.

Definition set_flow (f : InterviewFlow) (st : State) : State :=
  {| trace := trace st; stop_event := stop_event st;
     worker_alive := worker_alive st;
     flow := f; transcript := transcript st; recorder := recorder st;
     meet_page := meet_page st |}.

Definition set_transcript (t : TranscriptManager) (st : State) : State :=
  {| trace := trace st; stop_event := stop_event st;
     worker_alive := worker_alive st;
     flow := flow st; transcript := t; recorder := recorder st;
     meet_page := meet_page st |}.

Definition set_recorder (r : SystemAudioRecorder) (st : State) : State :=
  {| trace := trace st; stop_event := stop_event st;
     worker_alive := worker_alive st;
     flow := flow st; transcript := transcript st; recorder := r;
     meet_page := meet_page st |}.

Definition set_meet_page (b : bool) (st : State) : State :=
  {| trace := trace st; stop_event := stop_event st;
     worker_alive := worker_alive st;
     flow := flow st; transcript := transcript st; recorder := recorder st;
     meet_page := b |}.

Definition log (e : Event) : M unit :=
  modify (fun st => set_trace (trace st ++ [e]) st).

(** A call that may raise, and returns a text. *)
Definition call (w : World) (c : Call) : M string :=
  fun st =>
    let t := length (trace st) in
    let st' := set_trace (trace st ++ [Called c]) st in
    match fault w t c with
    | Some e => (Raise e, st')
    | None => (Ok (reply w t c), st')
    end.

(** A call that does not raise. *)
Definition act (c : Call) : M unit := log (Called c).

(** [m] leaves the observation [f] of the state as it is, whether it returns
    or raises. *)
Definition keeps {A X} (f : State -> X) (m : M A) : Prop :=
  forall st, f (snd (m st)) = f st.

(** An observation that does not look at the trace. *)
Definition trace_blind {X} (f : State -> X) : Prop :=
  forall t st, f (set_trace t st) = f st.


(* ===================================================================== *)
(** * llm.py *)
(* ===================================================================== *)

Module LLMClient.

Definition _require_api_key (config : LLMProviderConfig) : Res string :=
  let missing :=
    Exn LLMClientError
      ("An API key is required for provider '" ++ provider config ++ "'.") in
  match api_key config with
  | Some k => if PyStr.truthy k then Ok k else Raise missing
  | None => Raise missing
  end.

(** The three provider paths: the key is required first; the request (the
    import of the provider's package included) is the collaborator's; the
    text of the reply is stripped. *)
Definition _generate_openai (w : World) (config : LLMProviderConfig)
    (prompt : string) (max_output_tokens : nat) : M string :=
  key <- lift (_require_api_key config) ;;
  content <- call w (Generate OpenAI (model config) key prompt max_output_tokens) ;;
  ret (PyStr.strip content).

Definition _generate_anthropic (w : World) (config : LLMProviderConfig)
    (prompt : string) (max_output_tokens : nat) : M string :=
  key <- lift (_require_api_key config) ;;
  content <- call w (Generate Anthropic (model config) key prompt max_output_tokens) ;;
  ret (PyStr.strip content).

Definition _generate_google (w : World) (config : LLMProviderConfig)
    (prompt : string) (max_output_tokens : nat) : M string :=
  key <- lift (_require_api_key config) ;;
  text <- call w (Generate Google (model config) key prompt max_output_tokens) ;;
  ret (PyStr.strip text).

(** [generate(prompt, max_output_tokens=...)], giving [response.content]. *)
Definition generate (w : World) (config : LLMProviderConfig)
    (prompt : string) (max_output_tokens : nat) : M string :=
  let p := PyStr.lower (provider config) in
  if String.eqb p "openai" then
    _generate_openai w config prompt max_output_tokens
  else if String.eqb p "anthropic" then
    _generate_anthropic w config prompt max_output_tokens
  else if String.eqb p "google" || String.eqb p "gemini"
          || String.eqb p "google-genai" then
    _generate_google w config prompt max_output_tokens
  else
    raise (Exn LLMClientError
             ("Unsupported provider '" ++ provider config ++ "'.")).

End LLMClient.

(* ===================================================================== *)
(** * interview_flow.py *)
(* ===================================================================== *)

Module Flow.

Definition DEFAULT_OUTLINE : string :=
  PyStr.join PyStr.LF
    [ "1. Welcome the candidate and confirm audio quality.";
      "2. Ask about the candidate's most relevant experience for the role.";
      "3. Dive deeper into one technical project.";
      "4. Explore behavioural competencies.";
      "5. Provide time for candidate questions.";
      "6. Close by explaining next steps." ].

Definition or_default (o : option string) (d : string) : string :=
  match o with
  | Some s => if PyStr.truthy s then s else d
  | None => d
  end.

(** [InterviewFlow.__init__] *)
Definition init (llm : LLMProviderConfig) (cv_text : string)
    (outline warmup_prompt : option string) : InterviewFlow :=
  {| flow_llm := llm;
     flow_cv_text := cv_text;
     flow_outline := or_default outline DEFAULT_OUTLINE;
     flow_warmup_prompt := or_default warmup_prompt "Warmly welcome the candidate.";
     flow_steps := [];
     flow_current_index := 0 |}.

Definition prompt (f : InterviewFlow) : string :=
  PyStr.join PyStr.LF
    [ "";
      "You are preparing to interview a candidate.";
      "CV:";
      flow_cv_text f;
      "";
      "Interview outline:";
      flow_outline f;
      "";
      "Return a JSON array where each item has the following keys:";
      "- title: short string for UI display";
      "- question: the primary question to ask";
      "- followups: array of short follow-up prompts to dive deeper";
      "";
      ("Start with an item called " ++ PyStr.DQ ++ "Welcome" ++ PyStr.DQ
       ++ " that follows this warmup instruction: "
       ++ flow_warmup_prompt f ++ ".")%string;
      "" ].

Definition fence : string := "```".

Fixpoint first_bracketed (parts : list string) : option string :=
  match parts with
  | [] => None
  | part :: rest =>
      let candidate := PyStr.strip part in
      if PyStr.startswith candidate "[" && PyStr.endswith candidate "]"
      then Some candidate
      else first_bracketed rest
  end.

Definition _extract_json_block (text : string) : option string :=
  if negb (PyStr.contains fence text) then None
  else first_bracketed (PyStr.split text fence).

Definition parse_failure : exn :=
  Exn LLMClientError
    "Failed to parse interview plan from the language model response".

Definition decode_failure : exn := Exn JSONDecodeError "".

(** The [try: json.loads(raw) except JSONDecodeError: ...] of [build]. *)
Definition decode_response (w : World) (raw : string) : Res pyobj :=
  match json_loads w raw with
  | Some data => Ok data
  | None =>
      match _extract_json_block raw with
      | None => Raise parse_failure
      | Some cleaned =>
          if negb (PyStr.truthy cleaned) then Raise parse_failure
          else
            match json_loads w cleaned with
            | Some data => Ok data
            | None => Raise decode_failure
            end
      end
  end.

Definition step_of_item (idx : nat) (item : pyobj) : Res InterviewStep :=
  res_bind (Py.get item "title" (PStr ("Step " ++ PyStr.of_nat (idx + 1))))
    (fun t =>
  res_bind (Py.get item "question" (PStr ""))
    (fun q =>
  res_bind (Py.get item "followups" (PList []))
    (fun f =>
  Ok {| title := t; question := q; followups := Py.or_ f (PList []) |}))).

(** The list comprehension over [enumerate(data)], from index [idx]. *)
Fixpoint steps_from (idx : nat) (items : list pyobj)
  : Res (list InterviewStep) :=
  match items with
  | [] => Ok []
  | item :: rest =>
      res_bind (step_of_item idx item) (fun st =>
      res_bind (steps_from (S idx) rest) (fun sts => Ok (st :: sts)))
  end.

(** [build] after the generation call: from the response text to the steps. *)
Definition parse_steps (w : World) (raw : string)
  : Res (list InterviewStep) :=
  res_bind (decode_response w raw) (fun data =>
  res_bind (Py.iter data) (fun items => steps_from 0 items)).

Definition with_steps (steps : list InterviewStep) (f : InterviewFlow)
  : InterviewFlow :=
  {| flow_llm := flow_llm f; flow_cv_text := flow_cv_text f;
     flow_outline := flow_outline f;
     flow_warmup_prompt := flow_warmup_prompt f;
     flow_steps := steps; flow_current_index := 0 |}.

Definition build (w : World) : M (list InterviewStep) :=
  f <- gets flow ;;
  raw <- LLMClient.generate w (flow_llm f) (prompt f) 1024 ;;
  steps <- lift (parse_steps w raw) ;;
  modify (fun st => set_flow (with_steps steps (flow st)) st) ;;
  ret steps.

Definition advance (f : InterviewFlow) : InterviewFlow :=
  {| flow_llm := flow_llm f; flow_cv_text := flow_cv_text f;
     flow_outline := flow_outline f;
     flow_warmup_prompt := flow_warmup_prompt f;
     flow_steps := flow_steps f;
     flow_current_index := flow_current_index f + 1 |}.

(** [next_step]: the value returned and the object afterwards. *)
Definition next_step (f : InterviewFlow)
  : option InterviewStep * InterviewFlow :=
  if length (flow_steps f) <=? flow_current_index f then (None, f)
  else
    match nth_error (flow_steps f) (flow_current_index f) with
    | Some step => (Some step, advance f)
    | None => (None, f)      (* not reached: the index is in range *)
    end.

(** [n] successive calls of [next_step]: the values returned, in order, and
    the object afterwards. *)
Fixpoint next_steps (n : nat) (f : InterviewFlow)
  : list (option InterviewStep) * InterviewFlow :=
  match n with
  | O => ([], f)
  | S n' =>
      let '(r, f1) := next_step f in
      let '(rs, f2) := next_steps n' f1 in
      (r :: rs, f2)
  end.

End Flow.

(* ===================================================================== *)
(** * transcript.py *)
(* ===================================================================== *)

Module Transcript.

(** The line [f"{speaker}: {text.strip()}"]. *)
Definition line (speaker text : string) : string :=
  (speaker ++ ": " ++ PyStr.strip text)%string.

(** [append] on the object: the entry is added, the parent directory made,
    the whole list written (the file system is taken to accept both). *)
Definition append (speaker text : string) (tm : TranscriptManager)
  : TranscriptManager :=
  let es := tm_entries tm ++ [line speaker text] in
  {| tm_entries := es;
     tm_file := Some (PyStr.join PyStr.LF es);
     tm_whisper := tm_whisper tm |}.

(** The entry of a call [append(speaker, text)]. *)
Definition render (c : string * string) : string := line (fst c) (snd c).

(** The calls [append(speaker, text)] of a list, in order. *)
Definition appends (calls : list (string * string)) (tm : TranscriptManager)
  : TranscriptManager :=
  fold_left (fun tm c => append (fst c) (snd c) tm) calls tm.

(** The object [__init__] leaves: no entries; [file] is what the path
    holds, which the constructor does not touch. *)
Definition new (file : option string) (whisper : bool) : TranscriptManager :=
  {| tm_entries := []; tm_file := file; tm_whisper := whisper |}.

Definition append_m (speaker text : string) : M unit :=
  modify (fun st => set_transcript (append speaker text (transcript st)) st).

(** [TranscriptManager.__init__]: no entries; the model is loaded if it
    can be. The file at the path is left as it is. *)
Definition init (w : World) : M unit :=
  loaded <- try_except (call w (WhisperLoad "small") ;; ret true)
                       (fun _ => ret false) ;;
  modify (fun st =>
    set_transcript (new (tm_file (transcript st)) loaded) st).

Definition not_installed : exn :=
  Exn RuntimeError
    "faster-whisper is not installed. Install it or provide an OpenAI key".

Definition transcribe_audio (w : World) (audio_path : string) : M string :=
  tm <- gets transcript ;;
  if negb (tm_whisper tm) then raise not_installed
  else
    t <- gets (fun st => length (trace st)) ;;
    call w (WhisperTranscribe audio_path) ;;
    ret (PyStr.strip (PyStr.join " " (map PyStr.strip (segments w t)))).

Definition summary_prompt (content : string) : string :=
  ("Transcript:" ++ PyStr.LF ++ content ++ PyStr.LF ++ PyStr.LF
   ++ "Summarise the interview transcript focusing on strengths, risks, and recommendations.")%string.

Definition summary (w : World) (llm : LLMProviderConfig) : M string :=
  tm <- gets transcript ;;
  content <- LLMClient.generate w llm
               (summary_prompt (PyStr.join PyStr.LF (tm_entries tm))) 400 ;;
  ret (PyStr.strip content).

End Transcript.

(* ===================================================================== *)
(** * audio.py *)
(* ===================================================================== *)

Module Recorder.

Definition fresh : SystemAudioRecorder :=
  {| rec_running := false; rec_stream := false; rec_thread := false |}.

Definition set_running (b : bool) (r : SystemAudioRecorder) :=
  {| rec_running := b; rec_stream := rec_stream r; rec_thread := rec_thread r |}.

Definition set_stream (b : bool) (r : SystemAudioRecorder) :=
  {| rec_running := rec_running r; rec_stream := b; rec_thread := rec_thread r |}.

Definition set_thread (b : bool) (r : SystemAudioRecorder) :=
  {| rec_running := rec_running r; rec_stream := rec_stream r; rec_thread := b |}.

Definition update (f : SystemAudioRecorder -> SystemAudioRecorder) : M unit :=
  modify (fun st => set_recorder (f (recorder st)) st).

(** [SystemAudioRecorder.__init__] *)
Definition init : M unit := update (fun _ => fresh).

Definition start (w : World) (output_path : string) (device : option string)
  : M unit :=
  call w (SoundFileOpen output_path) ;;
  update (set_running true) ;;
  call w (InputStreamOpen device) ;;
  update (set_stream true) ;;
  call w StreamStart ;;
  update (set_thread true) ;;
  act WriterStart.

(** [stop]. sounddevice's [stop()] and [close()] discard the errors of the
    audio library (their [ignore_errors] is [True] by default), and a [join]
    with a timeout returns whether or not the thread ended. *)
Definition stop (w : World) : M unit :=
  update (set_running false) ;;
  r <- gets recorder ;;
  (if rec_stream r
   then act StreamStop ;; act StreamClose ;; update (set_stream false)
   else ret tt) ;;
  t <- gets (fun st => length (trace st)) ;;
  if rec_thread r && writer_alive w t then act WriterJoin else ret tt.

End Recorder.

Module Bridge.

Definition start (w : World) (output_path : string) (device : option string)
  : M unit :=
  Recorder.start w output_path device.

Definition stop (w : World) : M unit := Recorder.stop w.

(** [ask]: [tts.speak(text)], which returns when the text has been spoken. *)
Definition ask (w : World) (text : string) : M unit :=
  call w (TtsSpeak text) ;; ret tt.

End Bridge.

(* ===================================================================== *)
(** * meet.py *)
(* ===================================================================== *)

Module Meet.

(** [MeetClient.__init__] *)
Definition init : M unit := modify (set_meet_page false).

(** [session()] up to its [yield]. *)
Definition enter (w : World) (url display_name : string) : M unit :=
  call w BrowserLaunch ;;
  modify (set_meet_page true) ;;
  call w (PageGoto url) ;;
  call w (Prejoin display_name) ;;
  ret tt.

(** The [finally] of [session()]. *)
Definition leave_context (w : World) : M unit :=
  call w ContextClose ;;
  call w BrowserClose ;;
  ret tt.

(** [async with meet.session() as page: body] *)
Definition session {A} (w : World) (url display_name : string) (body : M A)
  : M A :=
  enter w url display_name ;;
  try_finally body (leave_context w).

Definition not_started : exn := Exn RuntimeError "Meet session not started".

Definition send_chat_message (w : World) (text : string) : M unit :=
  page <- gets meet_page ;;
  if negb page then raise not_started
  else call w (ChatSend text) ;; ret tt.

Definition leave (w : World) : M unit :=
  page <- gets meet_page ;;
  if page then call w LeaveKeys ;; act (Sleep 1) else ret tt.

End Meet.

(* ===================================================================== *)
(** * controller.py *)
(* ===================================================================== *)

Module Controller.

Definition _emit_status (message : string) : M unit := log (Status message).
Definition _emit_transcript (content : string) : M unit :=
  log (TranscriptText content).
Definition _emit_summary (content : string) : M unit :=
  log (SummaryText content).

(** [stop()] *)
Definition stop : M unit := modify (set_stop_event true).

(** What the observers do in the interval that ends at the check before
    step [i]. *)
Definition observers (w : World) (i : nat) : M unit :=
  if stop_requested w i then stop else ret tt.

(** [f"(Optional follow-up) {follow}"] *)
Definition follow_up_text (w : World) (follow : pyobj) : string :=
  ("(Optional follow-up) " ++
   match follow with
   | PStr s => s
   | v => str_other w v
   end)%string.

Fixpoint follow_ups (w : World) (settings : InterviewSettings)
    (items : list pyobj) : M unit :=
  match items with
  | [] => ret tt
  | follow :: rest =>
      Transcript.append_m (interviewer_name settings) (follow_up_text w follow) ;;
      follow_ups w settings rest
  end.

Definition closing_message : string :=
  "Thank you for your time! We'll follow up shortly.".

Definition waiting_message : string := "Waiting for candidate response…".
Definition complete_message : string := "Interview complete.".

(** The body of the [for step in steps] loop, after the check. *)
Definition interview_step (w : World) (settings : InterviewSettings)
    (step : InterviewStep) : M unit :=
  let prompt := question step in
  text <- lift (Py.as_str prompt "strip") ;;
  Transcript.append_m (interviewer_name settings) text ;;
  tm <- gets transcript ;;
  _emit_transcript (PyStr.join PyStr.LF (tm_entries tm)) ;;
  Bridge.ask w text ;;
  items <- lift (Py.iter (followups step)) ;;
  follow_ups w settings items ;;
  call w (PageWait 1000) ;;
  _emit_status waiting_message ;;
  act (Sleep 20).

(** [for step in steps: if self._stop_event.is_set(): break ...], [i] the
    index of the first of [steps] in the plan. *)
Fixpoint interview_loop (w : World) (settings : InterviewSettings) (i : nat)
    (steps : list InterviewStep) : M unit :=
  match steps with
  | [] => ret tt
  | step :: rest =>
      observers w i ;;
      stopped <- gets stop_event ;;
      if stopped then ret tt
      else
        interview_step w settings step ;;
        interview_loop w settings (S i) rest
  end.

(** The block under [async with meet.session() as page]. *)
Definition in_meeting (w : World) (settings : InterviewSettings)
    (steps : list InterviewStep) : M unit :=
  _emit_status "Connected to Google Meet. Beginning interview…" ;;
  interview_loop w settings 0 steps ;;
  Meet.send_chat_message w closing_message ;;
  Meet.leave w.

(** [try: async with ...: ... finally: bridge.stop()] *)
Definition meeting (w : World) (settings : InterviewSettings)
    (steps : list InterviewStep) : M unit :=
  try_finally
    (Meet.session w (meeting_url settings) (interviewer_name settings)
       (in_meeting w settings steps))
    (Bridge.stop w).

Definition placeholder (exc : exn) : string :=
  ("[Transcription unavailable: " ++ exn_str exc ++ "]")%string.

(** [try: transcribe_audio except Exception as exc: ...], the candidate's
    entry and its notification. *)
Definition transcribing (w : World) (settings : InterviewSettings) : M unit :=
  candidate_text <-
    try_except (Transcript.transcribe_audio w (audio_output_path settings))
               (fun exc => ret (placeholder exc)) ;;
  Transcript.append_m (candidate_name settings) candidate_text ;;
  tm <- gets transcript ;;
  _emit_transcript (PyStr.join PyStr.LF (tm_entries tm)).

Definition summarizing (w : World) (settings : InterviewSettings) : M unit :=
  summary <- Transcript.summary w (llm settings) ;;
  _emit_summary summary ;;
  _emit_status complete_message.

(** Up to the plan: the document, the flow, [flow.build()]. *)
Definition preparing (w : World) (settings : InterviewSettings)
  : M (list InterviewStep) :=
  _emit_status "Parsing CV document…" ;;
  cv_text <- call w (ExtractText (cv_path settings)) ;;
  _emit_status "Generating interview flow with LLM…" ;;
  modify (set_flow (Flow.init (llm settings) cv_text
                      (interview_outline settings) (warmup_prompt settings))) ;;
  Flow.build w.

(** The ledger, the recorder, the speech engine; [bridge.start()]; the
    meeting client. *)
Definition equipping (w : World) (settings : InterviewSettings) : M unit :=
  Transcript.init w ;;
  Recorder.init ;;
  call w (TtsInit (question_voice settings)) ;;
  Bridge.start w (audio_output_path settings)
    (capture_loopback_device settings) ;;
  Meet.init.

Definition _async_run (w : World) (settings : InterviewSettings) : M unit :=
  steps <- preparing w settings ;;
  equipping w settings ;;
  meeting w settings steps ;;
  transcribing w settings ;;
  summarizing w settings.

Definition already_running : exn := Exn RuntimeError "Interview already running".

(** [start()], up to the start of the worker thread. *)
Definition start (settings : InterviewSettings) : M unit :=
  alive <- gets worker_alive ;;
  if alive then raise already_running
  else
    modify (set_stop_event false) ;;
    modify (set_worker_alive true).

(** [_run], the worker thread: it ends when [_async_run] returns or
    raises. *)
Definition _run (w : World) (settings : InterviewSettings) : M unit :=
  fun st =>
    let '(r, st') := _async_run w settings st in
    (r, set_worker_alive false st').

(** [start()] and the work of the thread it starts. *)
Definition session (w : World) (settings : InterviewSettings) : M unit :=
  start settings ;; _run w settings.

(** How the worker ends, as the program shows it: [_async_run] returns,
    its last act the status [complete_message], or it raises. *)
Inductive Ending : Type :=
| Completed
| Failed (e : exn).

Definition ending (r : Res unit) : Ending :=
  match r with
  | Ok _ => Completed
  | Raise e => Failed e
  end.

(** The last status message of a trace. *)
Fixpoint final_status (tr : list Event) : option string :=
  match tr with
  | [] => None
  | e :: rest =>
      match final_status rest with
      | Some m => Some m
      | None => match e with Status m => Some m | _ => None end
      end
  end.





(** Whether a trace shows an attempt to reach the meeting. *)
Definition connects (e : Event) : bool :=
  match e with
  | Called BrowserLaunch | Called (PageGoto _) | Called (Prejoin _) => true
  | _ => false
  end.

(** Whether a trace shows a transcription request. *)
Definition transcribes (e : Event) : bool :=
  match e with
  | Called (WhisperTranscribe _) => true
  | _ => false
  end.


End Controller.

(* ===================================================================== *)
(** * Fixtures: a quiet world, a configuration, a start state *)
(* ===================================================================== *)

Module Fixture.

Definition config : LLMProviderConfig :=
  {| provider := "OpenAI"; model := "gpt-4o-mini";
     api_key := Some "sk-test"; extra := [] |}.

Definition settings : InterviewSettings :=
  {| meeting_url := "https://meet.google.com/abc-defg-hij";
     candidate_name := "Ada";
     interviewer_name := "AI Interviewer";
     cv_path := "ada.txt";
     llm := config;
     transcript_path := "artifacts/transcripts/ada.txt";
     audio_output_path := "artifacts/audio/ada.wav";
     video_output_path := "artifacts/video/ada.webm";
     question_voice := "en-US-Wavenet-D";
     capture_loopback_device := None;
     virtual_microphone_device := None;
     interview_outline := None;
     warmup_prompt := None |}.

(** The same settings with an empty credential. *)
Definition without_key (s : InterviewSettings) : InterviewSettings :=
  {| meeting_url := meeting_url s;
     candidate_name := candidate_name s;
     interviewer_name := interviewer_name s;
     cv_path := cv_path s;
     llm := {| provider := provider (llm s); model := model (llm s);
               api_key := Some ""; extra := extra (llm s) |};
     transcript_path := transcript_path s;
     audio_output_path := audio_output_path s;
     video_output_path := video_output_path s;
     question_voice := question_voice s;
     capture_loopback_device := capture_loopback_device s;
     virtual_microphone_device := virtual_microphone_device s;
     interview_outline := interview_outline s;
     warmup_prompt := warmup_prompt s |}.

(** A plan of two steps as a provider may return it. *)
Definition plan_text : string :=
  Json.dq "[{'title': 'Welcome', 'question': 'How are you?', 'followups': []}, {'title': 'Work', 'question': ' Tell me about your last project. ', 'followups': ['Which part was yours?']}]".

Definition plan : list InterviewStep :=
  [ {| title := PStr "Welcome"; question := PStr "How are you?";
       followups := PList [] |};
    {| title := PStr "Work";
       question := PStr " Tell me about your last project. ";
       followups := PList [PStr "Which part was yours?"] |} ].

(** The provider answers a plan request (1024 tokens) with [text] and a
    summary request with a fixed summary. *)
Definition answers (text : string) (t : nat) (c : Call) : string :=
  match c with
  | Generate _ _ _ _ 1024 => text
  | Generate _ _ _ _ _ => " A promising candidate. "
  | ExtractText _ => "Ada Lovelace, analyst."
  | _ => ""
  end.

(** Nothing raises, nobody calls [stop()]. *)
Definition quiet (text : string) : World :=
  {| json_loads := Json.loads;
     str_other := fun _ => "";
     fault := fun _ _ => None;
     reply := answers text;
     segments := fun _ => [" I am fine. "; "Thanks."];
     writer_alive := fun _ => true;
     stop_requested := fun _ => false |}.

Definition with_fault (f : nat -> Call -> option exn) (w : World) : World :=
  {| json_loads := json_loads w; str_other := str_other w; fault := f;
     reply := reply w; segments := segments w;
     writer_alive := writer_alive w; stop_requested := stop_requested w |}.

Definition with_stop (s : nat -> bool) (w : World) : World :=
  {| json_loads := json_loads w; str_other := str_other w;
     fault := fault w; reply := reply w; segments := segments w;
     writer_alive := writer_alive w; stop_requested := s |}.

(** A response that wraps [text] in a fenced code block, with the language
    tag [tag] after the opening fence (none if [tag] is empty). *)
Definition fenced (tag text : string) : string :=
  ("```" ++ tag ++ PyStr.LF ++ text ++ PyStr.LF ++ "```")%string.

Definition idle : State :=
  {| trace := []; stop_event := false; worker_alive := false;
     flow := Flow.init config "" None None;
     transcript := Transcript.new None false;
     recorder := Recorder.fresh;
     meet_page := false |}.

(** A state in which an earlier plan of one step was built and consumed. *)
Definition midway : State :=
  set_flow
    (Flow.advance
       (Flow.with_steps
          [{| title := PStr "Old"; question := PStr "Old question";
              followups := PList [] |}]
          (flow idle)))
    idle.

End Fixture.

(* ===================================================================== *)
(** * More of the program: settings.py, cv_parser.py, the writer thread of
      audio.py, the form of app/main.py *)
(* ===================================================================== *)

Module Text.

(** The first character of [s], if any, is not white space. *)
Definition head_ok (s : string) : bool :=
  match s with
  | EmptyString => true
  | String c _ => negb (PyStr.is_space c)
  end.

(** The last character of [s], if any, is not white space. *)
Fixpoint last_ok (s : string) : bool :=
  match s with
  | EmptyString => true
  | String c EmptyString => negb (PyStr.is_space c)
  | String _ r => last_ok r
  end.

(** The line boundaries of [str.splitlines] among the code points below
    256: LF, VT, FF, CR, FS, GS, RS and NEL. *)
Definition is_linebreak (c : ascii) : bool :=
  let n := nat_of_ascii c in
  ((10 <=? n) && (n <=? 13)) || ((28 <=? n) && (n <=? 30)) || (n =? 133).

(** [s.splitlines()]: [cur] is the current line, reversed. A CR followed by
    LF is one boundary; a last line without boundary is given if it is not
    empty. *)
Fixpoint splitlines_go (cur : string) (s : string) : list string :=
  match s with
  | EmptyString => if PyStr.is_empty cur then [] else [PyStr.rev cur]
  | String c r =>
      if is_linebreak c then
        PyStr.rev cur ::
        (if nat_of_ascii c =? 13 then
           match r with
           | String d r' =>
               if nat_of_ascii d =? 10 then splitlines_go EmptyString r'
               else splitlines_go EmptyString r
           | EmptyString => splitlines_go EmptyString r
           end
         else splitlines_go EmptyString r)
      else splitlines_go (String c cur) r
  end.

Definition splitlines (s : string) : list string :=
  splitlines_go EmptyString s.

End Text.

(** settings.py, [LLMProviderConfig.as_dict]. A [Dict[str, str]] is kept as
    its items in insertion order. *)
Module Settings.

(** [d[k] = v]: the value is replaced where the key is, or the item added at
    the end. *)
Fixpoint dict_set (k v : string) (d : list (string * string))
  : list (string * string) :=
  match d with
  | [] => [(k, v)]
  | (k', v') :: rest =>
      if String.eqb k' k then (k', v) :: rest
      else (k', v') :: dict_set k v rest
  end.

(** [d.get(k)] *)
Fixpoint dict_get (k : string) (d : list (string * string)) : option string :=
  match d with
  | [] => None
  | (k', v) :: rest => if String.eqb k' k then Some v else dict_get k rest
  end.

(** [d.update(other)] *)
Definition update (d other : list (string * string)) : list (string * string) :=
  fold_left (fun acc kv => dict_set (fst kv) (snd kv) acc) other d.

Definition as_dict (c : LLMProviderConfig) : list (string * string) :=
  let data := [("provider", provider c); ("model", model c)] in
  let data :=
    match api_key c with
    | Some k => if PyStr.truthy k then dict_set "api_key" k data else data
    | None => data
    end in
  update data (extra c).

(** The value [other] gives a key: that of its last item with the key. *)
Fixpoint last_value (k : string) (other : list (string * string))
  : option string :=
  match other with
  | [] => None
  | (k', v) :: rest =>
      match last_value k rest with
      | Some v' => Some v'
      | None => if String.eqb k' k then Some v else None
      end
  end.

End Settings.

(** cv_parser.py. What the libraries read from the file is given: the text
    of each page of a PDF ([None] where a page has none), the text of each
    paragraph of a Word document, the text of a plain file. *)
Module CvParser.

Record Source : Type := {
  pdf_pages : list (option string);     (* page.extract_text() of each page *)
  docx_paragraphs : list string;        (* para.text of each paragraph *)
  file_text : string                    (* path.read_text(...) *)
}.

Definition _read_pdf (src : Source) : list string :=
  map (fun page =>
         PyStr.strip (match page with
                      | Some t => if PyStr.truthy t then t else EmptyString
                      | None => EmptyString
                      end))
      (pdf_pages src).

Definition _read_docx (src : Source) : list string :=
  map PyStr.strip (filter PyStr.truthy (docx_paragraphs src)).

Definition _read_text (src : Source) : list string :=
  Text.splitlines (file_text src).

(** [extract_text], from [path.suffix] and what the file holds. *)
Definition extract_text (suffix : string) (src : Source) : string :=
  let suffix := PyStr.lower suffix in
  let lines :=
    if String.eqb suffix ".pdf" then _read_pdf src
    else if String.eqb suffix ".doc" || String.eqb suffix ".docx"
    then _read_docx src
    else _read_text src in
  let content := PyStr.join PyStr.LF (filter PyStr.truthy lines) in
  PyStr.strip content.

End CvParser.

(** audio.py, the producer and the consumer of the recorder's queue:
    [_callback], which the audio library calls with each block of frames,
    and [_writer_loop], the body of the writer thread. The two run at the
    same time; a schedule lists who moves when. *)
Module Writer.

Definition frame : Type := string.

(** Where the writer thread is: in its first loop, in its second, or past
    [close()]. *)
Inductive Pc : Type := Looping | Draining | Closed.

Record t : Type := {
  queue : list frame;        (* _queue, oldest first *)
  written : list frame;      (* what _writer.write was given, in order *)
  running : bool;            (* _running.is_set() *)
  pc : Pc
}.

Inductive Action : Type :=
| Put (f : frame)            (* _callback: _queue.put(indata.copy()) *)
| Clear                      (* stop(): _running.clear() *)
| Move.                      (* the writer thread goes once round its loop *)

(** The state when the thread starts: what the callbacks have put so far,
    nothing written. *)
Definition started (q : list frame) : t :=
  {| queue := q; written := []; running := true; pc := Looping |}.

(** One turn of the writer thread. In the first loop, with the flag set, it
    takes the oldest frame and writes it, or finds the queue empty for the
    whole timeout and goes round; with the flag cleared it passes to the
    second loop. There it writes the oldest frame, or, the queue empty,
    flushes and closes. *)
Definition move (s : t) : t :=
  match pc s with
  | Looping =>
      if running s then
        match queue s with
        | f :: q =>
            {| queue := q; written := written s ++ [f];
               running := running s; pc := Looping |}
        | [] => s
        end
      else
        {| queue := queue s; written := written s;
           running := running s; pc := Draining |}
  | Draining =>
      match queue s with
      | f :: q =>
          {| queue := q; written := written s ++ [f];
             running := running s; pc := Draining |}
      | [] =>
          {| queue := []; written := written s;
             running := running s; pc := Closed |}
      end
  | Closed => s
  end.

Definition act (s : t) (a : Action) : t :=
  match a with
  | Put f =>
      {| queue := queue s ++ [f]; written := written s;
         running := running s; pc := pc s |}
  | Clear =>
      {| queue := queue s; written := written s;
         running := false; pc := pc s |}
  | Move => move s
  end.

Definition run (schedule : list Action) (s : t) : t :=
  fold_left act schedule s.

(** The frames a schedule puts, in order. *)
Fixpoint puts (schedule : list Action) : list frame :=
  match schedule with
  | [] => []
  | Put f :: rest => f :: puts rest
  | _ :: rest => puts rest
  end.

End Writer.

(** app/main.py, [InterviewWindow._build_settings]. The form gives the text
    of each field; the file system tells whether the CV exists; [Path.stem]
    and [Path.home()] are given. A [ValueError] is kept as its message. *)
Module App.

Record Form : Type := {
  form_meeting_url : string;
  form_candidate_name : string;
  form_interviewer_name : string;
  form_cv_path : string;
  form_provider : string;               (* provider_combo.currentText() *)
  form_model_name : string;
  form_api_key : string;
  form_outline : string                 (* outline.toPlainText() *)
}.

Record Files : Type := {
  cv_exists : bool;                     (* cv_path.exists() *)
  cv_stem : string;                     (* cv_path.stem *)
  home : string                         (* Path.home() *)
}.

(** [text or None] *)
Definition or_none (s : string) : option string :=
  if PyStr.truthy s then Some s else None.

(** [text or default] *)
Definition or_else (s default : string) : string :=
  if PyStr.truthy s then s else default.

Definition _build_settings (form : Form) (fs : Files)
  : string + InterviewSettings :=
  let meeting := PyStr.strip (form_meeting_url form) in
  if negb (PyStr.truthy meeting) then inl "Provide a Google Meet URL"
  else
    let cv_file := PyStr.strip (form_cv_path form) in
    if negb (PyStr.truthy cv_file) then inl "Select a CV document"
    else if negb (cv_exists fs) then inl "CV path does not exist"
    else
      let artifacts_dir := (home fs ++ "/AI-Interviewer/artifacts")%string in
      inr {| meeting_url := meeting;
             candidate_name :=
               or_else (PyStr.strip (form_candidate_name form)) (cv_stem fs);
             interviewer_name :=
               or_else (PyStr.strip (form_interviewer_name form)) "AI Interviewer";
             cv_path := cv_file;
             llm := {| provider := form_provider form;
                       model := or_else (PyStr.strip (form_model_name form))
                                        "gpt-4o-mini";
                       api_key := or_none (PyStr.strip (form_api_key form));
                       extra := [] |};
             transcript_path :=
               (artifacts_dir ++ "/transcripts/" ++ cv_stem fs ++ ".txt")%string;
             audio_output_path :=
               (artifacts_dir ++ "/audio/" ++ cv_stem fs ++ ".wav")%string;
             video_output_path :=
               (artifacts_dir ++ "/video/" ++ cv_stem fs ++ ".webm")%string;
             question_voice := "en-US-Wavenet-D";
             capture_loopback_device := None;
             virtual_microphone_device := None;
             interview_outline := or_none (PyStr.strip (form_outline form));
             warmup_prompt := None |}.

End App.

(* ===================================================================== *)
(** * Observations of a run *)
(* ===================================================================== *)

Module Observe.

(** Every event [m] adds to the trace satisfies [P]. *)
Definition emits {A} (P : Event -> bool) (m : M A) : Prop :=
  forall st, exists evs,
    trace (snd (m st)) = trace st ++ evs /\ forallb P evs = true.

(** [a] is a value [m] can return. *)
Definition returns {A} (m : M A) (a : A) : Prop :=
  exists st st', m st = (Ok a, st').

(** The texts given to the speech engine, in order. *)
Fixpoint spoken (tr : list Event) : list string :=
  match tr with
  | [] => []
  | Called (TtsSpeak text) :: rest => text :: spoken rest
  | _ :: rest => spoken rest
  end.

(** The content of the last transcript notification. *)
Fixpoint final_transcript (tr : list Event) : option string :=
  match tr with
  | [] => None
  | e :: rest =>
      match final_transcript rest with
      | Some c => Some c
      | None => match e with TranscriptText c => Some c | _ => None end
      end
  end.

(** An event that is not a provider request with an empty key. *)
Definition keyed (e : Event) : bool :=
  match e with
  | Called (Generate _ _ key _ _) => PyStr.truthy key
  | _ => true
  end.

(** An event that is not a transcript notification. *)
Definition not_transcript (e : Event) : bool :=
  match e with
  | TranscriptText _ => false
  | _ => true
  end.

(** An event that is not a transcription request. *)
Definition not_transcribe (e : Event) : bool :=
  negb (Controller.transcribes e).

(** An event that is not a text given to the speech engine. *)
Definition silent (e : Event) : bool :=
  match e with
  | Called (TtsSpeak _) => false
  | _ => true
  end.

(** An event that does not belong to the time in the meeting: not a text
    given to the speech engine, a notification of the transcript, a chat
    message, the keys that leave the call, nor the closing of the browser
    or of its context. *)
Definition before_meeting (e : Event) : bool :=
  match e with
  | Called (TtsSpeak _) | Called (ChatSend _) | Called LeaveKeys
  | Called ContextClose | Called BrowserClose
  | TranscriptText _ => false
  | _ => true
  end.

(** Whether the transcription model is loaded. *)
Definition whisper_loaded (st : State) : bool := tm_whisper (transcript st).

(** The provider names [generate] knows, whatever the case of the letters. *)
Definition supported (provider : string) : bool :=
  let p := PyStr.lower provider in
  String.eqb p "openai" || String.eqb p "anthropic" || String.eqb p "google"
  || String.eqb p "gemini" || String.eqb p "google-genai".

(** The provider a name stands for, whatever the case of its letters. *)
Definition provider_of (name : string) : option Provider :=
  let p := PyStr.lower name in
  if String.eqb p "openai" then Some OpenAI
  else if String.eqb p "anthropic" then Some Anthropic
  else if String.eqb p "google" || String.eqb p "gemini"
          || String.eqb p "google-genai" then Some Google
  else None.

(** The text of a step's question, when it is a [str]. *)
Definition question_text (step : InterviewStep) : string :=
  match question step with
  | PStr q => q
  | _ => EmptyString
  end.

(** The value of [key] in a decoded object, or [default]. *)
Definition field (pairs : list (string * pyobj)) (key : string)
    (default : pyobj) : pyobj :=
  match Py.dict_get pairs key with
  | Some v => v
  | None => default
  end.

(** The step [build] makes of the object at index [i] of the array. *)
Definition normalized (i : nat) (pairs : list (string * pyobj))
  : InterviewStep :=
  {| title := field pairs "title" (PStr ("Step " ++ PyStr.of_nat (i + 1)));
     question := field pairs "question" (PStr "");
     followups := Py.or_ (field pairs "followups" (PList [])) (PList []) |}.

End Observe.

(** Inputs for the concrete runs of the later sections. *)
Module Sample.

Definition form : App.Form :=
  {| App.form_meeting_url := " https://meet.google.com/abc-defg-hij ";
     App.form_candidate_name := "";
     App.form_interviewer_name := "";
     App.form_cv_path := "/home/ada/ada.pdf";
     App.form_provider := "openai";
     App.form_model_name := "";
     App.form_api_key := "   ";
     App.form_outline := "" |}.

Definition files : App.Files :=
  {| App.cv_exists := true; App.cv_stem := "ada"; App.home := "/home/ada" |}.

(** The settings the form above gives. *)
Definition settings : InterviewSettings :=
  {| meeting_url := "https://meet.google.com/abc-defg-hij";
     candidate_name := "ada";
     interviewer_name := "AI Interviewer";
     cv_path := "/home/ada/ada.pdf";
     llm := {| provider := "openai"; model := "gpt-4o-mini";
               api_key := None; extra := [] |};
     transcript_path := "/home/ada/AI-Interviewer/artifacts/transcripts/ada.txt";
     audio_output_path := "/home/ada/AI-Interviewer/artifacts/audio/ada.wav";
     video_output_path := "/home/ada/AI-Interviewer/artifacts/video/ada.webm";
     question_voice := "en-US-Wavenet-D";
     capture_loopback_device := None;
     virtual_microphone_device := None;
     interview_outline := None;
     warmup_prompt := None |}.

(** A world in which the call [c] raises [e] and nothing else does. *)
Definition failing (c : Call -> bool) (e : exn) : World :=
  Fixture.with_fault (fun _ call => if c call then Some e else None)
    (Fixture.quiet Fixture.plan_text).

Definition timeout : exn := Exn ExternalError "Timeout 30000ms exceeded.".

Definition missing_module : exn :=
  Exn ExternalError "No module named 'faster_whisper'".

Definition no_device : exn :=
  Exn ExternalError "Error querying device -1".

Definition unreadable : exn :=
  Exn ExternalError "Invalid data found when processing input".


(** A world in which the recording cannot be transcribed. *)
Definition garbled : World :=
  failing (fun c => match c with WhisperTranscribe _ => true | _ => false end)
    unreadable.

(** A world in which the input stream cannot be opened. *)
Definition deaf : World :=
  failing (fun c => match c with InputStreamOpen _ => true | _ => false end)
    no_device.

(** A world in which the transcription model cannot be loaded. *)
Definition unloaded : World :=
  failing (fun c => match c with WhisperLoad _ => true | _ => false end)
    missing_module.

End Sample.

(* ===================================================================== *)
(** * Facts about the string primitives *)
(* ===================================================================== *)

Section StringFacts.

Lemma append_nil_r (s : string) : (s ++ "")%string = s.
Proof. induction s as [|c s IH]; simpl; [reflexivity | now rewrite IH]. Qed.

Lemma append_assoc (a b c : string) :
  ((a ++ b) ++ c)%string = (a ++ (b ++ c))%string.
Proof. induction a as [|x a IH]; simpl; [reflexivity | now rewrite IH]. Qed.

Lemma rstrip_keeps_last (s : string) (c : ascii) :
  PyStr.is_space c = false ->
  PyStr.rstrip (s ++ String c "") = (s ++ String c "")%string.
Proof.
  intros Hc. induction s as [|x s IH]; simpl.
  - now rewrite Hc.
  - rewrite IH. destruct s; simpl; now rewrite andb_false_r.
Qed.

(** A text that begins and ends with a character that is not white space
    is its own [strip()]. *)
Lemma strip_delimited (a b : ascii) (s : string) :
  PyStr.is_space a = false -> PyStr.is_space b = false ->
  PyStr.strip (String a (s ++ String b "")) = String a (s ++ String b "").
Proof.
  intros Ha Hb. unfold PyStr.strip.
  change (String a (s ++ String b ""))
    with ((String a s) ++ String b "")%string.
  rewrite rstrip_keeps_last by assumption.
  simpl. now rewrite Ha.
Qed.

Lemma rev_acc_rev_acc (a : string) : forall cur acc,
  PyStr.rev_acc (PyStr.rev_acc a cur) acc
  = PyStr.rev_acc cur (a ++ acc)%string.
Proof.
  induction a as [|c a IH]; intros cur acc; simpl; [reflexivity|].
  now rewrite IH.
Qed.

Lemma rev_pushed (a : string) : PyStr.rev (PyStr.rev_acc a "") = a.
Proof. unfold PyStr.rev. rewrite rev_acc_rev_acc. simpl. apply append_nil_r. Qed.

Lemma rev_acc_app (s t : string) : forall acc,
  PyStr.rev_acc (s ++ t) acc = PyStr.rev_acc t (PyStr.rev_acc s acc).
Proof.
  induction s as [|c s IH]; intros acc; simpl; [reflexivity | apply IH].
Qed.

Lemma endswith_last (s : string) (c : ascii) :
  PyStr.endswith (s ++ String c "") (String c "") = true.
Proof.
  unfold PyStr.endswith, PyStr.rev. rewrite rev_acc_app. simpl.
  now rewrite Ascii.eqb_refl.
Qed.

Lemma lstrip_spaces (ws s : string) :
  PyStr.all_space ws = true -> PyStr.lstrip (ws ++ s) = PyStr.lstrip s.
Proof.
  induction ws as [|c ws IH]; simpl; intros H; [reflexivity|].
  apply andb_true_iff in H. destruct H as [Hc Hws]. rewrite Hc. now apply IH.
Qed.

Lemma rstrip_all_space (ws : string) :
  PyStr.all_space ws = true -> PyStr.rstrip ws = "".
Proof.
  induction ws as [|c ws IH]; simpl; intros H; [reflexivity|].
  apply andb_true_iff in H. destruct H as [Hc Hws].
  rewrite (IH Hws), Hc. reflexivity.
Qed.

Lemma rstrip_spaces (s ws : string) (c : ascii) :
  PyStr.is_space c = false -> PyStr.all_space ws = true ->
  PyStr.rstrip (s ++ String c ws) = (s ++ String c "")%string.
Proof.
  intros Hc Hws. induction s as [|x s IH]; simpl.
  - rewrite (rstrip_all_space _ Hws), Hc. reflexivity.
  - rewrite IH. destruct s; simpl; now rewrite andb_false_r.
Qed.

(** White space around a text that begins and ends with characters that
    are not white space is what [strip()] removes. *)
Lemma strip_padded (ws1 ws2 s : string) (a b : ascii) :
  PyStr.is_space a = false -> PyStr.is_space b = false ->
  PyStr.all_space ws1 = true -> PyStr.all_space ws2 = true ->
  PyStr.strip (ws1 ++ String a (s ++ String b ws2))
  = String a (s ++ String b "").
Proof.
  intros Ha Hb H1 H2. unfold PyStr.strip.
  change (ws1 ++ String a (s ++ String b ws2))%string
    with (ws1 ++ (String a s ++ String b ws2))%string.
  rewrite <- append_assoc, rstrip_spaces by assumption.
  rewrite append_assoc, lstrip_spaces by assumption.
  simpl. now rewrite Ha.
Qed.

(** The text a [strip()] leaves begins with the first character of the
    text when that is not white space. *)
Lemma strip_keeps_first (c : ascii) (s : string) :
  PyStr.is_space c = false ->
  exists r, PyStr.strip (String c s) = String c r.
Proof.
  intros Hc. unfold PyStr.strip. simpl. rewrite Hc. simpl. rewrite Hc. eauto.
Qed.

Lemma contains_after (p pre rest : string) :
  PyStr.contains p (pre ++ p ++ rest) = true.
Proof.
  assert (P : forall q s, PyStr.startswith (q ++ s) q = true).
  { induction q as [|c q IH]; intros s; simpl; [reflexivity|].
    now rewrite Ascii.eqb_refl, IH. }
  assert (U : forall s, PyStr.startswith s p = true -> PyStr.contains p s = true).
  { intros s H. destruct s; simpl; now rewrite H. }
  induction pre as [|c pre IH]; simpl.
  - apply U, P.
  - rewrite IH. apply orb_true_r.
Qed.

(** Splitting at the fence: a piece without a back quote ends at the next
    fence, or at the end of the text. *)
Lemma split_go_piece (a : string) : forall cur b,
  PyStr.free_of PyStr.tick a = true ->
  PyStr.split_go "```" 0 cur (a ++ "```" ++ b)
  = PyStr.rev (PyStr.rev_acc a cur) :: PyStr.split_go "```" 0 "" b.
Proof.
  induction a as [|c a IH]; intros cur b H.
  - reflexivity.
  - simpl in H. apply andb_true_iff in H. destruct H as [Hc Ha].
    cbn [append PyStr.split_go PyStr.startswith].
    unfold PyStr.tick in Hc. rewrite Ascii.eqb_sym in Hc.
    apply negb_true_iff in Hc. rewrite Hc. simpl andb. cbv iota.
    exact (IH (String c cur) b Ha).
Qed.

Lemma split_go_last (a : string) : forall cur,
  PyStr.free_of PyStr.tick a = true ->
  PyStr.split_go "```" 0 cur a = [PyStr.rev (PyStr.rev_acc a cur)].
Proof.
  induction a as [|c a IH]; intros cur H.
  - reflexivity.
  - simpl in H. apply andb_true_iff in H. destruct H as [Hc Ha].
    cbn [PyStr.split_go PyStr.startswith].
    unfold PyStr.tick in Hc. rewrite Ascii.eqb_sym in Hc.
    apply negb_true_iff in Hc. rewrite Hc. simpl andb. cbv iota.
    exact (IH (String c cur) Ha).
Qed.

(** A response with one fenced block: the text before it, the text in it,
    the text after it. *)
Lemma split_one_block (pre mid post : string) :
  PyStr.free_of PyStr.tick pre = true ->
  PyStr.free_of PyStr.tick mid = true ->
  PyStr.free_of PyStr.tick post = true ->
  PyStr.split (pre ++ "```" ++ mid ++ "```" ++ post) "```" = [pre; mid; post].
Proof.
  intros H1 H2 H3. unfold PyStr.split.
  rewrite split_go_piece by assumption.
  rewrite split_go_piece by assumption.
  rewrite split_go_last by assumption.
  now rewrite !rev_pushed.
Qed.

End StringFacts.

(* ===================================================================== *)
(** * The transcript ledger *)
(* ===================================================================== *)

Section LedgerFacts.

Lemma append_entries speaker text tm :
  tm_entries (Transcript.append speaker text tm)
  = tm_entries tm ++ [Transcript.line speaker text].
Proof. reflexivity. Qed.

(** Every append writes the whole list. *)
Lemma append_rewrites_file speaker text tm :
  tm_file (Transcript.append speaker text tm)
  = Some (PyStr.join PyStr.LF (tm_entries (Transcript.append speaker text tm))).
Proof. reflexivity. Qed.

Lemma appends_snoc calls c tm :
  Transcript.appends (calls ++ [c]) tm
  = Transcript.append (fst c) (snd c) (Transcript.appends calls tm).
Proof. unfold Transcript.appends. now rewrite fold_left_app. Qed.

Lemma appends_entries calls tm :
  tm_entries (Transcript.appends calls tm) = tm_entries tm ++ map Transcript.render calls.
Proof.
  induction calls as [|c calls IH] using rev_ind.
  - simpl. now rewrite app_nil_r.
  - rewrite appends_snoc, append_entries, IH, map_app, <- app_assoc.
    reflexivity.
Qed.

(** C5. After the appends of any list of calls to a new ledger, the
    entries are the calls rendered as [speaker: trimmed text], in order;
    after each append (the last of [calls ++ [c]]) the file holds exactly
    the newline join of all the entries so far, whatever it held before:
    the whole file is rewritten each time. *)
Theorem ledger_file_is_join_of_entries
    (file : option string) (whisper : bool)
    (calls : list (string * string)) (c : string * string) :
  let tm := Transcript.appends (calls ++ [c]) (Transcript.new file whisper) in
  tm_entries tm = map Transcript.render (calls ++ [c])
  /\ tm_file tm = Some (PyStr.join PyStr.LF (map Transcript.render (calls ++ [c])))
  /\ tm_file tm
     = Some (PyStr.join PyStr.LF
               (map (fun sc => (fst sc ++ ": " ++ PyStr.strip (snd sc))%string)
                    (calls ++ [c]))).
Proof.
  cbv zeta.
  assert (E : tm_entries (Transcript.appends (calls ++ [c])
                            (Transcript.new file whisper))
              = map Transcript.render (calls ++ [c])).
  { now rewrite appends_entries. }
  split; [exact E|].
  assert (F : tm_file (Transcript.appends (calls ++ [c])
                         (Transcript.new file whisper))
              = Some (PyStr.join PyStr.LF (map Transcript.render (calls ++ [c])))).
  { rewrite <- E. rewrite appends_snoc. apply append_rewrites_file. }
  split; [exact F|]. exact F.
Qed.

End LedgerFacts.

(* ===================================================================== *)
(** * Reasoning in the monad *)
(* ===================================================================== *)

Section MonadFacts.

Lemma bind_ok {A B} (m : M A) (f : A -> M B) st b st' :
  bind m f st = (Ok b, st') ->
  exists a st1, m st = (Ok a, st1) /\ f a st1 = (Ok b, st').
Proof.
  unfold bind. destruct (m st) as [[a|e] st1]; intros H.
  - eauto.
  - discriminate.
Qed.

Lemma bind_of_ok {A B} (m : M A) (f : A -> M B) st a st1 :
  m st = (Ok a, st1) -> bind m f st = f a st1.
Proof. unfold bind. now intros ->. Qed.

Lemma bind_assoc {A B C} (m : M A) (f : A -> M B) (g : B -> M C) st :
  bind (bind m f) g st = bind m (fun a => bind (f a) g) st.
Proof. unfold bind. now destruct (m st) as [[a|e] st1]. Qed.

Lemma bind_ext {A B} (m : M A) (f g : A -> M B) st :
  (forall a st1, f a st1 = g a st1) -> bind m f st = bind m g st.
Proof.
  intros H. unfold bind. destruct (m st) as [[a|e] st1]; [apply H|reflexivity].
Qed.

Lemma bind_gets {A B} (f : State -> A) (k : A -> M B) st :
  bind (gets f) k st = k (f st) st.
Proof. reflexivity. Qed.

Lemma bind_ret {A B} (a : A) (k : A -> M B) st :
  bind (ret a) k st = k a st.
Proof. reflexivity. Qed.


Lemma keeps_ret {A X} (f : State -> X) (a : A) : keeps f (ret a).
Proof. intros st. reflexivity. Qed.

Lemma keeps_raise {A X} (f : State -> X) e : keeps f (@raise A e).
Proof. intros st. reflexivity. Qed.

Lemma keeps_lift {A X} (f : State -> X) (r : Res A) : keeps f (lift r).
Proof. intros st. reflexivity. Qed.

Lemma keeps_gets {A X} (f : State -> X) (g : State -> A) : keeps f (gets g).
Proof. intros st. reflexivity. Qed.

Lemma keeps_bind {A B X} (f : State -> X) (m : M A) (k : A -> M B) :
  keeps f m -> (forall a, keeps f (k a)) -> keeps f (bind m k).
Proof.
  intros Hm Hk st. unfold bind. specialize (Hm st).
  destruct (m st) as [[a|e] st1]; simpl in *.
  - now rewrite Hk.
  - assumption.
Qed.

Lemma keeps_try_finally {A X} (f : State -> X) (body : M A) (fin : M unit) :
  keeps f body -> keeps f fin -> keeps f (try_finally body fin).
Proof.
  intros Hb Hf st. unfold try_finally. specialize (Hb st).
  destruct (body st) as [r st1]. specialize (Hf st1).
  destruct (fin st1) as [[u|e] st2]; simpl in *; congruence.
Qed.

Lemma keeps_try_except {A X} (f : State -> X) (body : M A) (h : exn -> M A) :
  keeps f body -> (forall e, keeps f (h e)) -> keeps f (try_except body h).
Proof.
  intros Hb Hh st. unfold try_except. specialize (Hb st).
  destruct (body st) as [[a|e] st1]; simpl in *.
  - assumption.
  - now rewrite Hh.
Qed.

Lemma keeps_log {X} (f : State -> X) e : trace_blind f -> keeps f (log e).
Proof. intros Hf st. apply Hf. Qed.

Lemma keeps_act {X} (f : State -> X) c : trace_blind f -> keeps f (act c).
Proof. intros Hf. now apply keeps_log. Qed.

Lemma keeps_call {X} (f : State -> X) w c : trace_blind f -> keeps f (call w c).
Proof.
  intros Hf st. unfold call.
  destruct (fault w (length (trace st)) c); apply Hf.
Qed.

Lemma keeps_if {A X} (f : State -> X) (b : bool) (m1 m2 : M A) :
  keeps f m1 -> keeps f m2 -> keeps f (if b then m1 else m2).
Proof. now destruct b. Qed.

Lemma blind_stop_event : trace_blind stop_event.
Proof. intros t st. reflexivity. Qed.

Lemma blind_transcript : trace_blind transcript.
Proof. intros t st. reflexivity. Qed.

Lemma blind_recorder : trace_blind recorder.
Proof. intros t st. reflexivity. Qed.

Lemma blind_flow : trace_blind flow.
Proof. intros t st. reflexivity. Qed.

End MonadFacts.

Create HintDb keeps.

#[local] Hint Resolve keeps_ret keeps_raise keeps_lift keeps_gets keeps_log
  keeps_act keeps_call blind_stop_event blind_transcript blind_recorder
  blind_flow : keeps.

Ltac keeps_step :=
  first
    [ apply keeps_bind; [|intros ?]
    | apply keeps_try_finally
    | apply keeps_try_except; [|intros ?]
    | apply keeps_if
    | solve [auto with keeps]
    | match goal with
      | |- keeps _ (match ?x with _ => _ end) => destruct x
      end ].

Ltac keeps_auto := repeat keeps_step.

(* ===================================================================== *)
(** * The flow planner *)
(* ===================================================================== *)

Section FlowFacts.

Lemma res_bind_ok {A B} (r : Res A) (f : A -> Res B) (b : B) :
  res_bind r f = Ok b -> exists a, r = Ok a /\ f a = Ok b.
Proof. destruct r as [a|e]; simpl; [eauto | discriminate]. Qed.

Lemma step_of_item_ok idx item step :
  Flow.step_of_item idx item = Ok step ->
  exists pairs, item = PDict pairs.
Proof.
  unfold Flow.step_of_item. destruct item; simpl; try discriminate. eauto.
Qed.

(** One step for each item, in order. *)
Lemma steps_from_length items : forall idx steps,
  Flow.steps_from idx items = Ok steps -> length steps = length items.
Proof.
  induction items as [|item items IH]; intros idx steps H; simpl in H.
  - now inversion H.
  - apply res_bind_ok in H. destruct H as (st & _ & H).
    apply res_bind_ok in H. destruct H as (sts & Hs & H).
    inversion H; subst. simpl. f_equal. eapply IH; eauto.
Qed.

Lemma parse_steps_ok w raw steps :
  Flow.parse_steps w raw = Ok steps ->
  exists data items,
    Flow.decode_response w raw = Ok data /\ Py.iter data = Ok items
    /\ Flow.steps_from 0 items = Ok steps.
Proof.
  unfold Flow.parse_steps. intros H.
  apply res_bind_ok in H. destruct H as (data & Hd & H).
  apply res_bind_ok in H. destruct H as (items & Hi & H).
  eauto.
Qed.

Lemma next_step_in_range f step :
  nth_error (flow_steps f) (flow_current_index f) = Some step ->
  Flow.next_step f = (Some step, Flow.advance f).
Proof.
  intros H. unfold Flow.next_step.
  assert (L : flow_current_index f < length (flow_steps f)).
  { apply nth_error_Some. congruence. }
  destruct (Nat.leb_spec (length (flow_steps f)) (flow_current_index f)); [lia|].
  now rewrite H.
Qed.

Lemma next_step_exhausted f :
  length (flow_steps f) <= flow_current_index f ->
  Flow.next_step f = (None, f).
Proof.
  intros H. unfold Flow.next_step.
  destruct (Nat.leb_spec (length (flow_steps f)) (flow_current_index f)); [reflexivity|lia].
Qed.

Lemma next_steps_exhausted m : forall f,
  length (flow_steps f) <= flow_current_index f ->
  Flow.next_steps m f = (repeat None m, f).
Proof.
  induction m as [|m IH]; intros f H; simpl; [reflexivity|].
  rewrite next_step_exhausted by assumption. now rewrite IH.
Qed.

(** From a cursor at [length done], the next calls return the steps not yet
    returned, then [None]; the stored steps stay what they were. *)
Lemma next_steps_from todo : forall done m f,
  flow_steps f = done ++ todo ->
  flow_current_index f = length done ->
  fst (Flow.next_steps (length todo + m) f) = map Some todo ++ repeat None m
  /\ flow_steps (snd (Flow.next_steps (length todo + m) f)) = done ++ todo.
Proof.
  induction todo as [|s todo IH]; intros done m f Hs Hi.
  - simpl. rewrite next_steps_exhausted.
    + simpl. auto.
    + rewrite Hs, Hi, app_nil_r. lia.
  - cbn [length Nat.add Flow.next_steps].
    rewrite (@next_step_in_range f s).
    2:{ rewrite Hs, Hi. rewrite nth_error_app2 by lia.
        now rewrite Nat.sub_diag. }
    destruct (IH (done ++ [s]) m (Flow.advance f)) as [IH1 IH2].
    { simpl. rewrite Hs, <- app_assoc. reflexivity. }
    { simpl. rewrite Hi, length_app. simpl. lia. }
    destruct (Flow.next_steps (length todo + m) (Flow.advance f)) as [rs f2].
    simpl in *. rewrite IH1, IH2, <- app_assoc. auto.
Qed.

Lemma build_ok w st steps st' :
  Flow.build w st = (Ok steps, st') ->
  exists raw st1,
    LLMClient.generate w (flow_llm (flow st)) (Flow.prompt (flow st)) 1024 st
    = (Ok raw, st1)
    /\ Flow.parse_steps w raw = Ok steps
    /\ st' = set_flow (Flow.with_steps steps (flow st1)) st1.
Proof.
  unfold Flow.build. intros H.
  apply bind_ok in H. destruct H as (f & s0 & Hf & H).
  unfold gets in Hf. inversion Hf; subst. clear Hf.
  apply bind_ok in H. destruct H as (raw & st1 & Hg & H).
  apply bind_ok in H. destruct H as (steps' & st2 & Hp & H).
  unfold lift in Hp. inversion Hp; subst. clear Hp.
  apply bind_ok in H. destruct H as ([] & st3 & Hm & H).
  unfold modify in Hm. inversion Hm; subst. clear Hm.
  unfold ret in H. inversion H; subst.
  exists raw, st2. auto.
Qed.

(** C10. After a successful [build] of [N] steps, from whatever state the
    flow was in before (a cursor advanced by earlier calls included), the
    stored steps are the ones returned and the cursor is 0; [N] successive
    calls of [next_step] return the [N] steps in index order, every later
    call returns [None], and the stored steps are not changed by any of
    them. *)
Theorem next_step_iterates_plan_after_build
    (w : World) (st st' : State) (steps : list InterviewStep) :
  Flow.build w st = (Ok steps, st') ->
  flow_steps (flow st') = steps
  /\ flow_current_index (flow st') = 0
  /\ forall m,
       fst (Flow.next_steps (length steps + m) (flow st'))
       = map Some steps ++ repeat None m
       /\ flow_steps (snd (Flow.next_steps (length steps + m) (flow st')))
          = steps.
Proof.
  intros H. apply build_ok in H. destruct H as (raw & st1 & _ & _ & ->).
  assert (Hs : flow_steps (flow (set_flow (Flow.with_steps steps (flow st1)) st1))
               = steps) by reflexivity.
  split; [exact Hs|]. split; [reflexivity|].
  intros m. apply (@next_steps_from steps [] m); [exact Hs | reflexivity].
Qed.

Lemma next_step_iterates_plan_after_build_witness :
  let st' :=
    snd (Flow.build (Fixture.quiet Fixture.plan_text) Fixture.midway) in
  flow_steps (flow st') = Fixture.plan
  /\ flow_current_index (flow st') = 0
  /\ forall m,
       fst (Flow.next_steps (length Fixture.plan + m) (flow st'))
       = map Some Fixture.plan ++ repeat None m
       /\ flow_steps (snd (Flow.next_steps (length Fixture.plan + m) (flow st')))
          = Fixture.plan.
Proof.
  apply (@next_step_iterates_plan_after_build
           (Fixture.quiet Fixture.plan_text) Fixture.midway).
  vm_compute. reflexivity.
Defined.

(** C8, as the code has it. When [build] returns, the plan has one step for
    each item of the value decoded from the response, the text the
    generation call returned for the planner's prompt: as many steps as
    items, in order, and none when the value has no item. *)
Theorem build_plan_has_one_step_per_item
    (w : World) (st st' : State) (steps : list InterviewStep) :
  Flow.build w st = (Ok steps, st') ->
  exists raw st1 data items,
    LLMClient.generate w (flow_llm (flow st)) (Flow.prompt (flow st)) 1024 st
    = (Ok raw, st1)
    /\ Flow.parse_steps w raw = Ok steps
    /\ Flow.decode_response w raw = Ok data
    /\ Py.iter data = Ok items
    /\ Flow.steps_from 0 items = Ok steps
    /\ length steps = length items
    /\ (steps = [] <-> items = []).
Proof.
  intros H. apply build_ok in H. destruct H as (raw & st1 & Hg & Hp & _).
  destruct (parse_steps_ok _ _ Hp) as (data & items & Hd & Hi & Hs).
  exists raw, st1, data, items. repeat split; try assumption.
  - eapply steps_from_length; eauto.
  - intros ->. apply steps_from_length in Hs. now destruct items.
  - intros ->. apply steps_from_length in Hs. now destruct steps.
Qed.

Lemma build_plan_has_one_step_per_item_witness :
  let w := Fixture.quiet Fixture.plan_text in
  exists raw st1 data items,
    LLMClient.generate w (flow_llm (flow Fixture.idle))
      (Flow.prompt (flow Fixture.idle)) 1024 Fixture.idle
    = (Ok raw, st1)
    /\ Flow.parse_steps w raw = Ok Fixture.plan
    /\ Flow.decode_response w raw = Ok data
    /\ Py.iter data = Ok items
    /\ Flow.steps_from 0 items = Ok Fixture.plan
    /\ length Fixture.plan = length items
    /\ (Fixture.plan = [] <-> items = []).
Proof.
  apply (@build_plan_has_one_step_per_item
           (Fixture.quiet Fixture.plan_text) Fixture.idle
           (snd (Flow.build (Fixture.quiet Fixture.plan_text) Fixture.idle))).
  vm_compute. reflexivity.
Defined.

(** C8, as stated, fails: on the response [[]] the build returns, and the
    plan is empty. *)
Lemma build_returns_empty_plan :
  ~ (forall w st steps st',
       Flow.build w st = (Ok steps, st') -> steps <> []).
Proof.
  intros H.
  apply (H (Fixture.quiet "[]") Fixture.idle []
           (snd (Flow.build (Fixture.quiet "[]") Fixture.idle))).
  - vm_compute. reflexivity.
  - reflexivity.
Qed.

(** The reference decoder rejects a text that begins with a fence. *)
Lemma loads_rejects_back_quote (s : string) :
  Json.loads (String PyStr.tick s) = None.
Proof. reflexivity. Qed.

Lemma extract_one_block (pre mid post : string) :
  PyStr.free_of PyStr.tick pre = true ->
  PyStr.free_of PyStr.tick mid = true ->
  PyStr.free_of PyStr.tick post = true ->
  Flow._extract_json_block (pre ++ "```" ++ mid ++ "```" ++ post)
  = Flow.first_bracketed [pre; mid; post].
Proof.
  intros H1 H2 H3. unfold Flow._extract_json_block, Flow.fence.
  rewrite contains_after. simpl negb. cbv iota.
  now rewrite split_one_block.
Qed.

(** A fenced block whose text begins, right after the opening fence, with a
    character that is neither white space nor the bracket (a language tag)
    is not extracted. *)
Lemma tagged_block_not_extracted (c : ascii) (mid : string) :
  PyStr.is_space c = false -> Ascii.eqb c "[" = false ->
  PyStr.free_of PyStr.tick (String c mid) = true ->
  Flow._extract_json_block ("```" ++ String c mid ++ "```") = None.
Proof.
  intros Hs Hb Hf.
  change ("```" ++ String c mid ++ "```")%string
    with ("" ++ "```" ++ String c mid ++ "```" ++ "")%string.
  rewrite extract_one_block by (assumption || reflexivity).
  destruct (@strip_keeps_first c mid Hs) as (r & Hr).
  cbn [Flow.first_bracketed]. rewrite Hr.
  cbn [PyStr.strip PyStr.rstrip PyStr.lstrip PyStr.startswith andb].
  rewrite Ascii.eqb_sym, Hb. reflexivity.
Qed.

(** A bracketed text alone in a fenced block without a tag, white space
    around it, is extracted as it is. *)
Lemma plain_block_extracted (ws1 core ws2 : string) :
  PyStr.all_space ws1 = true -> PyStr.all_space ws2 = true ->
  PyStr.free_of PyStr.tick (ws1 ++ String "[" (core ++ String "]" ws2)) = true ->
  Flow._extract_json_block
    ("```" ++ (ws1 ++ String "[" (core ++ String "]" ws2)) ++ "```")
  = Some (String "[" (core ++ String "]" "")).
Proof.
  intros H1 H2 Hf.
  change ("```" ++ (ws1 ++ String "[" (core ++ String "]" ws2)) ++ "```")%string
    with ("" ++ "```" ++ (ws1 ++ String "[" (core ++ String "]" ws2))
          ++ "```" ++ "")%string.
  rewrite extract_one_block by (assumption || reflexivity).
  cbn [Flow.first_bracketed].
  change (PyStr.strip "") with "".
  cbn [PyStr.startswith andb].
  rewrite strip_padded by (assumption || reflexivity).
  cbn [PyStr.startswith]. rewrite Ascii.eqb_refl. cbn [andb].
  change (String "[" (core ++ String "]" ""))
    with (String "[" core ++ String "]" "")%string.
  now rewrite endswith_last.
Qed.

(** So a response that is a tagged fenced block, which no decoder accepts
    as a whole, makes the plan fail to parse, whatever is in the block. *)
Lemma tagged_fence_fails (w : World) (c : ascii) (mid : string) :
  PyStr.is_space c = false -> Ascii.eqb c "[" = false ->
  PyStr.free_of PyStr.tick (String c mid) = true ->
  json_loads w ("```" ++ String c mid ++ "```") = None ->
  Flow.parse_steps w ("```" ++ String c mid ++ "```")
  = Raise Flow.parse_failure.
Proof.
  intros Hs Hb Hf Hl. unfold Flow.parse_steps, Flow.decode_response.
  rewrite Hl, tagged_block_not_extracted by assumption. reflexivity.
Qed.

(** And a response that is a fenced block without a tag holding a
    bracketed text the decoder accepts gives the plan of that text. *)
Lemma plain_fence_same_plan (w : World) (ws1 core ws2 : string) (data : pyobj) :
  PyStr.all_space ws1 = true -> PyStr.all_space ws2 = true ->
  PyStr.free_of PyStr.tick (ws1 ++ String "[" (core ++ String "]" ws2)) = true ->
  json_loads w ("```" ++ (ws1 ++ String "[" (core ++ String "]" ws2)) ++ "```")
  = None ->
  json_loads w (String "[" (core ++ String "]" "")) = Some data ->
  Flow.parse_steps w
    ("```" ++ (ws1 ++ String "[" (core ++ String "]" ws2)) ++ "```")
  = Flow.parse_steps w (String "[" (core ++ String "]" "")).
Proof.
  intros H1 H2 Hf Hl Hd. unfold Flow.parse_steps, Flow.decode_response.
  rewrite Hl, plain_block_extracted, Hd by assumption. reflexivity.
Qed.

(** C3, at a response the code rejects. A plan array in a fenced block
    whose opening fence carries the language tag [json] is not extracted:
    the piece between the fences begins with the tag, not with the bracket,
    and [build] raises the parse failure. The same array given bare, or in a
    fenced block without a tag, gives the plan. *)
Theorem fenced_plan_with_language_tag_is_rejected :
  Flow._extract_json_block (Fixture.fenced "json" Fixture.plan_text) = None
  /\ fst (Flow.build (Fixture.quiet (Fixture.fenced "json" Fixture.plan_text))
                     Fixture.idle)
     = Raise Flow.parse_failure
  /\ fst (Flow.build (Fixture.quiet Fixture.plan_text) Fixture.idle)
     = Ok Fixture.plan
  /\ fst (Flow.build (Fixture.quiet (Fixture.fenced "" Fixture.plan_text))
                     Fixture.idle)
     = Ok Fixture.plan.
Proof. vm_compute. repeat split. Qed.

End FlowFacts.

(* ===================================================================== *)
(** * The audio bridge *)
(* ===================================================================== *)

Section AudioFacts.

(** [stop()] returns, whatever the recorder's state and the world; the
    recorder is then not running and has no stream; its thread field is
    untouched, and so is all that is not the recorder or the trace. *)
Lemma recorder_stop_returns w st :
  exists st1,
    Recorder.stop w st = (Ok tt, st1)
    /\ recorder st1
       = Recorder.set_stream false (Recorder.set_running false (recorder st))
    /\ stop_event st1 = stop_event st
    /\ transcript st1 = transcript st.
Proof.
  unfold Recorder.stop, Recorder.update, bind, modify, gets, act, log, ret.
  destruct st as [tr se wa fl tm [run str thr] mp]; simpl.
  destruct str; simpl;
    (destruct (thr && writer_alive w _); simpl;
     eexists; repeat split; reflexivity).
Qed.

(** On a recorder that is not running and has no stream, [stop()] changes
    nothing of the recorder and calls nothing but, possibly, [join]. *)
Lemma recorder_stop_again w st :
  rec_running (recorder st) = false -> rec_stream (recorder st) = false ->
  exists st2,
    Recorder.stop w st = (Ok tt, st2)
    /\ recorder st2 = recorder st
    /\ (trace st2 = trace st \/ trace st2 = trace st ++ [Called WriterJoin]).
Proof.
  unfold Recorder.stop, Recorder.update, bind, modify, gets, act, log, ret.
  destruct st as [tr se wa fl tm [run str thr] mp]; simpl.
  intros -> ->. simpl.
  destruct (thr && writer_alive w _); simpl;
    eexists; repeat split; auto.
Qed.

(** C9. [AudioBridge.stop()] never raises and is idempotent. On a recorder
    that was never started it returns and leaves everything as it was, with
    no call made. From any state it returns, leaving the recorder not running
    and without a stream; a further [stop()] (in whatever world) returns too,
    leaves the recorder in that same state, and touches no stream: at most it
    joins the writer thread again. *)
Theorem bridge_stop_never_raises_idempotent (w w' : World) (st : State) :
  Bridge.stop w (set_recorder Recorder.fresh st)
  = (Ok tt, set_recorder Recorder.fresh st)
  /\ exists st1,
       Bridge.stop w st = (Ok tt, st1)
       /\ rec_running (recorder st1) = false
       /\ rec_stream (recorder st1) = false
       /\ rec_thread (recorder st1) = rec_thread (recorder st)
       /\ exists st2,
            Bridge.stop w' st1 = (Ok tt, st2)
            /\ recorder st2 = recorder st1
            /\ (trace st2 = trace st1
                \/ trace st2 = trace st1 ++ [Called WriterJoin]).
Proof.
  split.
  - destruct st as [tr se wa fl tm r mp]. reflexivity.
  - unfold Bridge.stop.
    destruct (recorder_stop_returns w st) as (st1 & H1 & Hr & _ & _).
    exists st1. split; [assumption|].
    split; [now rewrite Hr|]. split; [now rewrite Hr|].
    split; [now rewrite Hr|].
    apply recorder_stop_again; rewrite Hr; reflexivity.
Qed.

End AudioFacts.

(* ===================================================================== *)
(** * The session controller *)
(* ===================================================================== *)

Section ControllerFacts.

Variable w : World.
Variable settings : InterviewSettings.

Lemma keeps_run {A X} (f : State -> X) (m : M A) st r st' :
  keeps f m -> m st = (r, st') -> f st' = f st.
Proof. intros K H. specialize (K st). now rewrite H in K. Qed.

Lemma keeps_modify {X} (f : State -> X) (g : State -> State) :
  (forall st, f (g st) = f st) -> keeps f (modify g).
Proof. intros H st. apply H. Qed.

Lemma set_stop_event_set st :
  stop_event st = true -> set_stop_event true st = st.
Proof. destruct st; simpl; now intros ->. Qed.

(** The observers' turn returns; afterwards the flag is set if it was, or if
    a [stop()] was requested. *)
Lemma observers_run i st :
  exists st1,
    Controller.observers w i st = (Ok tt, st1)
    /\ stop_event st1 = (stop_event st || stop_requested w i)
    /\ trace st1 = trace st
    /\ transcript st1 = transcript st.
Proof.
  unfold Controller.observers, Controller.stop, modify, ret.
  destruct (stop_requested w i); eexists; repeat split; simpl.
  - now rewrite orb_true_r.
  - now rewrite orb_false_r.
Qed.

Lemma observers_flag_set i st :
  stop_event st = true -> Controller.observers w i st = (Ok tt, st).
Proof.
  intros H. unfold Controller.observers, Controller.stop, modify, ret.
  destruct (stop_requested w i); [|reflexivity].
  now rewrite set_stop_event_set.
Qed.

(** Once the flag is set the loop processes nothing more. *)
Lemma loop_stopped steps i st :
  stop_event st = true ->
  Controller.interview_loop w settings i steps st = (Ok tt, st).
Proof.
  intros H. destruct steps as [|step rest]; simpl; [reflexivity|].
  unfold bind. rewrite observers_flag_set by assumption.
  unfold gets. now rewrite H.
Qed.

Lemma follow_ups_run items : forall st,
  Controller.follow_ups w settings items st
  = (Ok tt,
     set_transcript
       (Transcript.appends
          (map (fun f => (interviewer_name settings, Controller.follow_up_text w f))
               items)
          (transcript st)) st).
Proof.
  induction items as [|f items IH]; intros st; simpl.
  - unfold ret. now destruct st.
  - unfold bind, Transcript.append_m, modify. rewrite IH. simpl.
    now destruct st.
Qed.





(** The loop over [pre ++ post] is the loop over [pre] followed by the loop
    over [post]: a [break] in the first leaves the flag set, on which the
    second does nothing. *)
Lemma loop_app pre : forall post i st,
  Controller.interview_loop w settings i (pre ++ post) st
  = bind (Controller.interview_loop w settings i pre)
         (fun _ => Controller.interview_loop w settings (i + length pre) post) st.
Proof.
  induction pre as [|step rest IH]; intros post i st.
  - simpl. unfold bind, ret. now rewrite Nat.add_0_r.
  - cbn [app Controller.interview_loop length].
    rewrite bind_assoc.
    destruct (observers_run i st) as (st1 & Ho & _).
    rewrite !(bind_of_ok _ _ _ Ho). rewrite bind_assoc, !bind_gets.
    destruct (stop_event st1) eqn:Ef.
    + rewrite bind_ret. unfold ret. now rewrite loop_stopped.
    + rewrite bind_assoc. apply bind_ext. intros _ st2.
      rewrite IH. now rewrite Nat.add_succ_r.
Qed.

(** If a [stop()] was requested before one of the checks of the loop and the
    loop returns, the flag is set at its end. *)
Lemma loop_flag pre : forall i j st st1,
  j < length pre ->
  stop_requested w (i + j) = true ->
  Controller.interview_loop w settings i pre st = (Ok tt, st1) ->
  stop_event st1 = true.
Proof.
  induction pre as [|step rest IH]; intros i j st st1 Hj Hreq H.
  - simpl in Hj. lia.
  - cbn [Controller.interview_loop] in H.
    apply bind_ok in H. destruct H as ([] & s1 & Ho & H).
    destruct (observers_run i st) as (s1' & Ho' & Hf & _).
    rewrite Ho in Ho'. inversion Ho'; subst s1'. clear Ho'.
    apply bind_ok in H. destruct H as (b & s2 & Hg & H).
    unfold gets in Hg. inversion Hg; subst. clear Hg.
    destruct (stop_event s2) eqn:Ef.
    + unfold ret in H. inversion H; subst. exact Ef.
    + destruct j as [|j'].
      * rewrite Nat.add_0_r in Hreq. rewrite Hreq, orb_true_r in Hf.
        discriminate.
      * apply bind_ok in H. destruct H as ([] & s3 & _ & H).
        apply (IH (S i) j' s3 st1); [simpl in Hj; lia | | exact H].
        now rewrite Nat.add_succ_r in Hreq.
Qed.

Lemma final_status_snoc tr m :
  Controller.final_status (tr ++ [Status m]) = Some m.
Proof.
  induction tr as [|e tr IH]; simpl; [reflexivity | now rewrite IH].
Qed.

(** When the worker returns, its last status is [complete_message]. *)
Lemma session_ok_final_status st0 st' :
  Controller.session w settings st0 = (Ok tt, st') ->
  Controller.final_status (trace st') = Some Controller.complete_message.
Proof.
  unfold Controller.session. intros H.
  apply bind_ok in H. destruct H as ([] & s1 & _ & H).
  unfold Controller._run in H.
  destruct (Controller._async_run w settings s1) as [r s2] eqn:R.
  inversion H; subst. clear H. simpl.
  unfold Controller._async_run in R.
  apply bind_ok in R. destruct R as (steps & s3 & _ & R).
  apply bind_ok in R. destruct R as ([] & s4 & _ & R).
  apply bind_ok in R. destruct R as ([] & s5 & _ & R).
  apply bind_ok in R. destruct R as ([] & s6 & _ & R).
  unfold Controller.summarizing in R.
  apply bind_ok in R. destruct R as (summary & s7 & _ & R).
  apply bind_ok in R. destruct R as ([] & s8 & _ & R).
  unfold Controller._emit_status, log, modify in R. inversion R; subst.
  simpl. apply final_status_snoc.
Qed.

(** C1, as the code has it. If [stop()] is called before the loop reaches
    step [k < N] (in an interval that ends at the check before some step
    [j <= k]), the loop does what it would do on the first [k] steps alone:
    same result, same events, same ledger, so no step of index [k] or more
    is processed; and when it returns, the flag is set. The session does not
    end differently for that: whenever the worker returns, stopped or not,
    it ends as completed and its last status is [complete_message]. *)
Theorem stop_ends_loop_session_ends_completed
    (steps : list InterviewStep) (k : nat) (st : State) :
  k < length steps ->
  (exists j, j <= k /\ stop_requested w j = true) ->
  let full := Controller.interview_loop w settings 0 steps st in
  let cut := Controller.interview_loop w settings 0 (firstn k steps) st in
  fst full = fst cut
  /\ trace (snd full) = trace (snd cut)
  /\ transcript (snd full) = transcript (snd cut)
  /\ (fst full = Ok tt -> stop_event (snd full) = true)
  /\ forall st0,
       Controller.ending (fst (Controller.session w settings st0))
       = Controller.Completed ->
       Controller.final_status
         (trace (snd (Controller.session w settings st0)))
       = Some Controller.complete_message.
Proof.
  intros Hk (j & Hj & Hreq). cbv zeta.
  assert (Hlast : forall st0,
             Controller.ending (fst (Controller.session w settings st0))
             = Controller.Completed ->
             Controller.final_status
               (trace (snd (Controller.session w settings st0)))
             = Some Controller.complete_message).
  { intros st0 He.
    destruct (Controller.session w settings st0) as [[[]|e] s'] eqn:E.
    - simpl. eapply session_ok_final_status; eauto.
    - discriminate. }
  assert (Lk : length (firstn k steps) = k) by (rewrite length_firstn; lia).
  destruct (skipn k steps) as [|s rest] eqn:Es.
  { apply (f_equal (@length _)) in Es. rewrite length_skipn in Es.
    simpl in Es. lia. }
  assert (Hfull :
    Controller.interview_loop w settings 0 steps st
    = bind (Controller.interview_loop w settings 0 (firstn k steps))
           (fun _ => Controller.interview_loop w settings k (s :: rest)) st).
  { rewrite <- (firstn_skipn k steps) at 1.
    rewrite Es, loop_app, Lk. reflexivity. }
  rewrite Hfull. clear Hfull. unfold bind at 1 2 3 4 5.
  destruct (Controller.interview_loop w settings 0 (firstn k steps) st)
    as [[[]|e] st1] eqn:E1.
  - assert (Hset : stop_event st1 = true \/ stop_requested w k = true).
    { destruct (Nat.eq_dec j k) as [->|Hne]; [now right|left].
      apply (@loop_flag (firstn k steps) 0 j st st1); [lia|exact Hreq|exact E1]. }
    cbn [Nat.add Controller.interview_loop].
    destruct (observers_run k st1) as (st2 & Ho & Hf & Ht & Htm).
    rewrite (bind_of_ok _ _ _ Ho), bind_gets.
    assert (F2 : stop_event st2 = true).
    { rewrite Hf. destruct Hset as [->| ->]; [reflexivity|apply orb_true_r]. }
    rewrite F2. unfold ret. simpl. auto.
  - simpl. repeat split; auto. discriminate.
Qed.


Lemma keeps_enter {X} (f : State -> X) url name :
  trace_blind f -> (forall b st, f (set_meet_page b st) = f st) ->
  keeps f (Meet.enter w url name).
Proof.
  intros Hb Hp. unfold Meet.enter.
  keeps_auto. apply keeps_modify. intros st. apply Hp.
Qed.


Lemma keeps_transcribe_audio {X} (f : State -> X) path :
  trace_blind f -> keeps f (Transcript.transcribe_audio w path).
Proof. intros Hb. unfold Transcript.transcribe_audio. keeps_auto. Qed.


(** The transcribing stage always returns, and adds one entry under the
    candidate's name: the transcription, or the placeholder. *)
Lemma transcribing_returns st :
  exists text st',
    Controller.transcribing w settings st = (Ok tt, st')
    /\ tm_entries (transcript st')
       = tm_entries (transcript st)
         ++ [Transcript.line (candidate_name settings) text]
    /\ match Transcript.transcribe_audio w (audio_output_path settings) st with
       | (Ok t, _) => text = t
       | (Raise e, _) => text = Controller.placeholder e
       end.
Proof.
  unfold Controller.transcribing, try_except.
  pose proof (@keeps_transcribe_audio _ transcript (audio_output_path settings)
                blind_transcript st) as K.
  unfold bind at 1.
  destruct (Transcript.transcribe_audio w (audio_output_path settings) st)
    as [[t|e] s1]; simpl in K.
  - exists t. eexists. split; [reflexivity|]. simpl. rewrite K. auto.
  - exists (Controller.placeholder e). eexists.
    split; [reflexivity|]. simpl. rewrite K. auto.
Qed.

Ltac keeps_all :=
  repeat first [ keeps_step | apply keeps_modify; intros; reflexivity ].



Lemma summarizing_keeps_ledger :
  keeps transcript (Controller.summarizing w settings).
Proof.
  unfold Controller.summarizing, Transcript.summary, Controller._emit_summary,
    Controller._emit_status, LLMClient.generate, LLMClient._generate_openai,
    LLMClient._generate_anthropic, LLMClient._generate_google.
  keeps_all.
Qed.

(** The work of the thread once the meeting stage has returned: the
    transcribing stage returns, and the rest is the summarizing stage, which
    leaves the ledger as it finds it. *)
Lemma async_run_after_meeting st steps s1 s2 s3 :
  Controller.preparing w settings st = (Ok steps, s1) ->
  Controller.equipping w settings s1 = (Ok tt, s2) ->
  Controller.meeting w settings steps s2 = (Ok tt, s3) ->
  forall s4,
    Controller.transcribing w settings s3 = (Ok tt, s4) ->
    Controller._async_run w settings st = Controller.summarizing w settings s4
    /\ transcript (snd (Controller._async_run w settings st)) = transcript s4.
Proof.
  intros Hp He Hm s4 Ht.
  assert (E : Controller._async_run w settings st
              = Controller.summarizing w settings s4).
  { unfold Controller._async_run.
    rewrite (bind_of_ok _ _ _ Hp). cbv beta.
    rewrite (bind_of_ok _ _ _ He). cbv beta.
    rewrite (bind_of_ok _ _ _ Hm). cbv beta.
    now rewrite (bind_of_ok _ _ _ Ht). }
  split; [exact E|]. rewrite E. apply summarizing_keeps_ledger.
Qed.


Lemma placeholder_stripped e :
  PyStr.strip (Controller.placeholder e) = Controller.placeholder e.
Proof.
  unfold Controller.placeholder.
  change ("[Transcription unavailable: " ++ exn_str e ++ "]")%string
    with (String "[" ("Transcription unavailable: " ++ (exn_str e ++ "]")))%string.
  rewrite <- append_assoc.
  apply strip_delimited; reflexivity.
Qed.

(** C6. If the transcription raises in the Transcribing stage of a run
    (the stages before it have returned), the work of the thread does not
    abort: the transcribing stage returns, the ledger has gained exactly one
    entry, the candidate's name followed by the placeholder
    [[Transcription unavailable: ...]] that carries the text of the
    exception, and the run goes on with the summarizing stage from there:
    what is left of it is that stage, which adds no entry. *)
Theorem transcription_failure_gives_placeholder_entry
    (steps : list InterviewStep) (st s1 s2 s3 s3' : State) (e : exn) :
  Controller.preparing w settings st = (Ok steps, s1) ->
  Controller.equipping w settings s1 = (Ok tt, s2) ->
  Controller.meeting w settings steps s2 = (Ok tt, s3) ->
  Transcript.transcribe_audio w (audio_output_path settings) s3
  = (Raise e, s3') ->
  exists s4,
    Controller.transcribing w settings s3 = (Ok tt, s4)
    /\ tm_entries (transcript s4)
       = tm_entries (transcript s3)
         ++ [(candidate_name settings ++ ": "
              ++ "[Transcription unavailable: " ++ exn_str e ++ "]")%string]
    /\ Controller._async_run w settings st
       = Controller.summarizing w settings s4
    /\ tm_entries (transcript (snd (Controller._async_run w settings st)))
       = tm_entries (transcript s3)
         ++ [(candidate_name settings ++ ": "
              ++ "[Transcription unavailable: " ++ exn_str e ++ "]")%string].
Proof.
  intros Hp He Hm H.
  destruct (transcribing_returns s3) as (text & s4 & Ht & E4 & Hx).
  rewrite H in Hx. subst text.
  destruct (async_run_after_meeting _ Hp He Hm Ht) as (Erun & Etr).
  assert (E : tm_entries (transcript s4)
              = tm_entries (transcript s3)
                ++ [(candidate_name settings ++ ": "
                     ++ "[Transcription unavailable: " ++ exn_str e ++ "]")%string]).
  { rewrite E4. unfold Transcript.line. now rewrite placeholder_stripped. }
  exists s4. split; [exact Ht|]. split; [exact E|]. split; [exact Erun|].
  now rewrite Etr.
Qed.


(** Without a key the generation call raises at once, the same exception
    whatever the prompt: no request is made, nothing changes. *)
Lemma generate_without_key config :
  api_key config = None \/ api_key config = Some "" ->
  exists e,
    exn_class_of e = LLMClientError
    /\ forall prompt n st,
         LLMClient.generate w config prompt n st = (Raise e, st).
Proof.
  intros Hk.
  assert (Hr : exists e, LLMClient._require_api_key config = Raise e
                         /\ exn_class_of e = LLMClientError).
  { unfold LLMClient._require_api_key. destruct Hk as [-> | ->]; simpl; eauto. }
  destruct Hr as (e & Hr & Hc).
  unfold LLMClient.generate, LLMClient._generate_openai,
    LLMClient._generate_anthropic, LLMClient._generate_google.
  destruct (String.eqb (PyStr.lower (provider config)) "openai");
    [exists e; split; [exact Hc|]; intros; unfold bind, lift; now rewrite Hr|].
  destruct (String.eqb (PyStr.lower (provider config)) "anthropic");
    [exists e; split; [exact Hc|]; intros; unfold bind, lift; now rewrite Hr|].
  destruct (String.eqb (PyStr.lower (provider config)) "google"
            || String.eqb (PyStr.lower (provider config)) "gemini"
            || String.eqb (PyStr.lower (provider config)) "google-genai");
    [exists e; split; [exact Hc|]; intros; unfold bind, lift; now rewrite Hr|].
  eexists. split; [|intros; reflexivity]. reflexivity.
Qed.

(** C7. With an empty or missing credential the work of the thread raises
    before anything is set up: the only events are the first status and
    the document extraction and, if the document was extracted, the second
    status; so no sound device is opened and no connection to the meeting
    is attempted. If the extraction raises, its exception is the one
    raised; otherwise the exception is the [LLMClientError] of the first
    generation call, the one [build] makes, raised before any request to
    the provider. *)
Theorem missing_credential_fails_before_connecting (st : State) :
  api_key (llm settings) = None \/ api_key (llm settings) = Some "" ->
  exists e st' evs,
    Controller._run w settings st = (Raise e, st')
    /\ trace st' = trace st ++ evs
    /\ existsb Controller.connects evs = false
    /\ match fault w (S (length (trace st))) (ExtractText (cv_path settings)) with
       | Some e0 =>
           e = e0
           /\ evs = [Status "Parsing CV document…";
                     Called (ExtractText (cv_path settings))]
       | None =>
           exn_class_of e = LLMClientError
           /\ evs = [Status "Parsing CV document…";
                     Called (ExtractText (cv_path settings));
                     Status "Generating interview flow with LLM…"]
           /\ forall prompt n s,
                LLMClient.generate w (llm settings) prompt n s = (Raise e, s)
       end.
Proof.
  intros Hk.
  unfold Controller._run, Controller._async_run, Controller.preparing.
  unfold Controller._emit_status at 1. unfold bind at 1 2. unfold log at 1.
  unfold modify at 1. unfold bind at 1 2. unfold call at 1.
  cbn [trace set_trace]. rewrite length_app, Nat.add_comm. cbn [length Nat.add].
  destruct (fault w (S (length (trace st))) (ExtractText (cv_path settings)))
    as [e0|] eqn:Ef.
  - eexists; eexists; eexists. split; [reflexivity|]. simpl.
    split; [now rewrite <- app_assoc|]. split; [reflexivity|]. auto.
  - unfold bind at 1 2. unfold Controller._emit_status, log at 1, modify at 1.
    unfold bind at 1 2. unfold modify at 1.
    unfold Flow.build. unfold bind at 1 2. unfold gets at 1.
    cbn [flow set_flow Flow.init flow_llm].
    destruct (@generate_without_key (llm settings) Hk) as (e & Hc & Hg).
    rewrite Hg.
    eexists; eexists; eexists. split; [reflexivity|]. simpl.
    split; [rewrite <- !app_assoc; reflexivity|].
    split; [reflexivity|]. split; [exact Hc|]. split; [reflexivity|].
    exact Hg.
Qed.

End ControllerFacts.

(* ===================================================================== *)
(** * Concrete runs *)
(* ===================================================================== *)

Lemma stop_ends_loop_session_ends_completed_witness :
  let w := Fixture.with_stop (fun i => i =? 1) (Fixture.quiet Fixture.plan_text) in
  let full :=
    Controller.interview_loop w Fixture.settings 0 Fixture.plan Fixture.idle in
  let cut :=
    Controller.interview_loop w Fixture.settings 0 (firstn 1 Fixture.plan)
      Fixture.idle in
  fst full = fst cut
  /\ trace (snd full) = trace (snd cut)
  /\ transcript (snd full) = transcript (snd cut)
  /\ (fst full = Ok tt -> stop_event (snd full) = true)
  /\ forall st0,
       Controller.ending (fst (Controller.session w Fixture.settings st0))
       = Controller.Completed ->
       Controller.final_status
         (trace (snd (Controller.session w Fixture.settings st0)))
       = Some Controller.complete_message.
Proof.
  apply (@stop_ends_loop_session_ends_completed
           (Fixture.with_stop (fun i => i =? 1) (Fixture.quiet Fixture.plan_text))
           Fixture.settings Fixture.plan 1 Fixture.idle).
  - simpl. lia.
  - exists 1. split; [lia | reflexivity].
Defined.

(** C1, as stated, fails. [stop()] is called before the first step of a
    plan of two steps; no step is processed; the worker returns all the
    same, the session ends as completed and its last status is
    [Interview complete.]. *)
Lemma stopped_session_ends_completed :
  let w := Fixture.with_stop (fun i => i =? 0) (Fixture.quiet Fixture.plan_text) in
  let out := Controller.session w Fixture.settings Fixture.idle in
  stop_requested w 0 = true
  /\ length (flow_steps (flow (snd out))) = 2
  /\ tm_entries (transcript (snd out)) = ["Ada: I am fine. Thanks."]
  /\ Controller.ending (fst out) = Controller.Completed
  /\ Controller.final_status (trace (snd out))
     = Some Controller.complete_message.
Proof. vm_compute. repeat split. Qed.




Lemma transcription_failure_gives_placeholder_entry_witness :
  let w := Sample.garbled in
  let s1 := snd (Controller.preparing w Fixture.settings Fixture.idle) in
  let s2 := snd (Controller.equipping w Fixture.settings s1) in
  let s3 := snd (Controller.meeting w Fixture.settings Fixture.plan s2) in
  exists s4,
    Controller.transcribing w Fixture.settings s3 = (Ok tt, s4)
    /\ tm_entries (transcript s4)
       = tm_entries (transcript s3)
         ++ [(candidate_name Fixture.settings ++ ": "
              ++ "[Transcription unavailable: "
              ++ exn_str Sample.unreadable ++ "]")%string]
    /\ Controller._async_run w Fixture.settings Fixture.idle
       = Controller.summarizing w Fixture.settings s4
    /\ tm_entries
         (transcript
            (snd (Controller._async_run w Fixture.settings Fixture.idle)))
       = tm_entries (transcript s3)
         ++ [(candidate_name Fixture.settings ++ ": "
              ++ "[Transcription unavailable: "
              ++ exn_str Sample.unreadable ++ "]")%string].
Proof.
  cbv zeta.
  apply (@transcription_failure_gives_placeholder_entry
           Sample.garbled Fixture.settings Fixture.plan Fixture.idle
           (snd (Controller.preparing Sample.garbled Fixture.settings
                   Fixture.idle))
           (snd (Controller.equipping Sample.garbled Fixture.settings
                   (snd (Controller.preparing Sample.garbled Fixture.settings
                           Fixture.idle))))
           (snd (Controller.meeting Sample.garbled Fixture.settings
                   Fixture.plan
                   (snd (Controller.equipping Sample.garbled Fixture.settings
                           (snd (Controller.preparing Sample.garbled
                                   Fixture.settings Fixture.idle))))))
           (snd (Transcript.transcribe_audio Sample.garbled
                   (audio_output_path Fixture.settings)
                   (snd (Controller.meeting Sample.garbled Fixture.settings
                           Fixture.plan
                           (snd (Controller.equipping Sample.garbled
                                   Fixture.settings
                                   (snd (Controller.preparing Sample.garbled
                                           Fixture.settings
                                           Fixture.idle))))))))
           Sample.unreadable).
  - vm_compute. reflexivity.
  - vm_compute. reflexivity.
  - vm_compute. reflexivity.
  - vm_compute. reflexivity.
Defined.

Lemma missing_credential_fails_before_connecting_witness :
  let w := Fixture.quiet Fixture.plan_text in
  let s := Fixture.without_key Fixture.settings in
  exists e st' evs,
    Controller._run w s Fixture.idle = (Raise e, st')
    /\ trace st' = trace Fixture.idle ++ evs
    /\ existsb Controller.connects evs = false
    /\ match fault w (S (length (trace Fixture.idle))) (ExtractText (cv_path s)) with
       | Some e0 =>
           e = e0
           /\ evs = [Status "Parsing CV document…";
                     Called (ExtractText (cv_path s))]
       | None =>
           exn_class_of e = LLMClientError
           /\ evs = [Status "Parsing CV document…";
                     Called (ExtractText (cv_path s));
                     Status "Generating interview flow with LLM…"]
           /\ forall prompt n s0,
                LLMClient.generate w (llm s) prompt n s0 = (Raise e, s0)
       end.
Proof.
  apply (@missing_credential_fails_before_connecting
           (Fixture.quiet Fixture.plan_text)
           (Fixture.without_key Fixture.settings) Fixture.idle).
  right. reflexivity.
Defined.

(* ===================================================================== *)
(** * Checks of the primitives on small inputs *)
(* ===================================================================== *)

Example split_fences :
  PyStr.split "a```b`c```" "```" = ["a"; "b`c"; ""].
Proof. reflexivity. Qed.

Example split_four_quotes : PyStr.split "a````b" "```" = ["a"; "`b"].
Proof. reflexivity. Qed.

Example strip_both_sides : PyStr.strip "  a b  " = "a b".
Proof. reflexivity. Qed.

Example lower_provider : PyStr.lower "OpenAI" = "openai".
Proof. reflexivity. Qed.

Example step_title_default :
  Flow.step_of_item 11 (PDict [("question", PStr "Why?"); ("followups", PNone)])
  = Ok {| title := PStr "Step 12"; question := PStr "Why?";
          followups := PList [] |}.
Proof. reflexivity. Qed.

Example loads_plan :
  Json.loads (Json.dq "[ {'title': 'Welcome', 'question': 'Hi\n', 'followups': ['a', 'b']}, {'n': [-1.5e3, true, null, {}]} ]")
  = Some (PList [PDict [("title", PStr "Welcome");
                        ("question", PStr ("Hi" ++ PyStr.LF)%string);
                        ("followups", PList [PStr "a"; PStr "b"])];
                 PDict [("n", PList [PNum "-1.5e3"; PBool true; PNone; PDict []])]]).
Proof. vm_compute. reflexivity. Qed.

Example loads_trailing_comma : Json.decode "[1,]" = Json.Invalid.
Proof. reflexivity. Qed.

Example loads_leading_zero : Json.decode "01" = Json.Invalid.
Proof. reflexivity. Qed.

Example loads_missing_comma : Json.decode "[1 2]" = Json.Invalid.
Proof. reflexivity. Qed.

Example loads_empty_array : Json.decode " [ ] " = Json.Scanned (PList []) "".
Proof. reflexivity. Qed.

Example loads_number : Json.decode "-0.0e+5" = Json.Scanned (PNum "-0.0e+5") "".
Proof. reflexivity. Qed.

Example float_underflow_is_falsy : Py.truthy (PNum "1e-400") = false.
Proof. vm_compute. reflexivity. Qed.

Example float_below_half_subnormal_is_falsy :
  Py.truthy (PNum "2e-324") = false.
Proof. vm_compute. reflexivity. Qed.

Example float_least_subnormal_is_truthy : Py.truthy (PNum "3e-324") = true.
Proof. vm_compute. reflexivity. Qed.

Example float_zero_is_falsy : Py.truthy (PNum "-0.0e+5") = false.
Proof. reflexivity. Qed.

Example float_overflow_is_truthy : Py.truthy (PNum "1e999") = true.
Proof. vm_compute. reflexivity. Qed.

Example int_with_many_digits_is_truthy :
  Py.truthy (PNum "100000000000000000000000000000000000000") = true.
Proof. vm_compute. reflexivity. Qed.

Example loads_fenced : Json.decode (Fixture.fenced "json" "[]") = Json.Invalid.
Proof. reflexivity. Qed.

(** A complete session in the quiet world: the ledger and the file at its
    end. *)
Example quiet_session_ledger :
  let out := Controller.session (Fixture.quiet Fixture.plan_text)
               Fixture.settings Fixture.idle in
  fst out = Ok tt
  /\ tm_entries (transcript (snd out))
     = ["AI Interviewer: How are you?";
        "AI Interviewer: Tell me about your last project.";
        "AI Interviewer: (Optional follow-up) Which part was yours?";
        "Ada: I am fine. Thanks."]
  /\ tm_file (transcript (snd out))
     = Some (PyStr.join PyStr.LF (tm_entries (transcript (snd out)))).
Proof. vm_compute. repeat split. Qed.

(* ===================================================================== *)
(** * More on the string primitives *)
(* ===================================================================== *)

Section TextFacts.

Lemma head_ok_lstrip (s : string) : Text.head_ok (PyStr.lstrip s) = true.
Proof.
  induction s as [|c s IH]; simpl; [reflexivity|].
  destruct (PyStr.is_space c) eqn:E; [exact IH|]. simpl. now rewrite E.
Qed.

Lemma last_ok_cons (c : ascii) (s : string) :
  s <> EmptyString -> Text.last_ok (String c s) = Text.last_ok s.
Proof. destruct s; [congruence | reflexivity]. Qed.

Lemma last_ok_rstrip (s : string) : Text.last_ok (PyStr.rstrip s) = true.
Proof.
  induction s as [|c s IH]; simpl; [reflexivity|].
  destruct (PyStr.rstrip s) as [|d r] eqn:E.
  - simpl. destruct (PyStr.is_space c) eqn:Ec; simpl; [reflexivity|].
    now rewrite Ec.
  - rewrite andb_false_r. rewrite last_ok_cons by discriminate. exact IH.
Qed.

Lemma last_ok_lstrip (s : string) :
  Text.last_ok s = true -> Text.last_ok (PyStr.lstrip s) = true.
Proof.
  induction s as [|c s IH]; [auto|].
  intros H. cbn [PyStr.lstrip]. destruct (PyStr.is_space c) eqn:E; [|exact H].
  destruct s as [|d r]; [reflexivity|]. apply IH. exact H.
Qed.

Lemma lstrip_fixed (s : string) :
  Text.head_ok s = true -> PyStr.lstrip s = s.
Proof.
  destruct s as [|c s]; simpl; [reflexivity|].
  intros H. apply negb_true_iff in H. now rewrite H.
Qed.

Lemma rstrip_fixed (s : string) :
  Text.last_ok s = true -> PyStr.rstrip s = s.
Proof.
  induction s as [|c s IH]; simpl; [reflexivity|].
  destruct s as [|d r].
  - intros H. apply negb_true_iff in H. simpl. now rewrite H.
  - intros H. rewrite (IH H). now rewrite andb_false_r.
Qed.

(** What [strip()] gives has no white space at either end. *)
Lemma strip_ends (s : string) :
  Text.head_ok (PyStr.strip s) = true /\ Text.last_ok (PyStr.strip s) = true.
Proof.
  unfold PyStr.strip. split.
  - apply head_ok_lstrip.
  - apply last_ok_lstrip, last_ok_rstrip.
Qed.

(** A text with no white space at either end is its own [strip()]. *)
Lemma strip_fixed (s : string) :
  Text.head_ok s = true -> Text.last_ok s = true -> PyStr.strip s = s.
Proof.
  intros Hh Hl. unfold PyStr.strip. rewrite rstrip_fixed by assumption.
  now apply lstrip_fixed.
Qed.

Lemma strip_idempotent (s : string) :
  PyStr.strip (PyStr.strip s) = PyStr.strip s.
Proof. destruct (strip_ends s). now apply strip_fixed. Qed.

Lemma head_ok_app (a b : string) :
  a <> EmptyString -> Text.head_ok (a ++ b) = Text.head_ok a.
Proof. destruct a; [congruence | reflexivity]. Qed.

Lemma last_ok_app (a b : string) :
  b <> EmptyString -> Text.last_ok (a ++ b) = Text.last_ok b.
Proof.
  intros Hb. induction a as [|c a IH]; simpl; [reflexivity|].
  destruct (a ++ b)%string eqn:E.
  - destruct a; simpl in E; [congruence | discriminate].
  - exact IH.
Qed.

Lemma truthy_nonempty (s : string) :
  PyStr.truthy s = true <-> s <> EmptyString.
Proof.
  destruct s; unfold PyStr.truthy; simpl; split; intros H;
    try discriminate; try reflexivity; congruence.
Qed.

(** The newline join of texts that are not empty and have no white space at
    their ends has none at its ends either. *)
Lemma join_ends (l : list string) :
  Forall (fun s => PyStr.truthy s = true /\ Text.head_ok s = true
                   /\ Text.last_ok s = true) l ->
  Text.head_ok (PyStr.join PyStr.LF l) = true
  /\ Text.last_ok (PyStr.join PyStr.LF l) = true
  /\ (l <> [] -> PyStr.join PyStr.LF l <> EmptyString).
Proof.
  induction 1 as [|x l (Hx & Hh & Hl) Hall IH]; [simpl; auto|].
  apply truthy_nonempty in Hx.
  destruct l as [|y l'].
  - simpl. auto.
  - destruct IH as (_ & IHl & IHn).
    assert (Hn : PyStr.join PyStr.LF (y :: l') <> EmptyString)
      by (apply IHn; discriminate).
    change (PyStr.join PyStr.LF (x :: y :: l'))
      with (x ++ (PyStr.LF ++ PyStr.join PyStr.LF (y :: l')))%string.
    split; [now rewrite head_ok_app|]. split.
    + rewrite last_ok_app by discriminate.
      change (PyStr.LF ++ PyStr.join PyStr.LF (y :: l'))%string
        with (String (ascii_of_nat 10) (PyStr.join PyStr.LF (y :: l'))).
      now rewrite last_ok_cons.
    + intros _. destruct x; [congruence | discriminate].
Qed.

End TextFacts.

(* ===================================================================== *)
(** * cv_parser.py and settings.py *)
(* ===================================================================== *)

Section ParserFacts.

Lemma stripped_pieces (l : list string) :
  Forall (fun s => PyStr.truthy s = true /\ Text.head_ok s = true
                   /\ Text.last_ok s = true)
         (filter PyStr.truthy (map PyStr.strip l)).
Proof.
  apply Forall_forall. intros s Hs. apply filter_In in Hs.
  destruct Hs as [Hin Ht]. apply in_map_iff in Hin.
  destruct Hin as (x & <- & _). destruct (strip_ends x). auto.
Qed.

(** X1. The text [extract_text] returns never begins or ends with white
    space. For a PDF or a Word document it is exactly the newline join of
    the texts of the pages (of the paragraphs that are not empty), each
    stripped, those that are then empty left out: the last [strip()] has
    nothing to remove there. *)
Theorem extract_text_is_trimmed_join (suffix : string) (src : CvParser.Source) :
  PyStr.strip (CvParser.extract_text suffix src)
  = CvParser.extract_text suffix src
  /\ (PyStr.lower suffix = ".pdf" ->
      CvParser.extract_text suffix src
      = PyStr.join PyStr.LF
          (filter PyStr.truthy
             (map (fun page => PyStr.strip (match page with
                                            | Some t => t
                                            | None => EmptyString
                                            end))
                  (CvParser.pdf_pages src))))
  /\ (PyStr.lower suffix = ".doc" \/ PyStr.lower suffix = ".docx" ->
      CvParser.extract_text suffix src
      = PyStr.join PyStr.LF
          (filter PyStr.truthy
             (map PyStr.strip
                (filter PyStr.truthy (CvParser.docx_paragraphs src))))).
Proof.
  split; [|split].
  - unfold CvParser.extract_text. apply strip_idempotent.
  - intros E. unfold CvParser.extract_text. rewrite E. simpl String.eqb.
    cbv iota. unfold CvParser._read_pdf.
    assert (M : map (fun page =>
                       PyStr.strip match page with
                                   | Some t => if PyStr.truthy t then t else ""
                                   | None => ""
                                   end) (CvParser.pdf_pages src)
                = map PyStr.strip
                    (map (fun page => match page with
                                      | Some t => t
                                      | None => EmptyString
                                      end) (CvParser.pdf_pages src))).
    { rewrite map_map. apply map_ext. intros [t|]; [|reflexivity].
      now destruct t. }
    rewrite M.
    destruct (join_ends (stripped_pieces
                (map (fun page => match page with
                                  | Some t => t
                                  | None => EmptyString
                                  end) (CvParser.pdf_pages src))))
      as (Hh & Hl & _).
    rewrite strip_fixed by assumption. now rewrite map_map.
  - intros E. unfold CvParser.extract_text.
    assert (Hd : (String.eqb (PyStr.lower suffix) ".pdf") = false
                 /\ (String.eqb (PyStr.lower suffix) ".doc"
                     || String.eqb (PyStr.lower suffix) ".docx") = true).
    { destruct E as [-> | ->]; split; reflexivity. }
    destruct Hd as [-> ->]. unfold CvParser._read_docx.
    destruct (join_ends (stripped_pieces
                (filter PyStr.truthy (CvParser.docx_paragraphs src))))
      as (Hh & Hl & _).
    now rewrite strip_fixed.
Qed.

Lemma extract_text_is_trimmed_join_witness :
  let src := {| CvParser.pdf_pages := [Some " Ada Lovelace "; None; Some "Analyst"];
                CvParser.docx_paragraphs := [];
                CvParser.file_text := "" |} in
  CvParser.extract_text ".PDF" src
  = PyStr.join PyStr.LF
      (filter PyStr.truthy
         (map (fun page => PyStr.strip (match page with
                                        | Some t => t
                                        | None => EmptyString
                                        end))
              (CvParser.pdf_pages src))).
Proof.
  intros src.
  apply (proj1 (proj2 (extract_text_is_trimmed_join ".PDF" src))).
  reflexivity.
Defined.

Lemma dict_get_set_same k v d : Settings.dict_get k (Settings.dict_set k v d) = Some v.
Proof.
  induction d as [|[k' v'] d IH]; simpl.
  - now rewrite String.eqb_refl.
  - destruct (String.eqb k' k) eqn:E; simpl; rewrite E; [reflexivity|exact IH].
Qed.

Lemma dict_get_set_other k k' v d :
  k' <> k -> Settings.dict_get k (Settings.dict_set k' v d) = Settings.dict_get k d.
Proof.
  intros Hne. induction d as [|[k0 v0] d IH]; simpl.
  - destruct (String.eqb_spec k' k); [congruence|reflexivity].
  - destruct (String.eqb_spec k0 k') as [->|H0]; simpl.
    + destruct (String.eqb_spec k' k); [congruence|reflexivity].
    + destruct (String.eqb_spec k0 k); [reflexivity|exact IH].
Qed.

(** After an update, a key has the value the update gives it, if it gives
    one, and the value it had otherwise. *)
Lemma dict_get_update k other : forall d,
  Settings.dict_get k (Settings.update d other)
  = match Settings.last_value k other with
    | Some v => Some v
    | None => Settings.dict_get k d
    end.
Proof.
  unfold Settings.update.
  induction other as [|[k' v'] other IH]; intros d; simpl; [reflexivity|].
  rewrite IH. destruct (Settings.last_value k other); [reflexivity|].
  destruct (String.eqb_spec k' k) as [->|Hne].
  - apply dict_get_set_same.
  - now apply dict_get_set_other.
Qed.

(** X2. In [as_dict()] the extra options win: a key that [extra] has
    carries the value [extra] gives it, [provider], [model] and [api_key]
    included; any other key is [provider] or [model] with the field's value,
    or [api_key] with the key when there is a non-empty one, and is absent
    otherwise. *)
Theorem as_dict_extra_overrides (c : LLMProviderConfig) (k : string) :
  Settings.dict_get k (Settings.as_dict c)
  = match Settings.last_value k (extra c) with
    | Some v => Some v
    | None =>
        if String.eqb k "provider" then Some (provider c)
        else if String.eqb k "model" then Some (model c)
        else if String.eqb k "api_key" then
          match api_key c with
          | Some key => if PyStr.truthy key then Some key else None
          | None => None
          end
        else None
    end.
Proof.
  unfold Settings.as_dict. rewrite dict_get_update.
  destruct (Settings.last_value k (extra c)); [reflexivity|].
  assert (B : forall key,
             Settings.dict_get k
               (Settings.dict_set "api_key" key
                  [("provider", provider c); ("model", model c)])
             = if String.eqb k "provider" then Some (provider c)
               else if String.eqb k "model" then Some (model c)
               else if String.eqb k "api_key" then Some key else None).
  { intros key.
    change (Settings.dict_set "api_key" key
              [("provider", provider c); ("model", model c)])
      with [("provider", provider c); ("model", model c); ("api_key", key)].
    cbn [Settings.dict_get]. rewrite !(String.eqb_sym _ k).
    destruct (String.eqb k "provider"); [reflexivity|].
    destruct (String.eqb k "model"); reflexivity. }
  assert (N : Settings.dict_get k [("provider", provider c); ("model", model c)]
              = if String.eqb k "provider" then Some (provider c)
                else if String.eqb k "model" then Some (model c)
                else if String.eqb k "api_key" then None else None).
  { cbn [Settings.dict_get]. rewrite !(String.eqb_sym _ k).
    destruct (String.eqb k "provider"); [reflexivity|].
    destruct (String.eqb k "model"); [reflexivity|].
    now destruct (String.eqb k "api_key"). }
  destruct (api_key c) as [key|].
  - destruct (PyStr.truthy key); [apply B|]. rewrite N.
    destruct (String.eqb k "provider"); [reflexivity|].
    destruct (String.eqb k "model"); [reflexivity|].
    now destruct (String.eqb k "api_key").
  - rewrite N.
    destruct (String.eqb k "provider"); [reflexivity|].
    destruct (String.eqb k "model"); [reflexivity|].
    now destruct (String.eqb k "api_key").
Qed.

End ParserFacts.

(* ===================================================================== *)
(** * More on the flow planner *)
(* ===================================================================== *)

Section PlannerFacts.

Variable w : World.

Lemma first_bracketed_some parts c :
  Flow.first_bracketed parts = Some c ->
  exists part,
    In part parts /\ c = PyStr.strip part
    /\ PyStr.startswith c "[" = true /\ PyStr.endswith c "]" = true.
Proof.
  induction parts as [|p parts IH]; [discriminate|].
  cbn [Flow.first_bracketed].
  destruct (PyStr.startswith (PyStr.strip p) "[" && PyStr.endswith (PyStr.strip p) "]")
    eqn:E.
  - intros H. inversion H as [Hc]. rewrite Hc in E.
    apply andb_true_iff in E. destruct E as [Es Ee].
    exists p. rewrite Hc. split; [now left|]. split; [reflexivity|].
    split; assumption.
  - intros H. destruct (IH H) as (part & Hin & Hrest).
    exists part. split; [now right | exact Hrest].
Qed.

(** X3. What [_extract_json_block] returns, when it returns a text, is the
    [strip()] of one of the pieces between the fences of a response that has
    a fence; it begins with the opening bracket, ends with the closing one
    and has no white space around it. *)
Theorem extracted_block_is_bracketed (text c : string) :
  Flow._extract_json_block text = Some c ->
  PyStr.contains "```" text = true
  /\ (exists part, In part (PyStr.split text "```") /\ c = PyStr.strip part)
  /\ PyStr.startswith c "[" = true
  /\ PyStr.endswith c "]" = true
  /\ PyStr.strip c = c.
Proof.
  unfold Flow._extract_json_block, Flow.fence.
  destruct (PyStr.contains "```" text); simpl; [|discriminate].
  intros H. apply first_bracketed_some in H.
  destruct H as (part & Hin & Hc & Hs & He).
  split; [reflexivity|]. split; [eauto|]. split; [assumption|].
  split; [assumption|]. subst c. apply strip_idempotent.
Qed.

Lemma extracted_block_is_bracketed_witness :
  let text := Fixture.fenced "" "  [1, 2]  " in
  PyStr.contains "```" text = true
  /\ (exists part, In part (PyStr.split text "```") /\ "[1, 2]" = PyStr.strip part)
  /\ PyStr.startswith "[1, 2]" "[" = true
  /\ PyStr.endswith "[1, 2]" "]" = true
  /\ PyStr.strip "[1, 2]" = "[1, 2]".
Proof.
  apply (@extracted_block_is_bracketed (Fixture.fenced "" "  [1, 2]  ") "[1, 2]").
  reflexivity.
Defined.

Lemma extracted_block_truthy text c :
  Flow._extract_json_block text = Some c -> PyStr.truthy c = true.
Proof.
  unfold Flow._extract_json_block, Flow.fence.
  destruct (PyStr.contains "```" text); simpl; [|discriminate].
  intros H. apply first_bracketed_some in H.
  destruct H as (part & _ & _ & Hs & _). now destruct c.
Qed.

Lemma iter_raise data e :
  Py.iter data = Raise e -> e = Py.not_iterable data.
Proof. destruct data; simpl; intros H; inversion H; reflexivity. Qed.

Lemma step_of_item_object idx pairs :
  exists step, Flow.step_of_item idx (PDict pairs) = Ok step.
Proof.
  unfold Flow.step_of_item, Py.get.
  destruct (Py.dict_get pairs "title"), (Py.dict_get pairs "question"),
    (Py.dict_get pairs "followups"); simpl; eexists; reflexivity.
Qed.

Lemma step_of_item_other idx item :
  (forall pairs, item <> PDict pairs) ->
  Flow.step_of_item idx item = Raise (Py.no_attribute item "get").
Proof.
  intros H. unfold Flow.step_of_item.
  destruct item as [| | | | |pairs]; try reflexivity. now destruct (H pairs).
Qed.

(** The comprehension stops at the first item that is not an object. *)
Lemma steps_from_stops pre : forall idx item post,
  Forall (fun it => exists pairs, it = PDict pairs) pre ->
  (forall pairs, item <> PDict pairs) ->
  Flow.steps_from idx (pre ++ item :: post)
  = Raise (Py.no_attribute item "get").
Proof.
  induction pre as [|it pre IH]; intros idx item post Hpre Hitem; simpl.
  - now rewrite (step_of_item_other idx Hitem).
  - inversion Hpre as [|? ? (pairs & ->) Hrest]; subst.
    destruct (step_of_item_object idx pairs) as (step & ->). simpl.
    now rewrite (IH (S idx) item post Hrest Hitem).
Qed.

Lemma build_raise st e st' :
  Flow.build w st = (Raise e, st') ->
  (LLMClient.generate w (flow_llm (flow st)) (Flow.prompt (flow st)) 1024 st
   = (Raise e, st'))
  \/ (exists raw,
        LLMClient.generate w (flow_llm (flow st)) (Flow.prompt (flow st)) 1024 st
        = (Ok raw, st')
        /\ Flow.parse_steps w raw = Raise e).
Proof.
  unfold Flow.build. rewrite bind_gets. unfold bind at 1.
  destruct (LLMClient.generate w (flow_llm (flow st)) (Flow.prompt (flow st))
              1024 st) as [[raw|e0] st1].
  - unfold bind at 1, lift.
    destruct (Flow.parse_steps w raw) as [steps|e1] eqn:Ep.
    + unfold bind, modify, ret. discriminate.
    + intros H. inversion H; subst. right. eauto.
  - intros H. inversion H; subst. now left.
Qed.

(** What [build] does with the text the generation call returned. *)
Lemma build_of_reply st raw st1 :
  LLMClient.generate w (flow_llm (flow st)) (Flow.prompt (flow st)) 1024 st
  = (Ok raw, st1) ->
  Flow.build w st
  = match Flow.parse_steps w raw with
    | Ok steps => (Ok steps, set_flow (Flow.with_steps steps (flow st1)) st1)
    | Raise e => (Raise e, st1)
    end.
Proof.
  intros H. unfold Flow.build. rewrite bind_gets.
  rewrite (bind_of_ok _ _ _ H). unfold bind, lift, modify, ret.
  now destruct (Flow.parse_steps w raw).
Qed.

(** X4. The failures of [build] once the response is read, by their cause.
    If the whole text is rejected by the decoder ([JSONDecodeError]) and no
    piece between fences is bracketed, [build] raises the [LLMClientError]
    of the planner. If a bracketed piece is found and the decoder rejects
    it too, the decoder's [JSONDecodeError] comes out as it is, not wrapped.
    If the decoded value cannot be iterated, [build] raises the [TypeError]
    of the iteration. If the decoded value has an item that is not an
    object, [build] raises, at the first such item, the [AttributeError] of
    its missing [get]. In each case the state is the one the generation call
    left. *)
Theorem build_failure_by_cause (st st1 : State) (raw : string) :
  LLMClient.generate w (flow_llm (flow st)) (Flow.prompt (flow st)) 1024 st
  = (Ok raw, st1) ->
  (json_loads w raw = None -> Flow._extract_json_block raw = None ->
   Flow.build w st = (Raise Flow.parse_failure, st1)
   /\ exn_class_of Flow.parse_failure = LLMClientError)
  /\ (forall c,
        json_loads w raw = None -> Flow._extract_json_block raw = Some c ->
        json_loads w c = None ->
        Flow.build w st = (Raise Flow.decode_failure, st1)
        /\ exn_class_of Flow.decode_failure = JSONDecodeError)
  /\ (forall data,
        Flow.decode_response w raw = Ok data ->
        (forall items, Py.iter data <> Ok items) ->
        Flow.build w st = (Raise (Py.not_iterable data), st1)
        /\ exn_class_of (Py.not_iterable data) = TypeError)
  /\ (forall data pre item post,
        Flow.decode_response w raw = Ok data ->
        Py.iter data = Ok (pre ++ item :: post) ->
        Forall (fun it => exists pairs, it = PDict pairs) pre ->
        (forall pairs, item <> PDict pairs) ->
        Flow.build w st = (Raise (Py.no_attribute item "get"), st1)
        /\ exn_class_of (Py.no_attribute item "get") = AttributeError).
Proof.
  intros H. rewrite (build_of_reply _ H).
  unfold Flow.parse_steps.
  split; [|split; [|split]].
  - intros Hl Hb. unfold Flow.decode_response. rewrite Hl, Hb.
    split; reflexivity.
  - intros c Hl Hb Hc. unfold Flow.decode_response.
    rewrite Hl, Hb, (extracted_block_truthy _ Hb), Hc. split; reflexivity.
  - intros data Hd Hi. rewrite Hd. simpl.
    destruct (Py.iter data) as [items|e] eqn:Ei.
    + now destruct (Hi items).
    + rewrite (iter_raise _ Ei). split; reflexivity.
  - intros data pre item post Hd Hi Hpre Hitem.
    rewrite Hd. simpl. rewrite Hi. simpl.
    rewrite (steps_from_stops 0 post Hpre Hitem). split; reflexivity.
Qed.

(** X5. A [build] that raises leaves the flow as it was: the steps of an
    earlier plan and the cursor on them are untouched. *)
Theorem failed_build_keeps_flow (st st' : State) (e : exn) :
  Flow.build w st = (Raise e, st') -> flow st' = flow st.
Proof.
  intros H.
  assert (K : keeps flow (LLMClient.generate w (flow_llm (flow st))
                            (Flow.prompt (flow st)) 1024)).
  { unfold LLMClient.generate, LLMClient._generate_openai,
      LLMClient._generate_anthropic, LLMClient._generate_google.
    keeps_auto. }
  apply build_raise in H. destruct H as [H|(raw & H & _)];
    exact (keeps_run st K H).
Qed.

Lemma steps_from_nth items : forall idx steps,
  Flow.steps_from idx items = Ok steps ->
  forall i step,
    nth_error steps i = Some step ->
    exists pairs,
      nth_error items i = Some (PDict pairs)
      /\ step = Observe.normalized (idx + i) pairs.
Proof.
  induction items as [|item items IH]; intros idx steps H i step Hn; simpl in H.
  - inversion H; subst. destruct i; discriminate.
  - apply res_bind_ok in H. destruct H as (s0 & Hs0 & H).
    apply res_bind_ok in H. destruct H as (sts & Hsts & H).
    inversion H; subst. clear H.
    destruct i as [|i]; simpl in Hn.
    + inversion Hn; subst. clear Hn.
      destruct (step_of_item_ok _ _ Hs0) as (pairs & ->).
      exists pairs. split; [reflexivity|].
      rewrite Nat.add_0_r.
      unfold Flow.step_of_item, Py.get in Hs0. simpl in Hs0.
      unfold Observe.normalized, Observe.field.
      destruct (Py.dict_get pairs "title"), (Py.dict_get pairs "question"),
        (Py.dict_get pairs "followups"); simpl in Hs0; inversion Hs0;
        reflexivity.
    + destruct (IH _ _ Hsts i step Hn) as (pairs & Hi & Hs).
      exists pairs. split; [exact Hi|]. now rewrite Nat.add_succ_r.
Qed.

(** X6. When [build] returns, the value decoded from the text the
    generation call returned is a sequence of objects, and the plan has as
    many steps as it has items, the step at index [i] made of the object at
    index [i] and nothing else: its title is the object's [title], or
    [Step i+1] (counting from one) if it has none; its question is the
    object's [question], or the empty text; its follow-ups are the object's
    [followups], or the empty list if it has none or they are falsy. The
    values are taken as they are, whatever their type. *)
Theorem build_normalizes_each_item
    (st st' : State) (steps : list InterviewStep) :
  Flow.build w st = (Ok steps, st') ->
  exists raw st1 data items,
    LLMClient.generate w (flow_llm (flow st)) (Flow.prompt (flow st)) 1024 st
    = (Ok raw, st1)
    /\ Flow.decode_response w raw = Ok data
    /\ Py.iter data = Ok items
    /\ length steps = length items
    /\ forall i item,
         nth_error items i = Some item ->
         exists pairs,
           item = PDict pairs
           /\ nth_error steps i = Some (Observe.normalized i pairs).
Proof.
  intros H. apply build_ok in H. destruct H as (raw & st1 & Hg & Hp & _).
  destruct (parse_steps_ok _ _ Hp) as (data & items & Hd & Hi & Hs).
  assert (L : length steps = length items)
    by (eapply steps_from_length; eauto).
  exists raw, st1, data, items.
  split; [exact Hg|]. split; [exact Hd|]. split; [exact Hi|].
  split; [exact L|].
  intros i item Hn.
  assert (Hlt : i < length steps).
  { rewrite L. apply nth_error_Some. now rewrite Hn. }
  apply nth_error_Some in Hlt.
  destruct (nth_error steps i) as [step|] eqn:E; [|now destruct Hlt].
  destruct (@steps_from_nth items 0 steps Hs i step E) as (pairs & Hi' & ->).
  rewrite Hn in Hi'. inversion Hi'; subst. exists pairs. auto.
Qed.

(** X7. A bracketed piece of prose before the fence hides the plan in the
    fenced block: [_extract_json_block] takes the first piece that begins
    and ends with a bracket, whatever is in the block, so if the decoder
    rejects the response as a whole and rejects that piece, the planner
    raises the decoder's error and never tries the block. *)
Theorem bracketed_prose_hides_fenced_plan
    (ws1 core ws2 mid post : string) :
  PyStr.all_space ws1 = true -> PyStr.all_space ws2 = true ->
  PyStr.free_of PyStr.tick (ws1 ++ String "[" (core ++ String "]" ws2)) = true ->
  PyStr.free_of PyStr.tick mid = true ->
  PyStr.free_of PyStr.tick post = true ->
  json_loads w ((ws1 ++ String "[" (core ++ String "]" ws2))
                ++ "```" ++ mid ++ "```" ++ post) = None ->
  json_loads w (String "[" (core ++ String "]" "")) = None ->
  Flow._extract_json_block
    ((ws1 ++ String "[" (core ++ String "]" ws2)) ++ "```" ++ mid ++ "```" ++ post)
  = Some (String "[" (core ++ String "]" ""))
  /\ Flow.parse_steps w
       ((ws1 ++ String "[" (core ++ String "]" ws2)) ++ "```" ++ mid ++ "```" ++ post)
     = Raise Flow.decode_failure.
Proof.
  intros H1 H2 Hp Hm Hq Hl Hc.
  assert (E : Flow._extract_json_block
                ((ws1 ++ String "[" (core ++ String "]" ws2))
                 ++ "```" ++ mid ++ "```" ++ post)
              = Some (String "[" (core ++ String "]" ""))).
  { rewrite extract_one_block by assumption.
    cbn [Flow.first_bracketed].
    rewrite strip_padded by (assumption || reflexivity).
    cbn [PyStr.startswith]. rewrite Ascii.eqb_refl. cbn [andb].
    change (String "[" (core ++ String "]" ""))
      with (String "[" core ++ String "]" "")%string.
    now rewrite endswith_last. }
  split; [exact E|].
  unfold Flow.parse_steps, Flow.decode_response. rewrite Hl, E.
  cbn [PyStr.truthy PyStr.is_empty negb]. now rewrite Hc.
Qed.

End PlannerFacts.

Lemma failed_build_keeps_flow_witness :
  flow (snd (Flow.build (Fixture.quiet "no plan today") Fixture.midway))
  = flow Fixture.midway.
Proof.
  apply (@failed_build_keeps_flow (Fixture.quiet "no plan today")
           Fixture.midway _ Flow.parse_failure).
  vm_compute. reflexivity.
Defined.

Lemma build_failure_by_cause_witness :
  let w := Fixture.quiet (Json.dq "[{'question': 'Why?'}, 7, {}]") in
  let st1 :=
    snd (LLMClient.generate w (flow_llm (flow Fixture.idle))
           (Flow.prompt (flow Fixture.idle)) 1024 Fixture.idle) in
  Flow.build w Fixture.idle = (Raise (Py.no_attribute (PNum "7") "get"), st1)
  /\ exn_class_of (Py.no_attribute (PNum "7") "get") = AttributeError.
Proof.
  cbv zeta.
  refine (proj2 (proj2 (proj2
            (@build_failure_by_cause
               (Fixture.quiet (Json.dq "[{'question': 'Why?'}, 7, {}]"))
               Fixture.idle _
               (Json.dq "[{'question': 'Why?'}, 7, {}]") _)))
            (PList [PDict [("question", PStr "Why?")]; PNum "7"; PDict []])
            [PDict [("question", PStr "Why?")]] (PNum "7") [PDict []]
            _ _ _ _).
  - vm_compute. reflexivity.
  - vm_compute. reflexivity.
  - reflexivity.
  - constructor; [eexists; reflexivity | constructor].
  - intros pairs. discriminate.
Defined.

Lemma build_normalizes_each_item_witness :
  let w :=
    Fixture.quiet
      (Json.dq "[{'question': 'Why?'}, {'title': 7, 'followups': 1e-400}]") in
  exists raw st1 data items,
    LLMClient.generate w (flow_llm (flow Fixture.idle))
      (Flow.prompt (flow Fixture.idle)) 1024 Fixture.idle
    = (Ok raw, st1)
    /\ Flow.decode_response w raw = Ok data
    /\ Py.iter data = Ok items
    /\ length
         [ {| title := PStr "Step 1"; question := PStr "Why?";
              followups := PList [] |};
           {| title := PNum "7"; question := PStr "";
              followups := PList [] |} ] = length items
    /\ forall i item,
         nth_error items i = Some item ->
         exists pairs,
           item = PDict pairs
           /\ nth_error
                [ {| title := PStr "Step 1"; question := PStr "Why?";
                     followups := PList [] |};
                  {| title := PNum "7"; question := PStr "";
                     followups := PList [] |} ] i
              = Some (Observe.normalized i pairs).
Proof.
  intros w.
  apply (@build_normalizes_each_item w Fixture.idle
           (snd (Flow.build w Fixture.idle))).
  vm_compute. reflexivity.
Defined.

Lemma bracketed_prose_hides_fenced_plan_witness :
  let w := Fixture.quiet "" in
  let raw := ("[Here is the plan] " ++ "```" ++ "[]" ++ "```" ++ "")%string in
  Flow._extract_json_block raw = Some "[Here is the plan]"
  /\ Flow.parse_steps w raw = Raise Flow.decode_failure.
Proof.
  apply (@bracketed_prose_hides_fenced_plan (Fixture.quiet "")
           "" "Here is the plan" " " "[]" ""); reflexivity.
Defined.

(* ===================================================================== *)
(** * More on the LLM client *)
(* ===================================================================== *)

Section ClientFacts.

Variable w : World.

Lemma set_trace_same st : set_trace (trace st) st = st.
Proof. now destruct st. Qed.

Lemma require_api_key_ok config key :
  LLMClient._require_api_key config = Ok key ->
  api_key config = Some key /\ PyStr.truthy key = true.
Proof.
  unfold LLMClient._require_api_key.
  destruct (api_key config) as [k|]; [|discriminate].
  destruct (PyStr.truthy k) eqn:E; [|discriminate].
  intros H. inversion H; subst. auto.
Qed.

Lemma require_api_key_raise config e :
  LLMClient._require_api_key config = Raise e ->
  exn_class_of e = LLMClientError.
Proof.
  unfold LLMClient._require_api_key.
  destruct (api_key config) as [k|].
  - destruct (PyStr.truthy k); [discriminate|].
    intros H. inversion H; reflexivity.
  - intros H. inversion H; reflexivity.
Qed.

Lemma require_api_key_given config key :
  api_key config = Some key -> PyStr.truthy key = true ->
  LLMClient._require_api_key config = Ok key.
Proof.
  intros Ha Ht. unfold LLMClient._require_api_key. now rewrite Ha, Ht.
Qed.

(** With a key the path of a provider makes its request. *)
Lemma keyed_request_sent (p : Provider) config prompt n st key :
  LLMClient._require_api_key config = Ok key ->
  bind (lift (LLMClient._require_api_key config))
       (fun key =>
          bind (call w (Generate p (model config) key prompt n))
               (fun content => ret (PyStr.strip content))) st
  = (match fault w (length (trace st))
             (Generate p (model config) key prompt n) with
     | Some e => Raise e
     | None =>
         Ok (PyStr.strip
               (reply w (length (trace st))
                  (Generate p (model config) key prompt n)))
     end,
     set_trace (trace st ++ [Called (Generate p (model config) key prompt n)])
       st).
Proof.
  intros Hk. unfold bind at 1, lift. rewrite Hk.
  unfold bind, call, ret.
  now destruct (fault w (length (trace st))
                  (Generate p (model config) key prompt n)).
Qed.

(** Without one it raises before any request. *)
Lemma keyed_request_refused (p : Provider) config prompt n st e :
  LLMClient._require_api_key config = Raise e ->
  bind (lift (LLMClient._require_api_key config))
       (fun key =>
          bind (call w (Generate p (model config) key prompt n))
               (fun content => ret (PyStr.strip content))) st
  = (Raise e, st).
Proof. intros Hk. unfold bind at 1, lift. now rewrite Hk. Qed.

(** X8. A generation makes at most one request to a provider, never
    without a non-empty key and never for a provider it does not know: it
    then raises [LLMClientError] with nothing done. With a non-empty key and
    a known provider (whatever the case of its name) it does make the
    request, exactly one, to that provider, with the model, the key, the
    prompt and the token limit, and returns the reply stripped, or raises
    what the request raised. Nothing but the trace changes, and a content it
    returns has no white space around it. *)
Theorem generate_asks_once_with_key
    (config : LLMProviderConfig) (prompt : string) (n : nat) (st : State) :
  exists r st' evs,
    LLMClient.generate w config prompt n st = (r, st')
    /\ st' = set_trace (trace st ++ evs) st
    /\ ((evs = [] /\ exists e, r = Raise e /\ exn_class_of e = LLMClientError)
        \/ exists p key,
             evs = [Called (Generate p (model config) key prompt n)]
             /\ api_key config = Some key /\ PyStr.truthy key = true
             /\ Observe.supported (provider config) = true
             /\ Observe.provider_of (provider config) = Some p
             /\ r = match fault w (length (trace st))
                            (Generate p (model config) key prompt n) with
                    | Some e => Raise e
                    | None =>
                        Ok (PyStr.strip
                              (reply w (length (trace st))
                                 (Generate p (model config) key prompt n)))
                    end)
    /\ (forall key p,
          api_key config = Some key -> PyStr.truthy key = true ->
          Observe.provider_of (provider config) = Some p ->
          evs = [Called (Generate p (model config) key prompt n)]
          /\ r = match fault w (length (trace st))
                         (Generate p (model config) key prompt n) with
                 | Some e => Raise e
                 | None =>
                     Ok (PyStr.strip
                           (reply w (length (trace st))
                              (Generate p (model config) key prompt n)))
                 end)
    /\ (Observe.supported (provider config) = false ->
        evs = []
        /\ r = Raise (Exn LLMClientError
                        ("Unsupported provider '" ++ provider config ++ "'.")))
    /\ (forall content, r = Ok content -> PyStr.strip content = content).
Proof.
  unfold LLMClient.generate, LLMClient._generate_openai,
    LLMClient._generate_anthropic, LLMClient._generate_google.
  destruct (Observe.provider_of (provider config)) as [p|] eqn:Hp.
  - (* a known provider: its path is the one taken *)
    assert (Hs : Observe.supported (provider config) = true).
    { unfold Observe.provider_of in Hp. unfold Observe.supported.
      destruct (String.eqb (PyStr.lower (provider config)) "openai");
        [reflexivity|].
      destruct (String.eqb (PyStr.lower (provider config)) "anthropic");
        [reflexivity|].
      simpl.
      destruct (String.eqb (PyStr.lower (provider config)) "google"
                || String.eqb (PyStr.lower (provider config)) "gemini"
                || String.eqb (PyStr.lower (provider config)) "google-genai");
        [reflexivity | discriminate]. }
    assert (Run : (if String.eqb (PyStr.lower (provider config)) "openai"
                   then
                     bind (lift (LLMClient._require_api_key config))
                       (fun key =>
                          bind (call w (Generate OpenAI (model config) key
                                          prompt n))
                            (fun content => ret (PyStr.strip content)))
                   else if String.eqb (PyStr.lower (provider config))
                             "anthropic"
                   then
                     bind (lift (LLMClient._require_api_key config))
                       (fun key =>
                          bind (call w (Generate Anthropic (model config) key
                                          prompt n))
                            (fun content => ret (PyStr.strip content)))
                   else if String.eqb (PyStr.lower (provider config)) "google"
                           || String.eqb (PyStr.lower (provider config))
                                "gemini"
                           || String.eqb (PyStr.lower (provider config))
                                "google-genai"
                   then
                     bind (lift (LLMClient._require_api_key config))
                       (fun key =>
                          bind (call w (Generate Google (model config) key
                                          prompt n))
                            (fun text => ret (PyStr.strip text)))
                   else
                     raise (Exn LLMClientError
                              ("Unsupported provider '" ++ provider config
                               ++ "'.")))
                  = bind (lift (LLMClient._require_api_key config))
                      (fun key =>
                         bind (call w (Generate p (model config) key prompt n))
                           (fun content => ret (PyStr.strip content)))).
    { unfold Observe.provider_of in Hp.
      destruct (String.eqb (PyStr.lower (provider config)) "openai");
        [now inversion Hp|].
      destruct (String.eqb (PyStr.lower (provider config)) "anthropic");
        [now inversion Hp|].
      destruct (String.eqb (PyStr.lower (provider config)) "google"
                || String.eqb (PyStr.lower (provider config)) "gemini"
                || String.eqb (PyStr.lower (provider config)) "google-genai");
        [now inversion Hp | discriminate]. }
    rewrite Run. clear Run.
    pose proof (@keyed_request_sent p config prompt n st) as Sent.
    pose proof (@keyed_request_refused p config prompt n st) as Refused.
    destruct (LLMClient._require_api_key config) as [key|e] eqn:Ek.
    + pose proof (require_api_key_ok _ Ek) as [Ha Ht].
      rewrite (Sent key eq_refl).
      eexists _, _, [Called (Generate p (model config) key prompt n)].
      split; [reflexivity|]. split; [reflexivity|].
      split; [right; exists p, key; auto 10|].
      split.
      { intros key' p' Ha' _ Hp'. rewrite Ha in Ha'.
        inversion Ha'; inversion Hp'; subst. auto. }
      split; [rewrite Hs; discriminate|].
      intros content H.
      destruct (fault w (length (trace st))
                  (Generate p (model config) key prompt n));
        inversion H. apply strip_idempotent.
    + rewrite (Refused e eq_refl).
      exists (Raise e), st, [].
      split; [reflexivity|].
      split; [now rewrite app_nil_r, set_trace_same|].
      split; [left; split; [reflexivity|]; exists e; split; [reflexivity|];
              eapply require_api_key_raise; eassumption|].
      split.
      { intros key' p' Ha' Ht' _.
        rewrite (require_api_key_given _ Ha' Ht') in Ek. discriminate. }
      split; [rewrite Hs; discriminate|].
      intros content H. discriminate.
  - (* an unknown provider *)
    unfold Observe.provider_of in Hp.
    destruct (String.eqb (PyStr.lower (provider config)) "openai") eqn:E1;
      [discriminate|].
    destruct (String.eqb (PyStr.lower (provider config)) "anthropic") eqn:E2;
      [discriminate|].
    destruct (String.eqb (PyStr.lower (provider config)) "google"
              || String.eqb (PyStr.lower (provider config)) "gemini"
              || String.eqb (PyStr.lower (provider config)) "google-genai")
      eqn:E3; [discriminate|].
    exists (Raise (Exn LLMClientError
                     ("Unsupported provider '" ++ provider config ++ "'."))),
      st, [].
    split; [reflexivity|]. split; [now rewrite app_nil_r, set_trace_same|].
    split; [left; eauto|].
    split; [intros key' p' _ _ H; discriminate|].
    split; [auto|]. intros content H. discriminate.
Qed.

End ClientFacts.

(* ===================================================================== *)
(** * The writer thread of the recorder *)
(* ===================================================================== *)

Section WriterFacts.

Lemma writer_act_fifo (s : Writer.t) (a : Writer.Action) :
  Writer.written (Writer.act s a) ++ Writer.queue (Writer.act s a)
  = Writer.written s ++ Writer.queue s ++ Writer.puts [a].
Proof.
  destruct a as [f| |]; simpl.
  - reflexivity.
  - now rewrite app_nil_r.
  - rewrite app_nil_r. unfold Writer.move.
    destruct (Writer.pc s); [destruct (Writer.running s)| |];
      try reflexivity;
      destruct (Writer.queue s) as [|f q] eqn:Eq; simpl;
      rewrite ?Eq, <- ?app_assoc; reflexivity.
Qed.

Lemma puts_app (a b : list Writer.Action) :
  Writer.puts (a ++ b) = Writer.puts a ++ Writer.puts b.
Proof.
  induction a as [|[f| |] a IH]; simpl; [reflexivity| |assumption|assumption].
  now rewrite IH.
Qed.

Lemma writer_run_fifo (schedule : list Writer.Action) : forall s,
  Writer.written (Writer.run schedule s) ++ Writer.queue (Writer.run schedule s)
  = Writer.written s ++ Writer.queue s ++ Writer.puts schedule.
Proof.
  induction schedule as [|a schedule IH]; intros s.
  - simpl. now rewrite app_nil_r.
  - change (Writer.run (a :: schedule) s)
      with (Writer.run schedule (Writer.act s a)).
    rewrite IH, app_assoc, writer_act_fifo.
    change (a :: schedule) with ([a] ++ schedule).
    rewrite puts_app, <- !app_assoc. reflexivity.
Qed.

Lemma writer_started_fifo
    (q : list Writer.frame) (schedule : list Writer.Action) :
  Writer.written (Writer.run schedule (Writer.started q))
  ++ Writer.queue (Writer.run schedule (Writer.started q))
  = q ++ Writer.puts schedule.
Proof. rewrite writer_run_fifo. reflexivity. Qed.

(** X9. Whatever the interleaving of the audio callbacks, of [stop()] and
    of the turns of the writer thread, the frames written to the file
    followed by the frames still in the queue are exactly the frames put, in
    the order they were put: the thread loses none, writes none twice and
    keeps their order. *)
Theorem writer_keeps_frames_in_order
    (q : list Writer.frame) (schedule : list Writer.Action) :
  let s := Writer.run schedule (Writer.started q) in
  Writer.written s ++ Writer.queue s = q ++ Writer.puts schedule.
Proof. cbv zeta. apply writer_started_fifo. Qed.

Lemma run_snoc schedule a s :
  Writer.run (schedule ++ [a]) s = Writer.act (Writer.run schedule s) a.
Proof. unfold Writer.run. now rewrite fold_left_app. Qed.

(** The thread leaves its first loop only once the flag is cleared, and the
    flag is cleared only by [stop()]. *)
Lemma writer_flag (q : list Writer.frame) (schedule : list Writer.Action) :
  let s := Writer.run schedule (Writer.started q) in
  (Writer.running s = false -> In Writer.Clear schedule)
  /\ (Writer.pc s <> Writer.Looping -> Writer.running s = false).
Proof.
  cbv zeta. induction schedule as [|a schedule IH] using rev_ind.
  - simpl. split; [discriminate | congruence].
  - rewrite run_snoc. destruct IH as [IH1 IH2].
    destruct (Writer.run schedule (Writer.started q)) as [qu wr ru p].
    simpl in IH1, IH2.
    destruct a as [f| |], p, ru, qu; simpl; split; intros H;
      try discriminate; try congruence; try reflexivity;
      try (apply in_or_app; right; now left);
      try (apply in_or_app; left; apply IH1; reflexivity);
      try (apply IH2; discriminate).
Qed.

(** X10. The file is closed only after [stop()], and only when the queue
    is found empty: at the moment the thread is past [close()], what it has
    written is every frame put before that moment, in order; frames that
    arrive later stay in the queue and are never written. *)
Theorem writer_closes_after_draining
    (q : list Writer.frame) (schedule : list Writer.Action) :
  Writer.pc (Writer.run schedule (Writer.started q)) = Writer.Closed ->
  exists before after,
    schedule = before ++ after
    /\ In Writer.Clear before
    /\ Writer.written (Writer.run schedule (Writer.started q))
       = q ++ Writer.puts before
    /\ Writer.queue (Writer.run schedule (Writer.started q))
       = Writer.puts after.
Proof.
  induction schedule as [|a schedule IH] using rev_ind; [discriminate|].
  rewrite run_snoc.
  pose proof (writer_started_fifo q schedule) as Inv.
  pose proof (writer_flag q schedule) as [Hclear Hpc]. cbv zeta in Inv.
  remember (Writer.run schedule (Writer.started q)) as s.
  destruct (Writer.pc s) eqn:Ep.
  - (* still in the first loop: one action cannot close *)
    destruct a as [f| |]; simpl; rewrite ?Ep; try discriminate.
    unfold Writer.move. rewrite Ep.
    destruct (Writer.running s); [destruct (Writer.queue s)|]; simpl;
      rewrite ?Ep; discriminate.
  - (* in the second loop: a move on an empty queue closes *)
    destruct a as [f| |]; simpl; rewrite ?Ep; try discriminate.
    unfold Writer.move. rewrite Ep.
    destruct (Writer.queue s) as [|f q'] eqn:Eq; simpl; [|discriminate].
    intros _. exists schedule, [Writer.Move].
    split; [reflexivity|]. split; [apply Hclear, Hpc; congruence|].
    rewrite app_nil_r in Inv. auto.
  - (* already closed *)
    intros _. destruct (IH eq_refl) as (before & after & Hs & Hin & Hw & Hq).
    exists before, (after ++ [a]).
    split; [now rewrite Hs, app_assoc|]. split; [exact Hin|].
    rewrite puts_app.
    destruct a as [f| |]; simpl; unfold Writer.move; rewrite ?Ep, ?app_nil_r;
      auto.
    split; [exact Hw | now rewrite Hq].
Qed.

Lemma closed_moves n s :
  Writer.pc s = Writer.Closed -> Writer.run (repeat Writer.Move n) s = s.
Proof.
  intros H. induction n as [|n IH]; [reflexivity|].
  cbn [repeat Writer.run fold_left Writer.act].
  assert (E : Writer.move s = s) by (unfold Writer.move; now rewrite H).
  rewrite E. exact IH.
Qed.

Lemma draining_moves n : forall s,
  Writer.pc s = Writer.Draining ->
  length (Writer.queue s) < n ->
  Writer.run (repeat Writer.Move n) s
  = {| Writer.queue := [];
       Writer.written := Writer.written s ++ Writer.queue s;
       Writer.running := Writer.running s;
       Writer.pc := Writer.Closed |}.
Proof.
  induction n as [|n IH]; intros s Hp Hl; [lia|].
  cbn [repeat Writer.run fold_left Writer.act].
  change (fold_left Writer.act (repeat Writer.Move n) (Writer.move s))
    with (Writer.run (repeat Writer.Move n) (Writer.move s)).
  unfold Writer.move. rewrite Hp.
  destruct (Writer.queue s) as [|f q'] eqn:Eq.
  - rewrite closed_moves by reflexivity. now rewrite app_nil_r.
  - rewrite IH; [|reflexivity|simpl in *; lia].
    simpl. now rewrite <- app_assoc.
Qed.

(** X11. After [stop()], if no more frames arrive, the thread writes every
    frame still in the queue and then closes: as many turns as there are
    frames, and two more, are enough, and the file then holds every frame
    ever put, in order. *)
Theorem writer_drains_after_stop
    (q : list Writer.frame) (schedule : list Writer.Action) :
  let s := Writer.run schedule (Writer.started q) in
  Writer.pc s <> Writer.Closed ->
  let s' :=
    Writer.run (Writer.Clear :: repeat Writer.Move (length (Writer.queue s) + 2)) s in
  Writer.pc s' = Writer.Closed
  /\ Writer.queue s' = []
  /\ Writer.written s' = q ++ Writer.puts schedule.
Proof.
  cbv zeta. intros Hp.
  pose proof (writer_started_fifo q schedule) as Inv. cbv zeta in Inv.
  destruct (Writer.run schedule (Writer.started q)) as [qu wr ru p].
  simpl in Hp, Inv. cbn [Writer.queue].
  destruct p; [| |congruence].
  - assert (E : Writer.run (Writer.Clear :: repeat Writer.Move (length qu + 2))
                  {| Writer.queue := qu; Writer.written := wr;
                     Writer.running := ru; Writer.pc := Writer.Looping |}
                = Writer.run (repeat Writer.Move (length qu + 1))
                    {| Writer.queue := qu; Writer.written := wr;
                       Writer.running := false; Writer.pc := Writer.Draining |}).
    { replace (length qu + 2) with (S (length qu + 1)) by lia. reflexivity. }
    rewrite E, draining_moves; [|reflexivity|simpl; lia].
    simpl. auto.
  - assert (E : Writer.run (Writer.Clear :: repeat Writer.Move (length qu + 2))
                  {| Writer.queue := qu; Writer.written := wr;
                     Writer.running := ru; Writer.pc := Writer.Draining |}
                = Writer.run (repeat Writer.Move (length qu + 2))
                    {| Writer.queue := qu; Writer.written := wr;
                       Writer.running := false; Writer.pc := Writer.Draining |})
      by reflexivity.
    rewrite E, draining_moves; [|reflexivity|simpl; lia].
    simpl. auto.
Qed.

End WriterFacts.

Lemma writer_closes_after_draining_witness :
  let schedule :=
    [Writer.Put "b"; Writer.Move; Writer.Clear; Writer.Put "c"; Writer.Move;
     Writer.Move; Writer.Move; Writer.Move; Writer.Put "late"] in
  exists before after,
    schedule = before ++ after
    /\ In Writer.Clear before
    /\ Writer.written (Writer.run schedule (Writer.started ["a"]))
       = ["a"] ++ Writer.puts before
    /\ Writer.queue (Writer.run schedule (Writer.started ["a"]))
       = Writer.puts after.
Proof.
  apply (@writer_closes_after_draining ["a"]). reflexivity.
Defined.

Lemma writer_drains_after_stop_witness :
  let schedule := [Writer.Put "b"; Writer.Move; Writer.Put "c"; Writer.Put "d"] in
  let s := Writer.run schedule (Writer.started ["a"]) in
  let s' :=
    Writer.run (Writer.Clear :: repeat Writer.Move (length (Writer.queue s) + 2)) s in
  Writer.pc s' = Writer.Closed
  /\ Writer.queue s' = []
  /\ Writer.written s' = ["a"] ++ Writer.puts schedule.
Proof.
  apply (@writer_drains_after_stop ["a"]
           [Writer.Put "b"; Writer.Move; Writer.Put "c"; Writer.Put "d"]).
  simpl. discriminate.
Defined.

(* ===================================================================== *)
(** * The form of the desktop application *)
(* ===================================================================== *)

Section FormFacts.

Lemma strip_all_space (s : string) :
  PyStr.all_space s = true -> PyStr.strip s = EmptyString.
Proof.
  intros H. unfold PyStr.strip. now rewrite rstrip_all_space.
Qed.

Lemma or_else_truthy (s d : string) :
  PyStr.truthy d = true -> PyStr.truthy (App.or_else s d) = true.
Proof.
  intros H. unfold App.or_else. destruct (PyStr.truthy s) eqn:E; assumption.
Qed.

(** X12. Settings the form accepts have a meeting address, a CV path that
    exists, a display name and a model that are not empty, the defaults
    standing in for blank fields, and never an empty key: a key field left
    blank, or filled with white space only, gives settings without a key,
    with which every generation call raises [LLMClientError] before any
    request to a provider. *)
Theorem form_settings_have_no_empty_key
    (form : App.Form) (fs : App.Files) (settings : InterviewSettings) :
  App._build_settings form fs = inr settings ->
  PyStr.truthy (meeting_url settings) = true
  /\ PyStr.truthy (cv_path settings) = true
  /\ App.cv_exists fs = true
  /\ PyStr.truthy (interviewer_name settings) = true
  /\ PyStr.truthy (model (llm settings)) = true
  /\ api_key (llm settings) <> Some EmptyString
  /\ (PyStr.all_space (App.form_api_key form) = true ->
      api_key (llm settings) = None
      /\ forall (w : World) prompt n st,
           exists e,
             LLMClient.generate w (llm settings) prompt n st = (Raise e, st)
             /\ exn_class_of e = LLMClientError).
Proof.
  unfold App._build_settings.
  destruct (PyStr.truthy (PyStr.strip (App.form_meeting_url form))) eqn:Em;
    [|discriminate].
  destruct (PyStr.truthy (PyStr.strip (App.form_cv_path form))) eqn:Ec;
    [|discriminate].
  destruct (App.cv_exists fs) eqn:Ex; [|discriminate].
  cbn [negb]. intros H. inversion H; subst settings. clear H.
  cbn [meeting_url cv_path interviewer_name llm model api_key].
  split; [exact Em|]. split; [exact Ec|]. split; [reflexivity|].
  split; [now apply or_else_truthy|]. split; [now apply or_else_truthy|].
  split.
  - unfold App.or_none.
    destruct (PyStr.truthy (PyStr.strip (App.form_api_key form))) eqn:Ek;
      [|discriminate].
    intros E. inversion E as [E']. rewrite E' in Ek. discriminate.
  - intros Hb. rewrite (strip_all_space _ Hb).
    split; [reflexivity|].
    intros w prompt n st.
    destruct (@generate_without_key w
                {| provider := App.form_provider form;
                   model := App.or_else (PyStr.strip (App.form_model_name form))
                                        "gpt-4o-mini";
                   api_key := App.or_none "";
                   extra := [] |}) as (e & Hc & Hg).
    { left. reflexivity. }
    exists e. split; [apply Hg | exact Hc].
Qed.

End FormFacts.

Lemma form_settings_have_no_empty_key_witness :
  PyStr.truthy (meeting_url Sample.settings) = true
  /\ PyStr.truthy (cv_path Sample.settings) = true
  /\ App.cv_exists Sample.files = true
  /\ PyStr.truthy (interviewer_name Sample.settings) = true
  /\ PyStr.truthy (model (llm Sample.settings)) = true
  /\ api_key (llm Sample.settings) <> Some EmptyString
  /\ (PyStr.all_space (App.form_api_key Sample.form) = true ->
      api_key (llm Sample.settings) = None
      /\ forall (w : World) prompt n st,
           exists e,
             LLMClient.generate w (llm Sample.settings) prompt n st
             = (Raise e, st)
             /\ exn_class_of e = LLMClientError).
Proof.
  apply (@form_settings_have_no_empty_key Sample.form Sample.files
           Sample.settings).
  vm_compute. reflexivity.
Defined.

(* ===================================================================== *)
(** * Invariants and events of a run *)
(* ===================================================================== *)

Section RunFacts.

Variable w : World.
Variable settings : InterviewSettings.

(** ** What every new event satisfies *)

Lemma emits_ret {A} P (a : A) : Observe.emits P (ret a).
Proof. intros st. exists []. simpl. now rewrite app_nil_r. Qed.

Lemma emits_raise {A} P e : Observe.emits P (@raise A e).
Proof. intros st. exists []. simpl. now rewrite app_nil_r. Qed.

Lemma emits_lift {A} P (r : Res A) : Observe.emits P (lift r).
Proof. intros st. exists []. simpl. now rewrite app_nil_r. Qed.

Lemma emits_gets {A} P (g : State -> A) : Observe.emits P (gets g).
Proof. intros st. exists []. simpl. now rewrite app_nil_r. Qed.

Lemma emits_modify P (g : State -> State) :
  (forall st, trace (g st) = trace st) -> Observe.emits P (modify g).
Proof. intros H st. exists []. simpl. now rewrite H, app_nil_r. Qed.

Lemma emits_log (P : Event -> bool) e : P e = true -> Observe.emits P (log e).
Proof. intros H st. exists [e]. simpl. now rewrite H. Qed.

Lemma emits_act (P : Event -> bool) c :
  P (Called c) = true -> Observe.emits P (act c).
Proof. apply emits_log. Qed.

Lemma emits_call (P : Event -> bool) c :
  P (Called c) = true -> Observe.emits P (call w c).
Proof.
  intros H st. exists [Called c]. unfold call.
  destruct (fault w (length (trace st)) c); simpl; now rewrite H.
Qed.

Lemma emits_bind_returned {A B} P (m : M A) (k : A -> M B) :
  Observe.emits P m ->
  (forall a, Observe.returns m a -> Observe.emits P (k a)) ->
  Observe.emits P (bind m k).
Proof.
  intros Hm Hk st. unfold bind. destruct (Hm st) as (evs & Ht & Hp).
  destruct (m st) as [[a|e] st1] eqn:E; simpl in Ht.
  - destruct (Hk a (ex_intro _ st (ex_intro _ st1 E)) st1) as (evs' & Ht' & Hp').
    exists (evs ++ evs'). rewrite Ht', Ht, app_assoc, forallb_app, Hp, Hp'. auto.
  - exists evs. auto.
Qed.

Lemma emits_bind {A B} P (m : M A) (k : A -> M B) :
  Observe.emits P m -> (forall a, Observe.emits P (k a)) ->
  Observe.emits P (bind m k).
Proof. intros Hm Hk. apply emits_bind_returned; auto. Qed.

Lemma emits_try_finally {A} P (body : M A) (fin : M unit) :
  Observe.emits P body -> Observe.emits P fin ->
  Observe.emits P (try_finally body fin).
Proof.
  intros Hb Hf st. unfold try_finally. destruct (Hb st) as (evs & Ht & Hp).
  destruct (body st) as [r st1]. simpl in Ht.
  destruct (Hf st1) as (evs' & Ht' & Hp').
  exists (evs ++ evs').
  destruct (fin st1) as [[u|e] st2]; simpl in *;
    rewrite Ht', Ht, app_assoc, forallb_app, Hp, Hp'; auto.
Qed.

Lemma emits_try_except {A} P (body : M A) (h : exn -> M A) :
  Observe.emits P body -> (forall e, Observe.emits P (h e)) ->
  Observe.emits P (try_except body h).
Proof.
  intros Hb Hh st. unfold try_except. destruct (Hb st) as (evs & Ht & Hp).
  destruct (body st) as [[a|e] st1]; simpl in Ht.
  - exists evs. auto.
  - destruct (Hh e st1) as (evs' & Ht' & Hp').
    exists (evs ++ evs'). rewrite Ht', Ht, app_assoc, forallb_app, Hp, Hp'. auto.
Qed.

Lemma emits_if {A} P (b : bool) (m1 m2 : M A) :
  Observe.emits P m1 -> Observe.emits P m2 ->
  Observe.emits P (if b then m1 else m2).
Proof. now destruct b. Qed.

End RunFacts.

Ltac emits_step :=
  first
    [ apply emits_bind; [|intros ?]
    | apply emits_try_finally
    | apply emits_try_except; [|intros ?]
    | apply emits_if
    | apply emits_ret | apply emits_raise | apply emits_lift | apply emits_gets
    | apply emits_modify; intros; reflexivity
    | apply emits_log; reflexivity
    | apply emits_act; reflexivity
    | apply emits_call; reflexivity
    | match goal with
      | |- Observe.emits _ (match ?x with _ => _ end) => destruct x
      end ].

Ltac emits_auto := repeat emits_step.

Ltac keeps_more :=
  repeat first
    [ keeps_step
    | apply keeps_modify; intros; reflexivity ].

Section SessionFacts.

Variable w : World.
Variable settings : InterviewSettings.

Lemma emits_follow_ups P items :
  Observe.emits P (Controller.follow_ups w settings items).
Proof.
  intros st. exists []. rewrite follow_ups_run. simpl. now rewrite app_nil_r.
Qed.

Lemma emits_generate_keyed config prompt n :
  Observe.emits Observe.keyed (LLMClient.generate w config prompt n).
Proof.
  assert (Path : forall p,
             Observe.emits Observe.keyed
               (bind (lift (LLMClient._require_api_key config))
                     (fun key =>
                        bind (call w (Generate p (model config) key prompt n))
                             (fun content => ret (PyStr.strip content))))).
  { intros p. apply emits_bind_returned; [apply emits_lift|].
    intros key (st & st' & H). unfold lift in H. inversion H as [[Hk Hs]].
    apply require_api_key_ok in Hk. destruct Hk as [_ Ht].
    apply emits_bind; [|intros ?; apply emits_ret].
    apply emits_call. exact Ht. }
  unfold LLMClient.generate, LLMClient._generate_openai,
    LLMClient._generate_anthropic, LLMClient._generate_google.
  repeat (apply emits_if; [apply Path|]). apply emits_raise.
Qed.

Lemma emits_loop_keyed steps : forall i,
  Observe.emits Observe.keyed (Controller.interview_loop w settings i steps).
Proof.
  induction steps as [|step rest IH]; intros i; cbn [Controller.interview_loop].
  - apply emits_ret.
  - apply emits_bind; [unfold Controller.observers, Controller.stop; emits_auto|].
    intros _. apply emits_bind; [apply emits_gets|]. intros stopped.
    apply emits_if; [apply emits_ret|].
    apply emits_bind; [|intros _; apply IH].
    unfold Controller.interview_step.
    repeat first [ apply emits_follow_ups | emits_step ].
Qed.

Lemma emits_async_run_keyed :
  Observe.emits Observe.keyed (Controller._async_run w settings).
Proof.
  unfold Controller._async_run, Controller.preparing, Controller.equipping,
    Controller.meeting, Controller.transcribing, Controller.summarizing,
    Controller.in_meeting, Flow.build, Transcript.summary.
  repeat first
    [ apply emits_generate_keyed
    | apply emits_loop_keyed
    | emits_step ].
Qed.

(** X13. In a session, step by step, no request reaches a provider with
    an empty key: every generation request among the events a session adds
    to the trace carries a key that is not empty. *)
Theorem session_never_requests_without_key (st : State) :
  exists evs,
    trace (snd (Controller.session w settings st)) = trace st ++ evs
    /\ forall p model key prompt n,
         In (Called (Generate p model key prompt n)) evs ->
         key <> EmptyString.
Proof.
  assert (E : Observe.emits Observe.keyed (Controller.session w settings)).
  { unfold Controller.session.
    apply emits_bind; [unfold Controller.start; emits_auto|]. intros _.
    intros s. unfold Controller._run.
    destruct (emits_async_run_keyed s) as (evs & Ht & Hp).
    destruct (Controller._async_run w settings s) as [r s']. simpl in *.
    exists evs. auto. }
  destruct (E st) as (evs & Ht & Hp). exists evs. split; [exact Ht|].
  intros p model key prompt n Hin.
  rewrite forallb_forall in Hp. specialize (Hp _ Hin). simpl in Hp.
  intros ->. discriminate.
Qed.

(** ** The last notification *)

Lemma final_transcript_none evs :
  forallb Observe.not_transcript evs = true ->
  Observe.final_transcript evs = None.
Proof.
  induction evs as [|e evs IH]; simpl; [reflexivity|].
  intros H. apply andb_prop in H. destruct H as [He H].
  rewrite (IH H). destruct e; simpl in He; try discriminate; reflexivity.
Qed.

Lemma final_transcript_app tr c evs :
  forallb Observe.not_transcript evs = true ->
  Observe.final_transcript (tr ++ TranscriptText c :: evs) = Some c.
Proof.
  intros H. induction tr as [|e tr IH]; simpl.
  - now rewrite (final_transcript_none _ H).
  - now rewrite IH.
Qed.

Lemma emits_generate (P : Event -> bool) config prompt n :
  (forall c, P (Called c) = true) ->
  Observe.emits P (LLMClient.generate w config prompt n).
Proof.
  intros HP.
  unfold LLMClient.generate, LLMClient._generate_openai,
    LLMClient._generate_anthropic, LLMClient._generate_google.
  repeat first [ apply emits_call; apply HP | emits_step ].
Qed.

Lemma keeps_generate {X} (f : State -> X) config prompt n :
  trace_blind f -> keeps f (LLMClient.generate w config prompt n).
Proof.
  intros Hb.
  unfold LLMClient.generate, LLMClient._generate_openai,
    LLMClient._generate_anthropic, LLMClient._generate_google.
  keeps_auto.
Qed.

Lemma keeps_summarizing {X} (f : State -> X) :
  trace_blind f -> keeps f (Controller.summarizing w settings).
Proof.
  intros Hb.
  unfold Controller.summarizing, Transcript.summary, Controller._emit_summary,
    Controller._emit_status.
  repeat first [ apply keeps_generate; assumption | keeps_step ].
Qed.

(** The transcribing stage ends on the notification of the whole ledger,
    which is also what the file then holds. *)
Lemma transcribing_tail st st' :
  Controller.transcribing w settings st = (Ok tt, st') ->
  exists tr,
    trace st'
    = tr ++ [TranscriptText (PyStr.join PyStr.LF (tm_entries (transcript st')))]
    /\ tm_file (transcript st')
       = Some (PyStr.join PyStr.LF (tm_entries (transcript st'))).
Proof.
  unfold Controller.transcribing. intros H.
  apply bind_ok in H. destruct H as (text & s1 & _ & H).
  apply bind_ok in H. destruct H as ([] & s2 & H2 & H).
  unfold Transcript.append_m, modify in H2. inversion H2 as [Hs2]. clear H2.
  apply bind_ok in H. destruct H as (tm & s3 & H3 & H).
  unfold gets in H3. inversion H3; subst. clear H3.
  unfold Controller._emit_transcript, log, modify in H. inversion H; subst.
  simpl. eexists. split; reflexivity.
Qed.

(** X15. When a session returns, the last transcript notification the
    observers received is the whole ledger, the newline join of its
    entries, and it is what the file at the transcript path holds: the
    summary stage, which comes after it, adds no entry and sends no other
    transcript notification. *)
Theorem last_notification_is_the_file (st st' : State) :
  Controller.session w settings st = (Ok tt, st') ->
  Observe.final_transcript (trace st')
  = Some (PyStr.join PyStr.LF (tm_entries (transcript st')))
  /\ tm_file (transcript st')
     = Some (PyStr.join PyStr.LF (tm_entries (transcript st'))).
Proof.
  unfold Controller.session. intros H.
  apply bind_ok in H. destruct H as ([] & s1 & _ & H).
  unfold Controller._run in H.
  destruct (Controller._async_run w settings s1) as [r s2] eqn:R.
  inversion H; subst. clear H. simpl.
  unfold Controller._async_run in R.
  apply bind_ok in R. destruct R as (steps & s3 & _ & R).
  apply bind_ok in R. destruct R as ([] & s4 & _ & R).
  apply bind_ok in R. destruct R as ([] & s5 & _ & R).
  apply bind_ok in R. destruct R as ([] & s6 & Ht & R).
  apply transcribing_tail in Ht. destruct Ht as (tr & Htr & Hfile).
  pose proof (keeps_summarizing blind_transcript s6) as K.
  assert (E : Observe.emits Observe.not_transcript
                (Controller.summarizing w settings)).
  { unfold Controller.summarizing, Transcript.summary,
      Controller._emit_summary, Controller._emit_status.
    repeat first [ apply emits_generate; reflexivity | emits_step ]. }
  destruct (E s6) as (evs & He & Hp).
  rewrite R in K, He. simpl in K, He.
  rewrite K. split; [|exact Hfile].
  rewrite He, Htr, <- app_assoc. simpl. now apply final_transcript_app.
Qed.

(** ** What is spoken *)

Lemma spoken_app a b :
  Observe.spoken (a ++ b) = Observe.spoken a ++ Observe.spoken b.
Proof.
  induction a as [|e a IH]; simpl; [reflexivity|].
  destruct e as [c| | |]; try exact IH.
  destruct c; try exact IH. simpl. now rewrite IH.
Qed.

Lemma spoken_silent evs :
  forallb Observe.silent evs = true -> Observe.spoken evs = [].
Proof.
  induction evs as [|e evs IH]; simpl; [reflexivity|].
  intros H. apply andb_prop in H. destruct H as [He H].
  destruct e as [c| | |]; try (now apply IH).
  destruct c; try (now apply IH). discriminate.
Qed.

(** One step speaks its question, as it is written, once; or it raises
    before it has spoken. *)
Lemma step_spoken step st :
  exists evs,
    trace (snd (Controller.interview_step w settings step st)) = trace st ++ evs
    /\ (Observe.spoken evs = [Observe.question_text step]
        \/ (Observe.spoken evs = []
            /\ exists e,
                 fst (Controller.interview_step w settings step st) = Raise e)).
Proof.
  unfold Controller.interview_step, Observe.question_text.
  set (rest := bind (lift (Py.iter (followups step))) _).
  assert (Hrest : Observe.emits Observe.silent rest).
  { subst rest. unfold Controller._emit_status.
    repeat first [ apply emits_follow_ups | emits_step ]. }
  destruct (question step) as [|b|tok|q|l|d];
    try (exists []; simpl; split; [now rewrite app_nil_r | right; eauto]).
  set (note := TranscriptText
                 (PyStr.join PyStr.LF
                    (tm_entries
                       (Transcript.append (interviewer_name settings) q
                          (transcript st))))).
  set (s_a := set_trace (trace st ++ [note])
                (set_transcript
                   (Transcript.append (interviewer_name settings) q
                      (transcript st)) st)).
  set (s_b := set_trace (trace s_a ++ [Called (TtsSpeak q)]) s_a).
  assert (A : Bridge.ask w q s_a
              = match fault w (length (trace s_a)) (TtsSpeak q) with
                | Some e => (Raise e, s_b)
                | None => (Ok tt, s_b)
                end).
  { unfold Bridge.ask, call, bind, ret.
    now destruct (fault w (length (trace s_a)) (TtsSpeak q)). }
  change (exists evs,
            trace (snd (bind (Bridge.ask w q) (fun _ => rest) s_a))
            = trace st ++ evs
            /\ (Observe.spoken evs = [q]
                \/ (Observe.spoken evs = []
                    /\ exists e,
                         fst (bind (Bridge.ask w q) (fun _ => rest) s_a)
                         = Raise e))).
  unfold bind. rewrite A.
  destruct (fault w (length (trace s_a)) (TtsSpeak q)).
  - exists [note; Called (TtsSpeak q)]. subst s_b s_a. simpl.
    rewrite <- app_assoc. split; [reflexivity|]. left. reflexivity.
  - destruct (Hrest s_b) as (evs & Ht & Hp).
    exists ([note; Called (TtsSpeak q)] ++ evs).
    rewrite Ht. subst s_b s_a. simpl. rewrite <- !app_assoc.
    split; [reflexivity|]. left.
    now rewrite (spoken_silent _ Hp).
Qed.

(** X16. What the loop gives to the speech engine is, in the order of the
    plan, the question of each of the first [k] steps, as it is written
    (the ledger has it stripped), each once and nothing else; [k] is the
    number of steps when the loop returns with no [stop()] seen. *)
Theorem questions_are_spoken_in_plan_order
    (steps : list InterviewStep) (i : nat) (st : State) :
  exists evs k,
    trace (snd (Controller.interview_loop w settings i steps st))
    = trace st ++ evs
    /\ k <= length steps
    /\ Observe.spoken evs = map Observe.question_text (firstn k steps)
    /\ forall st',
         Controller.interview_loop w settings i steps st = (Ok tt, st') ->
         stop_event st' = false -> k = length steps.
Proof.
  revert i st. induction steps as [|step rest IH]; intros i st.
  - exists [], 0. simpl. rewrite app_nil_r. auto.
  - destruct (observers_run w i st) as (s1 & Ho & Hf & Htr & _).
    assert (Eq : Controller.interview_loop w settings i (step :: rest) st
                 = if stop_event s1 then (Ok tt, s1)
                   else bind (Controller.interview_step w settings step)
                          (fun _ =>
                             Controller.interview_loop w settings (S i) rest)
                          s1).
    { cbn [Controller.interview_loop].
      rewrite (bind_of_ok _ _ _ Ho), bind_gets.
      now destruct (stop_event s1). }
    rewrite Eq. clear Eq.
    destruct (stop_event s1) eqn:Ef.
    + exists [], 0. simpl. rewrite app_nil_r.
      repeat split; auto; [lia|].
      intros st' H Hs. inversion H; subst. congruence.
    + destruct (step_spoken step s1) as (evs1 & Ht1 & Hs1).
      unfold bind.
      destruct (Controller.interview_step w settings step s1)
        as [[[]|e] s2] eqn:Es; simpl in Ht1, Hs1.
      * destruct Hs1 as [Hs1|[_ [e He]]]; [|discriminate].
        destruct (IH (S i) s2) as (evs2 & k & Ht2 & Hk & Hsp & Hfull).
        exists (evs1 ++ evs2), (S k).
        rewrite Ht2, Ht1, Htr, app_assoc, spoken_app, Hs1, Hsp. simpl.
        repeat split; auto; [lia|].
        intros st' H Hs. f_equal. exact (Hfull st' H Hs).
      * destruct Hs1 as [Hs1|[Hs1 _]].
        -- exists evs1, 1. simpl. rewrite Ht1, Htr, Hs1.
           repeat split; auto; [lia|]. intros st' H. discriminate.
        -- exists evs1, 0. simpl. rewrite Ht1, Htr, Hs1.
           repeat split; auto; [lia|]. intros st' H. discriminate.
Qed.

(** ** A meeting that cannot be joined *)

(** X17. If joining the meeting raises (the launch of the browser, the
    load of the page or the pre-join screen), the meeting stage raises that
    same exception after it has stopped the bridge: the recorder is not
    running and has no stream, the ledger is as it was, and among the calls
    made there is no question spoken, no chat message, and no closing of the
    browser or its context, which [session()] guards only once the page is
    joined. *)
Theorem failed_join_ends_meeting_unasked
    (steps : list InterviewStep) (st s1 : State) (e : exn) :
  Meet.enter w (meeting_url settings) (interviewer_name settings) st
  = (Raise e, s1) ->
  exists st' evs,
    Controller.meeting w settings steps st = (Raise e, st')
    /\ trace st' = trace st ++ evs
    /\ forallb Observe.before_meeting evs = true
    /\ transcript st' = transcript st
    /\ rec_running (recorder st') = false
    /\ rec_stream (recorder st') = false.
Proof.
  intros H.
  assert (E1 : Observe.emits Observe.before_meeting
                 (Meet.enter w (meeting_url settings)
                    (interviewer_name settings)))
    by (unfold Meet.enter; emits_auto).
  assert (E2 : Observe.emits Observe.before_meeting (Recorder.stop w))
    by (unfold Recorder.stop, Recorder.update; emits_auto).
  destruct (E1 st) as (evs1 & Ht1 & Hp1). rewrite H in Ht1. simpl in Ht1.
  destruct (E2 s1) as (evs2 & Ht2 & Hp2).
  destruct (recorder_stop_returns w s1) as (s2 & Hs & Hr & _ & Ht).
  rewrite Hs in Ht2. simpl in Ht2.
  assert (T1 : transcript s1 = transcript st).
  { eapply keeps_run; [|exact H]. apply keeps_enter; auto with keeps. }
  exists s2, (evs1 ++ evs2).
  split.
  { unfold Controller.meeting, try_finally, Meet.session, bind, Bridge.stop.
    now rewrite H, Hs. }
  rewrite Ht2, Ht1, app_assoc, forallb_app, Hp1, Hp2, Ht, T1, Hr.
  repeat split; reflexivity.
Qed.

(** ** Stop and start *)

(** X18. A [stop()] called while no worker runs is forgotten by the next
    [start()], which clears the flag: the session that follows is the one
    that would have run without it. *)
Theorem stop_before_start_is_forgotten (st : State) :
  worker_alive st = false ->
  Controller.session w settings (snd (Controller.stop st))
  = Controller.session w settings st.
Proof.
  intros H.
  unfold Controller.session, Controller.start, Controller.stop, bind, gets,
    modify. simpl. rewrite H. reflexivity.
Qed.

(** ** A transcription model that cannot be loaded *)

Lemma emits_at_bind {A B} (P : Event -> bool) (m : M A) (k : A -> M B) st :
  (exists evs, trace (snd (m st)) = trace st ++ evs /\ forallb P evs = true) ->
  (forall a st1, m st = (Ok a, st1) ->
   exists evs,
     trace (snd (k a st1)) = trace st1 ++ evs /\ forallb P evs = true) ->
  exists evs,
    trace (snd (bind m k st)) = trace st ++ evs /\ forallb P evs = true.
Proof.
  intros (evs & Ht & Hp) Hk. unfold bind.
  destruct (m st) as [[a|e] st1]; simpl in Ht.
  - destruct (Hk a st1 eq_refl) as (evs' & Ht' & Hp').
    exists (evs ++ evs'). rewrite Ht', Ht, app_assoc, forallb_app, Hp, Hp'. auto.
  - exists evs. auto.
Qed.

Lemma blind_whisper : trace_blind Observe.whisper_loaded.
Proof. intros t st. reflexivity. Qed.

Lemma appends_whisper calls : forall tm,
  tm_whisper (Transcript.appends calls tm) = tm_whisper tm.
Proof.
  unfold Transcript.appends.
  induction calls as [|c calls IH]; intros tm; simpl; [reflexivity|].
  now rewrite IH.
Qed.

Lemma keeps_whisper_follow_ups items :
  keeps Observe.whisper_loaded (Controller.follow_ups w settings items).
Proof.
  intros st. rewrite follow_ups_run. unfold Observe.whisper_loaded. simpl.
  apply appends_whisper.
Qed.

Ltac whisper_step :=
  first
    [ apply keeps_whisper_follow_ups
    | apply keeps_log; apply blind_whisper
    | apply keeps_act; apply blind_whisper
    | apply keeps_call; apply blind_whisper
    | apply keeps_modify; intros; reflexivity
    | keeps_step ].

Lemma keeps_whisper_loop steps : forall i,
  keeps Observe.whisper_loaded (Controller.interview_loop w settings i steps).
Proof.
  induction steps as [|step rest IH]; intros i; cbn [Controller.interview_loop].
  - apply keeps_ret.
  - apply keeps_bind;
      [unfold Controller.observers, Controller.stop; repeat whisper_step|].
    intros _. apply keeps_bind; [apply keeps_gets|]. intros stopped.
    apply keeps_if; [apply keeps_ret|].
    apply keeps_bind; [|intros _; apply IH].
    unfold Controller.interview_step, Bridge.ask, Transcript.append_m,
      Controller._emit_transcript, Controller._emit_status.
    repeat whisper_step.
Qed.

Lemma keeps_whisper_meeting steps :
  keeps Observe.whisper_loaded (Controller.meeting w settings steps).
Proof.
  unfold Controller.meeting, Meet.session, Meet.enter, Meet.leave_context,
    Controller.in_meeting, Meet.send_chat_message, Meet.leave, Bridge.stop,
    Recorder.stop, Recorder.update, Controller._emit_status.
  repeat first [ apply keeps_whisper_loop | whisper_step ].
Qed.

(** When the model cannot be loaded, the ledger the equipment stage leaves
    has none. *)
Lemma equipping_unloaded st s1 :
  (forall t, fault w t (WhisperLoad "small") <> None) ->
  Controller.equipping w settings st = (Ok tt, s1) ->
  Observe.whisper_loaded s1 = false.
Proof.
  intros Hw H. unfold Controller.equipping in H.
  apply bind_ok in H. destruct H as ([] & s0 & Hi & H).
  assert (W0 : Observe.whisper_loaded s0 = false).
  { unfold Transcript.init, bind, try_except, call, ret, modify in Hi.
    specialize (Hw (length (trace st))).
    destruct (fault w (length (trace st)) (WhisperLoad "small"));
      [|congruence].
    inversion Hi. reflexivity. }
  rewrite <- W0. eapply keeps_run; [|exact H].
  unfold Recorder.init, Recorder.update, Bridge.start, Recorder.start,
    Meet.init.
  repeat whisper_step.
Qed.

(** Without a model the transcribing stage makes no request: it appends
    the placeholder of the missing model and notifies the ledger. *)
Lemma transcribing_unloaded st :
  Observe.whisper_loaded st = false ->
  exists st',
    Controller.transcribing w settings st = (Ok tt, st')
    /\ trace st'
       = trace st
         ++ [TranscriptText (PyStr.join PyStr.LF (tm_entries (transcript st')))]
    /\ tm_entries (transcript st')
       = tm_entries (transcript st)
         ++ [Transcript.line (candidate_name settings)
               (Controller.placeholder Transcript.not_installed)].
Proof.
  unfold Observe.whisper_loaded. intros H.
  unfold Controller.transcribing, try_except, Transcript.transcribe_audio,
    bind, gets, raise, ret, Transcript.append_m, modify,
    Controller._emit_transcript, log.
  rewrite H. simpl. eexists. repeat split.
Qed.

(** X19. If the transcription model cannot be loaded when the ledger is
    made, the session goes on without it: no transcription is ever
    requested, and when the session returns, the last entry of the ledger is
    the candidate's, with the placeholder that says the model is not
    installed. *)
Theorem unloaded_model_is_never_asked (st : State) :
  (forall t, fault w t (WhisperLoad "small") <> None) ->
  exists evs,
    trace (snd (Controller.session w settings st)) = trace st ++ evs
    /\ forallb Observe.not_transcribe evs = true
    /\ forall st',
         Controller.session w settings st = (Ok tt, st') ->
         exists before,
           tm_entries (transcript st')
           = before
             ++ [Transcript.line (candidate_name settings)
                   (Controller.placeholder Transcript.not_installed)].
Proof.
  intros Hw.
  assert (Eloop : forall steps i,
             Observe.emits Observe.not_transcribe
               (Controller.interview_loop w settings i steps)).
  { induction steps as [|step rest IH]; intros i;
      cbn [Controller.interview_loop].
    - apply emits_ret.
    - apply emits_bind;
        [unfold Controller.observers, Controller.stop; emits_auto|].
      intros _. apply emits_bind; [apply emits_gets|]. intros stopped.
      apply emits_if; [apply emits_ret|].
      apply emits_bind; [|intros _; apply IH].
      unfold Controller.interview_step.
      repeat first [ apply emits_follow_ups | emits_step ]. }
  assert (Eprep : Observe.emits Observe.not_transcribe
                    (Controller.preparing w settings)).
  { unfold Controller.preparing, Flow.build.
    repeat first [ apply emits_generate; reflexivity | emits_step ]. }
  assert (Eequip : Observe.emits Observe.not_transcribe
                     (Controller.equipping w settings)).
  { unfold Controller.equipping. emits_auto. }
  assert (Emeet : forall steps,
             Observe.emits Observe.not_transcribe
               (Controller.meeting w settings steps)).
  { intros steps. unfold Controller.meeting, Controller.in_meeting.
    repeat first [ apply Eloop | emits_step ]. }
  assert (Esum : Observe.emits Observe.not_transcribe
                   (Controller.summarizing w settings)).
  { unfold Controller.summarizing, Transcript.summary.
    repeat first [ apply emits_generate; reflexivity | emits_step ]. }
  assert (Part1 : exists evs,
             trace (snd (Controller.session w settings st)) = trace st ++ evs
             /\ forallb Observe.not_transcribe evs = true).
  { unfold Controller.session. apply emits_at_bind.
    { assert (E : Observe.emits Observe.not_transcribe
                    (Controller.start settings))
        by (unfold Controller.start; emits_auto).
      exact (E st). }
    intros [] s1 _. unfold Controller._run.
    assert (R : exists evs,
               trace (snd (Controller._async_run w settings s1))
               = trace s1 ++ evs
               /\ forallb Observe.not_transcribe evs = true).
    { unfold Controller._async_run.
      apply emits_at_bind; [exact (Eprep s1)|]. intros steps s2 _.
      apply emits_at_bind; [exact (Eequip s2)|]. intros [] s3 H3.
      apply emits_at_bind; [exact (Emeet steps s3)|]. intros [] s4 H4.
      apply emits_at_bind; [|intros [] s5 _; exact (Esum s5)].
      assert (W4 : Observe.whisper_loaded s4 = false).
      { transitivity (Observe.whisper_loaded s3).
        - eapply keeps_run; [apply keeps_whisper_meeting | exact H4].
        - eapply equipping_unloaded; eassumption. }
      destruct (transcribing_unloaded _ W4) as (s5 & Ht & Htr & _).
      rewrite Ht. simpl. eexists. split; [exact Htr|]. reflexivity. }
    destruct R as (evs & Ht & Hp).
    destruct (Controller._async_run w settings s1) as [r s2].
    exists evs. auto. }
  destruct Part1 as (evs & Ht & Hp). exists evs.
  split; [exact Ht|]. split; [exact Hp|].
  intros st' H. unfold Controller.session in H.
  apply bind_ok in H. destruct H as ([] & s1 & _ & H).
  unfold Controller._run in H.
  destruct (Controller._async_run w settings s1) as [r s2] eqn:R.
  inversion H; subst. clear H. simpl.
  unfold Controller._async_run in R.
  apply bind_ok in R. destruct R as (steps & s3 & _ & R).
  apply bind_ok in R. destruct R as ([] & s4 & H4 & R).
  apply bind_ok in R. destruct R as ([] & s5 & H5 & R).
  apply bind_ok in R. destruct R as ([] & s6 & H6 & R).
  assert (W5 : Observe.whisper_loaded s5 = false).
  { transitivity (Observe.whisper_loaded s4).
    - eapply keeps_run; [apply keeps_whisper_meeting | exact H5].
    - eapply equipping_unloaded; eassumption. }
  destruct (transcribing_unloaded _ W5) as (s6' & Ht' & _ & He).
  rewrite Ht' in H6. inversion H6; subst s6'. clear H6.
  assert (K : transcript s2 = transcript s6).
  { eapply keeps_run; [|exact R]. apply keeps_summarizing, blind_transcript. }
  rewrite K. eexists. exact He.
Qed.

(** ** A bridge that cannot be started *)

(** X20. [bridge.start()] is called outside the [try] that stops the
    bridge. When the equipment stage raises, the work of the thread raises
    the same exception with nothing undone, and the call that failed tells
    how the recorder is left: as it was made if the speech engine or the
    sound file could not be opened, marked running if the input stream could
    not be opened, marked running with its stream open if the stream could
    not be started. Loading the transcription model never makes the stage
    fail. *)
Theorem failed_bridge_start_is_not_undone
    (s0 st st' : State) (steps : list InterviewStep) (e : exn) :
  Controller.preparing w settings s0 = (Ok steps, st) ->
  Controller.equipping w settings st = (Raise e, st') ->
  Controller._async_run w settings s0 = (Raise e, st')
  /\ exists evs c,
       trace st' = trace st ++ evs ++ [Called c]
       /\ fault w (length (trace st ++ evs)) c = Some e
       /\ match c with
          | TtsInit _ | SoundFileOpen _ => recorder st' = Recorder.fresh
          | InputStreamOpen _ =>
              recorder st' = Recorder.set_running true Recorder.fresh
          | StreamStart =>
              recorder st'
              = Recorder.set_stream true
                  (Recorder.set_running true Recorder.fresh)
          | _ => False
          end.
Proof.
  intros Hp H. split.
  { unfold Controller._async_run, bind. now rewrite Hp, H. }
  clear Hp.
  unfold Controller.equipping, Transcript.init, Recorder.init,
    Recorder.update, Bridge.start, Recorder.start, Meet.init in H.
  unfold bind, try_except, call, modify, act, log, ret in H. simpl in H.
  repeat match type of H with
         | context [match fault w ?t ?c with _ => _ end] =>
             destruct (fault w t c) eqn:?
         end.
  all: simpl in *; try discriminate.
  all: inversion H; subst; clear H; simpl.
  all: rewrite <- ?app_assoc in *; simpl in *.
  all: first
         [ solve [ exists [Called (WhisperLoad "small")],
                     (TtsInit (question_voice settings));
                   repeat split; assumption ]
         | solve [ exists [Called (WhisperLoad "small");
                           Called (TtsInit (question_voice settings))],
                     (SoundFileOpen (audio_output_path settings));
                   repeat split; assumption ]
         | solve [ exists [Called (WhisperLoad "small");
                           Called (TtsInit (question_voice settings));
                           Called (SoundFileOpen (audio_output_path settings))],
                     (InputStreamOpen (capture_loopback_device settings));
                   repeat split; assumption ]
         | solve [ exists [Called (WhisperLoad "small");
                           Called (TtsInit (question_voice settings));
                           Called (SoundFileOpen (audio_output_path settings));
                           Called (InputStreamOpen
                                     (capture_loopback_device settings))],
                     StreamStart;
                   repeat split; assumption ] ].
Qed.

(** ** A meeting that was joined *)

(** What the [finally] of [session()] does: the context is asked to close;
    the browser too, unless closing the context raised. *)
Lemma leave_context_run st :
  exists r st' evs,
    Meet.leave_context w st = (r, st')
    /\ trace st' = trace st ++ evs
    /\ In (Called ContextClose) evs
    /\ (r = Ok tt -> In (Called BrowserClose) evs).
Proof.
  unfold Meet.leave_context, bind, call, ret.
  destruct (fault w (length (trace st)) ContextClose) as [e|].
  - exists (Raise e), (set_trace (trace st ++ [Called ContextClose]) st),
      [Called ContextClose].
    simpl. repeat split; auto. discriminate.
  - simpl.
    destruct (fault w (length (trace st ++ [Called ContextClose])) BrowserClose)
      as [e|]; eexists _, _, [Called ContextClose; Called BrowserClose];
      simpl; rewrite <- app_assoc; simpl; repeat split; auto.
Qed.

(** X21. Once the meeting is joined, however the interview goes, whether
    its block returns or raises at any point, the browser context is asked
    to close and then the bridge is stopped: the recorder is left not
    running and without a stream. When the meeting stage returns, the
    browser was closed as well. *)
Theorem joined_meeting_is_always_closed
    (steps : list InterviewStep) (st s1 : State) :
  Meet.enter w (meeting_url settings) (interviewer_name settings) st
  = (Ok tt, s1) ->
  exists r st' evs,
    Controller.meeting w settings steps st = (r, st')
    /\ trace st' = trace st ++ evs
    /\ In (Called ContextClose) evs
    /\ (r = Ok tt -> In (Called BrowserClose) evs)
    /\ rec_running (recorder st') = false
    /\ rec_stream (recorder st') = false.
Proof.
  intros H.
  assert (E1 : Observe.emits Observe.keyed
                 (Meet.enter w (meeting_url settings)
                    (interviewer_name settings)))
    by (unfold Meet.enter; emits_auto).
  assert (Eb : Observe.emits Observe.keyed
                 (Controller.in_meeting w settings steps)).
  { unfold Controller.in_meeting.
    repeat first [ apply emits_loop_keyed | emits_step ]. }
  assert (E2 : Observe.emits Observe.keyed (Recorder.stop w))
    by (unfold Recorder.stop, Recorder.update; emits_auto).
  destruct (E1 st) as (evs1 & Ht1 & _). rewrite H in Ht1. simpl in Ht1.
  destruct (Eb s1) as (evsb & Htb & _).
  destruct (Controller.in_meeting w settings steps s1) as [rb s2] eqn:Hb.
  simpl in Htb.
  destruct (leave_context_run s2) as (rl & s3 & evl & Hl & Htl & Hc & Hbr).
  destruct (recorder_stop_returns w s3) as (s4 & Hs & Hr & _ & _).
  destruct (E2 s3) as (evs2 & Ht2 & _). rewrite Hs in Ht2. simpl in Ht2.
  exists (match rl with Ok _ => rb | Raise e => Raise e end), s4,
    (evs1 ++ evsb ++ evl ++ evs2).
  split.
  { unfold Controller.meeting, Meet.session, Bridge.stop, try_finally, bind.
    rewrite H, Hb, Hl. destruct rl as [u|e]; now rewrite Hs. }
  split; [rewrite Ht2, Htl, Htb, Ht1, <- !app_assoc; reflexivity|].
  split; [rewrite !in_app_iff; auto|].
  split; [|rewrite Hr; auto].
  intros Hok. destruct rl as [[]|e]; [|discriminate].
  rewrite !in_app_iff. auto.
Qed.

End SessionFacts.

(* ===================================================================== *)
(** * Concrete runs of the session *)
(* ===================================================================== *)

Lemma last_notification_is_the_file_witness :
  let st' :=
    snd (Controller.session (Fixture.quiet Fixture.plan_text) Fixture.settings
           Fixture.idle) in
  Observe.final_transcript (trace st')
  = Some (PyStr.join PyStr.LF (tm_entries (transcript st')))
  /\ tm_file (transcript st')
     = Some (PyStr.join PyStr.LF (tm_entries (transcript st'))).
Proof.
  apply (@last_notification_is_the_file
           (Fixture.quiet Fixture.plan_text) Fixture.settings Fixture.idle).
  vm_compute. reflexivity.
Defined.

Lemma failed_join_ends_meeting_unasked_witness :
  let w := Sample.failing
             (fun c => match c with PageGoto _ => true | _ => false end)
             Sample.timeout in
  exists st' evs,
    Controller.meeting w Fixture.settings Fixture.plan Fixture.idle
    = (Raise Sample.timeout, st')
    /\ trace st' = trace Fixture.idle ++ evs
    /\ forallb Observe.before_meeting evs = true
    /\ transcript st' = transcript Fixture.idle
    /\ rec_running (recorder st') = false
    /\ rec_stream (recorder st') = false.
Proof.
  apply (@failed_join_ends_meeting_unasked
           (Sample.failing
              (fun c => match c with PageGoto _ => true | _ => false end)
              Sample.timeout)
           Fixture.settings Fixture.plan Fixture.idle
           (snd (Meet.enter
                   (Sample.failing
                      (fun c => match c with PageGoto _ => true | _ => false end)
                      Sample.timeout)
                   (meeting_url Fixture.settings)
                   (interviewer_name Fixture.settings) Fixture.idle))
           Sample.timeout).
  vm_compute. reflexivity.
Defined.

Lemma stop_before_start_is_forgotten_witness :
  Controller.session (Fixture.quiet Fixture.plan_text) Fixture.settings
    (snd (Controller.stop Fixture.idle))
  = Controller.session (Fixture.quiet Fixture.plan_text) Fixture.settings
      Fixture.idle.
Proof.
  apply (@stop_before_start_is_forgotten
           (Fixture.quiet Fixture.plan_text) Fixture.settings Fixture.idle).
  reflexivity.
Defined.

Lemma unloaded_model_is_never_asked_witness :
  exists evs,
    trace (snd (Controller.session Sample.unloaded Fixture.settings
                  Fixture.idle))
    = trace Fixture.idle ++ evs
    /\ forallb Observe.not_transcribe evs = true
    /\ forall st',
         Controller.session Sample.unloaded Fixture.settings Fixture.idle
         = (Ok tt, st') ->
         exists before,
           tm_entries (transcript st')
           = before
             ++ [Transcript.line (candidate_name Fixture.settings)
                   (Controller.placeholder Transcript.not_installed)].
Proof.
  apply (@unloaded_model_is_never_asked Sample.unloaded Fixture.settings
           Fixture.idle).
  intros t. vm_compute. discriminate.
Defined.

Lemma failed_bridge_start_is_not_undone_witness :
  let st := snd (Controller.preparing Sample.deaf Fixture.settings
                   Fixture.idle) in
  let st' := snd (Controller.equipping Sample.deaf Fixture.settings st) in
  Controller._async_run Sample.deaf Fixture.settings Fixture.idle
  = (Raise Sample.no_device, st')
  /\ exists evs c,
       trace st' = trace st ++ evs ++ [Called c]
       /\ fault Sample.deaf (length (trace st ++ evs)) c
          = Some Sample.no_device
       /\ match c with
          | TtsInit _ | SoundFileOpen _ => recorder st' = Recorder.fresh
          | InputStreamOpen _ =>
              recorder st' = Recorder.set_running true Recorder.fresh
          | StreamStart =>
              recorder st'
              = Recorder.set_stream true
                  (Recorder.set_running true Recorder.fresh)
          | _ => False
          end.
Proof.
  apply (@failed_bridge_start_is_not_undone Sample.deaf Fixture.settings
           Fixture.idle
           (snd (Controller.preparing Sample.deaf Fixture.settings
                   Fixture.idle))
           (snd (Controller.equipping Sample.deaf Fixture.settings
                   (snd (Controller.preparing Sample.deaf Fixture.settings
                           Fixture.idle))))
           Fixture.plan Sample.no_device).
  - vm_compute. reflexivity.
  - vm_compute. reflexivity.
Defined.

Lemma joined_meeting_is_always_closed_witness :
  exists r st' evs,
    Controller.meeting (Fixture.quiet Fixture.plan_text) Fixture.settings
      Fixture.plan Fixture.idle = (r, st')
    /\ trace st' = trace Fixture.idle ++ evs
    /\ In (Called ContextClose) evs
    /\ (r = Ok tt -> In (Called BrowserClose) evs)
    /\ rec_running (recorder st') = false
    /\ rec_stream (recorder st') = false.
Proof.
  apply (@joined_meeting_is_always_closed
           (Fixture.quiet Fixture.plan_text) Fixture.settings Fixture.plan
           Fixture.idle
           (snd (Meet.enter (Fixture.quiet Fixture.plan_text)
                   (meeting_url Fixture.settings)
                   (interviewer_name Fixture.settings) Fixture.idle))).
  vm_compute. reflexivity.
Defined.
